(** * LicenseChain JavaScript SDK: webhook verification and dispatch

    A shallow embedding of [webhook-verifier.ts] (classes [WebhookVerifier]
    and [WebhookHandler]) together with the theorems that settle the claims
    of the specification about it.

    Conventions of the embedding:
    - a JavaScript string is a [string]; [charCodeAt] is the code of the
      character at an index;
    - a JavaScript value is a [JsValue]; an object is a finite map from
      property names to values (property order is not modelled);
    - a function that may throw returns an [Outcome]; [try]/[catch] is
      [try_catch]; an [async] function is modelled by the settled state of
      the promise it returns, [Return] for fulfilled and [Throw] for
      rejected;
    - the calls to [JSON.parse] are recorded in a trace ([Traced]), so that
      the order of verification and parsing can be stated;
    - the numbers of the timestamp check are binary64 doubles ([float]),
      with the rounded operations of IEEE 754; a time value is an integer
      number of milliseconds or [NaN];
    - what the code takes from its platform (the crypto-js digests,
      [JSON.parse], the [Date] constructor and the clock) is the interface
      [Runtime]; the theorems hold for every implementation of it. *)

From Stdlib Require Import ZArith QArith Qabs Qround Ascii String List Bool Lia.
From Stdlib Require Floats Uint63.
From stdpp Require Import base option strings pretty gmap fin_maps.
Import PrimFloat.

Local Open Scope string_scope.

(** ** JavaScript values *)

Section Values.
Context {number : Type}.

(** The values [JSON.parse] produces, plus [undefined]. *)
#[warnings="-register-all"]
Inductive JsValue : Type :=
| JUndefined
| JNull
| JBool (b : bool)
| JNumber (n : number)
| JString (s : string)
| JArray (items : list JsValue)
| JObject (fields : gmap string JsValue).

(** [interface WebhookEvent] of types.ts. The declared field types are
    erased at run time: [extractEventData] stores whatever the payload held. *)
Record WebhookEvent : Type := mkWebhookEvent {
  event_id : JsValue;
  event_type : JsValue;
  event_createdAt : JsValue;
  event_data : JsValue
}.

End Values.
Arguments JsValue : clear implicits.
Arguments WebhookEvent : clear implicits.

(** ** Outcomes: a value returned or a value thrown *)

(** What a [catch] clause receives: an instance of [Error] with its [name]
    and [message], or any other thrown value, kept by its string conversion. *)
Inductive JsThrown : Type :=
| ErrorObject (name message : string)
| NonError (description : string).

Inductive Outcome (A : Type) : Type :=
| Return (a : A)
| Throw (e : JsThrown).
Arguments Return {A} a.
Arguments Throw {A} e.

#[global] Instance Outcome_ret : MRet Outcome := fun A a => Return a.
#[global] Instance Outcome_bind : MBind Outcome := fun A B f m =>
  match m with
  | Return a => f a
  | Throw e => Throw e
  end.

Definition try_catch {A} (body : Outcome A) (handler : JsThrown -> Outcome A) : Outcome A :=
  match body with
  | Return a => Return a
  | Throw e => handler e
  end.

(** A computation together with the arguments of the [JSON.parse] calls it
    made, in order. *)
Definition Traced (A : Type) : Type := Outcome A * list string.

#[global] Instance Traced_ret : MRet Traced := fun A a => (Return a, []).
#[global] Instance Traced_bind : MBind Traced := fun A B f m =>
  match m with
  | (Return a, calls) => let '(r, calls') := f a in (r, (calls ++ calls')%list)
  | (Throw e, calls) => (Throw e, calls)
  end.

Definition traced_throw {A} (e : JsThrown) : Traced A := (Throw e, []).

Definition lift {A} (o : Outcome A) : Traced A := (o, []).

Definition traced_try_catch {A} (body : Traced A) (handler : JsThrown -> Traced A) : Traced A :=
  match body with
  | (Return a, calls) => (Return a, calls)
  | (Throw e, calls) => let '(r, calls') := handler e in (r, (calls ++ calls')%list)
  end.

(** [instanceof Error] and [error.message]. *)
Definition instanceof_Error (e : JsThrown) : bool :=
  match e with
  | ErrorObject _ _ => true
  | NonError _ => false
  end.

(** [Error.prototype.toString], used by the template literal [`${error}`]. *)
Definition Error_toString (name message : string) : string :=
  if String.eqb name "" then message
  else if String.eqb message "" then name
  else name ++ ": " ++ message.

Definition thrown_toString (e : JsThrown) : string :=
  match e with
  | ErrorObject name message => Error_toString name message
  | NonError description => description
  end.

(** exceptions.ts: [class WebhookVerificationError extends LicenseChainException]. *)
Definition WebhookVerificationError (message : string) : JsThrown :=
  ErrorObject "WebhookVerificationError" message.

Definition SyntaxError (message : string) : JsThrown := ErrorObject "SyntaxError" message.
Definition TypeError (message : string) : JsThrown := ErrorObject "TypeError" message.

(** ** JavaScript numbers as used by [verifyTimestamp]

    A JavaScript number is an IEEE 754 binary64 double: [float], the
    primitive double of the prover, whose operations are the correctly
    rounded ones of the standard. A time value is an integer of at most
    8.64e15 in absolute value, or [NaN]: [Date] clips what lies beyond. *)
Definition JsNum : Type := float.
Bind Scope float_scope with JsNum.

(** The largest time value, in milliseconds. *)
Definition max_time : Z := 8640000000000000.

(** An integer below [2 ^ 63] in absolute value as a double: the nearest
    one, which is the integer itself below [2 ^ 53]. *)
Definition num_of_Z (z : Z) : JsNum :=
  if (z <? 0)%Z then (- of_uint63 (Uint63.of_Z (- z)))%float
  else of_uint63 (Uint63.of_Z z).

(** The time value of a [Date]: [None] is [NaN]. *)
Definition num_of_time (t : option Z) : JsNum :=
  match t with
  | Some z => if (Z.abs z <=? max_time)%Z then num_of_Z z else nan
  | None => nan
  end.
Definition num_sub (a b : JsNum) : JsNum := (a - b)%float.
Definition num_div (a d : JsNum) : JsNum := (a / d)%float.
Definition Math_abs (a : JsNum) : JsNum := abs a.
(** [a <= b]: false as soon as one of them is [NaN]. *)
Definition num_le (a b : JsNum) : bool := (a <=? b)%float.

(** *** Doubles by their specification

    What the theorems about the arithmetic of [verifyTimestamp] are stated
    with: the double nearest to an integer, the doubles 1000 and 300, and
    the check that is computed for every difference below [2 ^ 19]
    milliseconds. *)
Module Doubles.
Import SpecFloat.

(** The double of an integer below [2 ^ 53] in absolute value: the integer
    itself, with a mantissa of 53 digits. *)
Definition canon (z : Z) : spec_float :=
  match z with
  | Z0 => S754_zero false
  | Zpos p =>
      S754_finite false (Z.to_pos (Zpos p * 2 ^ (53 - Zpos (digits2_pos p))))
        (Zpos (digits2_pos p) - 53)
  | Zneg p =>
      S754_finite true (Z.to_pos (Zpos p * 2 ^ (53 - Zpos (digits2_pos p))))
        (Zpos (digits2_pos p) - 53)
  end.

Definition SF1000 : spec_float := S754_finite false 8796093022208000 (-43).
Definition SF300 : spec_float := S754_finite false 5277655813324800 (-44).

(** Whether the double arithmetic and the exact one agree on a difference
    of [d] milliseconds at the tolerance of 300 seconds. *)
Definition near_check (d : Z) : bool :=
  Bool.eqb (abs (of_uint63 (Uint63.of_Z d) / 1000) <=? 300)%float (d <=? 300000)%Z.

Definition near_step (st : Z * bool) : Z * bool :=
  ((fst st + 1)%Z, snd st && near_check (fst st)).

End Doubles.

(** ** The platform *)

Class Runtime : Type := {
  (** the type of JavaScript numbers, and [ToBoolean] on it
      (false for [0], [-0] and [NaN]) *)
  number : Type;
  number_truthy : number -> bool;
  (** [crypto.HmacSHA1(message, key).toString()], the hex digest; likewise
      for the other two *)
  HmacSHA1 : string -> string -> string;
  HmacSHA256 : string -> string -> string;
  HmacSHA512 : string -> string -> string;
  (** [JSON.parse(text)]: the parsed value, or the message of the
      [SyntaxError] it throws *)
  JSON_parse : string -> string + JsValue number;
  (** the message of the [TypeError] thrown by reading a property of
      [undefined] or [null] *)
  TypeError_message : JsValue number -> string -> string;
  (** [new Date(v).getTime()]: [None] is [NaN] (an invalid date) *)
  Date_getTime : JsValue number -> option Z;
  (** [new Date().getTime()], the clock, in milliseconds *)
  Date_now : Z
}.

(** ** String primitives *)

(** [s.charCodeAt(i)]. Out of range it is [NaN], which the bitwise
    operators of [secureCompare] read as [0]. *)
Definition charCodeAt (s : string) (i : nat) : Z :=
  match String.get i s with
  | Some c => Z.of_N (N_of_ascii c)
  | None => 0
  end.

Definition lower_ascii (c : ascii) : ascii :=
  let n := N_of_ascii c in
  if ((65 <=? n) && (n <=? 90))%N then ascii_of_N (n + 32) else c.

(** [s.toLowerCase()] on the letters A to Z. The other characters are left
    as they are: none of them is mapped by JavaScript to a letter of the
    three algorithm names that [generateSignature] compares the result
    with, so the [switch] takes the same branch. *)
Fixpoint toLowerCase (s : string) : string :=
  match s with
  | EmptyString => EmptyString
  | String c rest => String (lower_ascii c) (toLowerCase rest)
  end.

(** [haystack.includes(needle)]. *)
Definition includes (haystack needle : string) : bool :=
  match String.index 0 needle haystack with
  | Some _ => true
  | None => false
  end.

(** ** WebhookVerifier *)

Record WebhookVerifier : Type := mkWebhookVerifier { secret : string }.

Section Verifier.
Context {rt : Runtime}.

Local Abbreviation Value := (JsValue number).
Local Abbreviation Event := (WebhookEvent number).

(** [ToBoolean]. *)
Definition truthy (v : Value) : bool :=
  match v with
  | JUndefined | JNull => false
  | JBool b => b
  | JNumber n => number_truthy n
  | JString s => negb (String.eqb s "")
  | JArray _ | JObject _ => true
  end.

(** [payload.name] for the data fields [extractEventData] reads ([id],
    [type], [event], [created_at], [createdAt], [data], [object]): the own
    property of an object, [undefined] where there is none (no prototype
    carries one of these names), a [TypeError] on [undefined] and [null]. *)
Definition get_field (payload : Value) (name : string) : Outcome Value :=
  match payload with
  | JUndefined | JNull => Throw (TypeError (TypeError_message payload name))
  | JObject fields => Return (default JUndefined (fields !! name))
  | _ => Return JUndefined
  end.

(** [a || b], with [b] evaluated only when [a] is falsy. *)
Definition js_or (a b : Outcome Value) : Outcome Value :=
  x ← a; if truthy x then Return x else b.

(** [constructor(secret)]. *)
Definition WebhookVerifier_new (secret : string) : Outcome WebhookVerifier :=
  if String.eqb secret "" then
    Throw (WebhookVerificationError "Webhook secret is required")
  else Return (mkWebhookVerifier secret).

(** The loop of [secureCompare], from index [i] for [steps] iterations:
    [result |= a.charCodeAt(i) ^ b.charCodeAt(i)]. *)
Fixpoint secureCompare_loop (a b : string) (i steps : nat) (result : Z) : Z :=
  match steps with
  | O => result
  | S steps' =>
      secureCompare_loop a b (S i) steps'
        (Z.lor result (Z.lxor (charCodeAt a i) (charCodeAt b i)))
  end.

Definition secureCompare (a b : string) : bool :=
  if String.eqb a "" || String.eqb b "" || negb (String.length a =? String.length b)%nat then
    false
  else
    (secureCompare_loop a b 0 (String.length a) 0 =? 0)%Z.

Definition generateSignature (this : WebhookVerifier) (payload algorithm : string)
  : Outcome string :=
  hash ← (let selector := toLowerCase algorithm in
          if String.eqb selector "sha1" then Return (HmacSHA1 payload (secret this))
          else if String.eqb selector "sha256" then Return (HmacSHA256 payload (secret this))
          else if String.eqb selector "sha512" then Return (HmacSHA512 payload (secret this))
          else Throw (WebhookVerificationError ("Unsupported algorithm: " ++ algorithm)));
  Return (algorithm ++ "=" ++ hash).

Definition verifySignature (this : WebhookVerifier) (payload signature algorithm : string)
  : Outcome bool :=
  try_catch
    (expectedSignature ← generateSignature this payload algorithm;
     Return (secureCompare signature expectedSignature))
    (fun _ => Return false).

Definition verifyEventType (payload : Event) (expectedType : string) : bool :=
  match event_type payload with
  | JString s => String.eqb s expectedType
  | _ => false
  end.

Definition extractEventData (payload : Value) : Outcome Event :=
  id ← get_field payload "id";
  type ← js_or (get_field payload "type") (get_field payload "event");
  createdAt ← js_or (get_field payload "created_at") (get_field payload "createdAt");
  data ← js_or (get_field payload "data")
           (js_or (get_field payload "object") (Return (JObject ∅)));
  Return (mkWebhookEvent id type createdAt data).

(** [JSON.parse(text)], recorded in the trace. *)
Definition traced_JSON_parse (text : string) : Traced Value :=
  (match JSON_parse text with
   | inl message => Throw (SyntaxError message)
   | inr v => Return v
   end, [text]).

Definition parsePayload (this : WebhookVerifier) (payload signature algorithm : string)
  : Traced Event :=
  verified ← lift (verifySignature this payload signature algorithm);
  if negb verified then
    traced_throw (WebhookVerificationError "Invalid webhook signature")
  else
    traced_try_catch
      (data ← traced_JSON_parse payload;
       lift (extractEventData data))
      (fun error =>
         traced_throw (WebhookVerificationError ("Invalid JSON payload: " ++ thrown_toString error))).

Definition verifyTimestamp (payload : Event) (tolerance : JsNum) : Outcome bool :=
  let timestamp := event_createdAt payload in
  if negb (truthy timestamp) then Return true
  else
    try_catch
      (let eventTime := num_of_time (Date_getTime timestamp) in
       let currentTime := num_of_time (Some Date_now) in
       let diffSeconds := Math_abs (num_div (num_sub currentTime eventTime) 1000) in
       Return (num_le diffSeconds tolerance))
      (fun _ => Return false).

End Verifier.

(** ** WebhookHandler *)

Section Handler.
Context {rt : Runtime}.

Local Abbreviation Value := (JsValue number).
Local Abbreviation Event := (WebhookEvent number).

(** A registered handler, [(event: WebhookEvent) => Promise<any>], by what
    awaiting its promise gives. *)
Definition Handler : Type := Event -> Outcome Value.

Record WebhookHandler : Type := mkWebhookHandler {
  verifier : WebhookVerifier;
  handlers : gmap string Handler
}.

(** The object literal [{ status, event }] the built-in handlers return. *)
Definition handler_result (status : string) (event : Value) : Value :=
  JObject (<["status" := JString status]> (<["event" := event]> ∅)).

Definition handleLicenseCreated : Handler :=
  fun event => Return (handler_result "processed" (JString "license.created")).
Definition handleLicenseUpdated : Handler :=
  fun event => Return (handler_result "processed" (JString "license.updated")).
Definition handleLicenseRevoked : Handler :=
  fun event => Return (handler_result "processed" (JString "license.revoked")).
Definition handleLicenseExpired : Handler :=
  fun event => Return (handler_result "processed" (JString "license.expired")).
Definition handleLicenseValidated : Handler :=
  fun event => Return (handler_result "processed" (JString "license.validated")).
Definition handleAppCreated : Handler :=
  fun event => Return (handler_result "processed" (JString "app.created")).
Definition handleAppUpdated : Handler :=
  fun event => Return (handler_result "processed" (JString "app.updated")).
Definition handleAppDeleted : Handler :=
  fun event => Return (handler_result "processed" (JString "app.deleted")).
Definition handleUserCreated : Handler :=
  fun event => Return (handler_result "processed" (JString "user.created")).
Definition handleUserUpdated : Handler :=
  fun event => Return (handler_result "processed" (JString "user.updated")).
Definition handleUnknownEvent : Handler :=
  fun event => Return (handler_result "ignored" (event_type event)).

Definition setupDefaultHandlers (table : gmap string Handler) : gmap string Handler :=
  <["user.updated" := handleUserUpdated]> (
  <["user.created" := handleUserCreated]> (
  <["app.deleted" := handleAppDeleted]> (
  <["app.updated" := handleAppUpdated]> (
  <["app.created" := handleAppCreated]> (
  <["license.validated" := handleLicenseValidated]> (
  <["license.expired" := handleLicenseExpired]> (
  <["license.revoked" := handleLicenseRevoked]> (
  <["license.updated" := handleLicenseUpdated]> (
  <["license.created" := handleLicenseCreated]> table))))))))).

(** The ten types [setupDefaultHandlers] registers. *)
Definition default_event_types : list string :=
  ["license.created"; "license.updated"; "license.revoked"; "license.expired";
   "license.validated"; "app.created"; "app.updated"; "app.deleted";
   "user.created"; "user.updated"].

(** [constructor(secret)]. *)
Definition WebhookHandler_new (secret : string) : Outcome WebhookHandler :=
  verifier ← WebhookVerifier_new secret;
  Return (mkWebhookHandler verifier (setupDefaultHandlers ∅)).

Definition on (this : WebhookHandler) (eventType : string) (handler : Handler)
  : WebhookHandler :=
  mkWebhookHandler (verifier this) (<[eventType := handler]> (handlers this)).

Definition off (this : WebhookHandler) (eventType : string) : WebhookHandler :=
  mkWebhookHandler (verifier this) (delete eventType (handlers this)).

Definition clearHandlers (this : WebhookHandler) : WebhookHandler :=
  mkWebhookHandler (verifier this) ∅.

(** [this.handlers.get(key)]: the keys of the table are strings, so any
    other value finds nothing. *)
Definition Map_get (table : gmap string Handler) (key : Value) : option Handler :=
  match key with
  | JString s => table !! s
  | _ => None
  end.

Definition handleEvent (this : WebhookHandler) (event : Event) : Outcome Value :=
  let handler := default handleUnknownEvent (Map_get (handlers this) (event_type event)) in
  handler event.

(** The event as the value of an object property. *)
Definition event_value (event : Event) : Value :=
  JObject (<["id" := event_id event]> (
           <["type" := event_type event]> (
           <["createdAt" := event_createdAt event]> (
           <["data" := event_data event]> ∅)))).

(** The own enumerable properties that [...result] copies: those of an
    object, the indexed elements of an array or string, none otherwise. *)
Definition own_properties (result : Value) : gmap string Value :=
  match result with
  | JObject fields => fields
  | JArray items => list_to_map (imap (fun i x => (pretty i, x)) items)
  | JString s =>
      list_to_map (imap (fun i c => (pretty i, JString (String c EmptyString)))
                     (list_ascii_of_string s))
  | _ => ∅
  end.

(** [{ ...fields, ...result }]: the properties of [result] are written
    over those already set. *)
Definition spread (fields : gmap string Value) (result : Value) : gmap string Value :=
  own_properties result ∪ fields.

Definition handle (this : WebhookHandler) (payload signature algorithm : string)
  : Traced (gmap string Value) :=
  traced_try_catch
    (event ← parsePayload (verifier this) payload signature algorithm;
     timely ← lift (verifyTimestamp event 300);
     if negb timely then
       traced_throw (WebhookVerificationError "Webhook timestamp is too old")
     else
       result ← lift (handleEvent this event);
       mret (spread (<["valid" := JBool true]> (<["event" := event_value event]> ∅)) result))
    (fun error =>
       mret (<["valid" := JBool false]> (
             <["error" := JString (match error with
                                   | ErrorObject _ message => message
                                   | NonError _ => "Unknown error"
                                   end)]> ∅))).

End Handler.

(** ** Vocabulary of the statements *)

Section Vocabulary.
Context {rt : Runtime}.

Local Abbreviation Value := (JsValue number).
Local Abbreviation Event := (WebhookEvent number).

(** The digest the [switch] of [generateSignature] selects for an algorithm
    name, if any. *)
Definition selected_digest (algorithm : string) : option (string -> string -> string) :=
  let selector := toLowerCase algorithm in
  if String.eqb selector "sha1" then Some HmacSHA1
  else if String.eqb selector "sha256" then Some HmacSHA256
  else if String.eqb selector "sha512" then Some HmacSHA512
  else None.

(** The three algorithm names of the specification. *)
Definition supported_algorithms : list string := ["sha1"; "sha256"; "sha512"].

(** [s] with the character at index [i] replaced by [c] (unchanged when
    [i] is out of range). *)
Fixpoint alter (s : string) (i : nat) (c : ascii) : string :=
  match s, i with
  | EmptyString, _ => EmptyString
  | String _ rest, O => String c rest
  | String d rest, S i' => String d (alter rest i' c)
  end.

(** [undefined] and [null], the two values without properties. *)
Definition nullish (v : Value) : bool :=
  match v with
  | JUndefined | JNull => true
  | _ => false
  end.

(** The value a data field reads as on an object: [undefined] when the
    object has no such property. *)
Definition field (fields : gmap string Value) (name : string) : Value :=
  default JUndefined (fields !! name).

(** A fallback rule as the code evaluates it: the first source whose value
    is truthy, and [last] when none is. *)
Fixpoint first_truthy (fields : gmap string Value) (sources : list string) (last : Value)
  : Value :=
  match sources with
  | [] => last
  | name :: rest =>
      if truthy (field fields name) then field fields name
      else first_truthy fields rest last
  end.

Definition normalize_first_truthy (fields : gmap string Value) : Event :=
  mkWebhookEvent
    (field fields "id")
    (first_truthy fields ["type"] (field fields "event"))
    (first_truthy fields ["created_at"] (field fields "createdAt"))
    (first_truthy fields ["data"; "object"] (JObject ∅)).

(** The same rule as the specification words it: the first source that is
    present, whatever its value, and [last] when none is. *)
Fixpoint first_present (fields : gmap string Value) (sources : list string) (last : Value)
  : Value :=
  match sources with
  | [] => last
  | name :: rest =>
      match fields !! name with
      | Some v => v
      | None => first_present fields rest last
      end
  end.

Definition normalize_first_present (fields : gmap string Value) : Event :=
  mkWebhookEvent
    (field fields "id")
    (first_present fields ["type"; "event"] JUndefined)
    (first_present fields ["created_at"; "createdAt"] JUndefined)
    (first_present fields ["data"; "object"] (JObject ∅)).

(** The two conditions [parsePayload] signals. Both are instances of
    [WebhookVerificationError]; the message tells them apart. *)
Definition WebhookVerificationFailed : JsThrown :=
  WebhookVerificationError "Invalid webhook signature".

Definition InvalidPayload (cause : JsThrown) : JsThrown :=
  WebhookVerificationError ("Invalid JSON payload: " ++ thrown_toString cause).

(** The envelopes of [handle]. *)
Definition failure_envelope (message : string) : gmap string Value :=
  <["valid" := JBool false]> (<["error" := JString message]> ∅).

Definition error_message (e : JsThrown) : string :=
  match e with
  | ErrorObject _ message => message
  | NonError _ => "Unknown error"
  end.

End Vocabulary.

Section Envelopes.
Context {rt : Runtime}.

(** What [handle] starts from on success, [{ valid: true, event }]. *)
Definition success_fields (event : WebhookEvent number) : gmap string (JsValue number) :=
  <["valid" := JBool true]> (<["event" := event_value event]> ∅).

(** [{ valid: true, status, event }] with [event] a value of any kind. *)
Definition status_envelope (status : string) (event : JsValue number)
  : gmap string (JsValue number) :=
  <["valid" := JBool true]> (<["event" := event]> (<["status" := JString status]> ∅)).

End Envelopes.

(** ** A small platform to run the model on

    The theorems below hold for every [Runtime]. To evaluate the code on
    concrete payloads, this module supplies one: a keyed hex checksum in
    place of the three digests, a parser for a subset of JSON, and the clock
    stopped at 2023-11-14T22:13:20Z. *)
Module Fixture.

Definition quote : ascii := ascii_of_nat 34.
Definition backslash : ascii := ascii_of_nat 92.

Definition hex_digit (n : N) : ascii :=
  if (n <? 10)%N then ascii_of_N (48 + n) else ascii_of_N (87 + n).

Fixpoint hex_of_string (s : string) : string :=
  match s with
  | EmptyString => EmptyString
  | String c rest =>
      let n := N_of_ascii c in
      String (hex_digit (n / 16)) (String (hex_digit (n mod 16)) (hex_of_string rest))
  end.

(** Not a MAC: it only has the shape of one (a hex string computed from the
    message and the key). *)
Definition keyed_hex (tag message key : string) : string :=
  hex_of_string (tag ++ key ++ message).

(** Reads a JSON string after its opening quote, escapes excluded: the
    content and what follows the closing quote. *)
Fixpoint read_string (s : string) : option (string * string) :=
  match s with
  | EmptyString => None
  | String c rest =>
      if Ascii.eqb c quote then Some (EmptyString, rest)
      else if Ascii.eqb c backslash then None
      else match read_string rest with
           | Some (content, rest') => Some (String c content, rest')
           | None => None
           end
  end.

Definition is_digit (c : ascii) : bool :=
  (48 <=? N_of_ascii c)%N && (N_of_ascii c <=? 57)%N.

(** Reads the decimal digits at the head of a string: their value after
    [acc], and what follows them. *)
Fixpoint read_digits (s : string) (acc : Z) : Z * string :=
  match s with
  | String c rest =>
      if is_digit c then read_digits rest (10 * acc + (Z.of_N (N_of_ascii c) - 48))%Z
      else (acc, s)
  | EmptyString => (acc, s)
  end.

(** Reads a number that starts with the digit [c], followed by [rest]: a
    natural number in decimal digits, without a leading zero. *)
Definition read_number (c : ascii) (rest : string) : Z * string :=
  if Ascii.eqb c "0" then (0%Z, rest) else read_digits (String c rest) 0.

(** Reads the members of a flat object whose values are strings or natural
    numbers, after the opening brace or a comma. A later duplicate of a key
    wins. *)
Fixpoint read_members (fuel : nat) (s : string) (acc : gmap string (JsValue Z))
  : option (gmap string (JsValue Z)) :=
  match fuel, s with
  | S fuel', String c rest =>
      if Ascii.eqb c quote then
        match read_string rest with
        | Some (key, String ":" (String c' rest')) =>
            if Ascii.eqb c' quote then
              match read_string rest' with
              | Some (value, String "," more) =>
                  read_members fuel' more (<[key := JString value]> acc)
              | Some (value, String "}" EmptyString) =>
                  Some (<[key := JString value]> acc)
              | _ => None
              end
            else if is_digit c' then
              match read_number c' rest' with
              | (n, String "," more) =>
                  read_members fuel' more (<[key := JNumber n]> acc)
              | (n, String "}" EmptyString) =>
                  Some (<[key := JNumber n]> acc)
              | _ => None
              end
            else None
        | _ => None
        end
      else None
  | _, _ => None
  end.

(** [JSON.parse] on the literals [null], [true], [false], the empty object
    and flat objects of strings and natural numbers; everything else is
    refused. *)
Definition parse_json (text : string) : string + JsValue Z :=
  if String.eqb text "null" then inr JNull
  else if String.eqb text "true" then inr (JBool true)
  else if String.eqb text "false" then inr (JBool false)
  else if String.eqb text "{}" then inr (JObject ∅)
  else match text with
       | String "{" rest =>
           match read_members (String.length rest) rest ∅ with
           | Some fields => inr (JObject fields)
           | None => inl "Unexpected token in JSON"
           end
       | _ => inl "Unexpected token in JSON"
       end.

Definition null_read_message (v : JsValue Z) (name : string) : string :=
  "Cannot read properties of " ++
  match v with JUndefined => "undefined" | _ => "null" end ++
  " (reading '" ++ name ++ "')".

(** The clock, and the three timestamps the examples use: the current
    instant, 100 seconds before it and 400 seconds before it. *)
Definition now : Z := 1700000000000.

Definition date_time (v : JsValue Z) : option Z :=
  match v with
  | JString s =>
      if String.eqb s "2023-11-14T22:13:20.000Z" then Some now
      else if String.eqb s "2023-11-14T22:11:40.000Z" then Some (now - 100000)%Z
      else if String.eqb s "2023-11-14T22:06:40.000Z" then Some (now - 400000)%Z
      else None
  | JNumber n => Some n
  | _ => None
  end.

#[local] Instance runtime : Runtime := {|
  number := Z;
  number_truthy := fun n => negb (n =? 0)%Z;
  HmacSHA1 := keyed_hex "1";
  HmacSHA256 := keyed_hex "256";
  HmacSHA512 := keyed_hex "512";
  JSON_parse := parse_json;
  TypeError_message := null_read_message;
  Date_getTime := date_time;
  Date_now := now
|}.

(** JSON text of a flat object, from its members in order. *)
Definition json_string (s : string) : string :=
  String quote s ++ String quote EmptyString.

Fixpoint json_members (members : list (string * string)) : string :=
  match members with
  | [] => EmptyString
  | [(k, v)] => json_string k ++ ":" ++ json_string v
  | (k, v) :: rest => json_string k ++ ":" ++ json_string v ++ "," ++ json_members rest
  end.

Definition json_object (members : list (string * string)) : string :=
  "{" ++ json_members members ++ "}".

Definition the_verifier : WebhookVerifier := mkWebhookVerifier "whsec_test".

Definition the_handler : WebhookHandler :=
  mkWebhookHandler the_verifier (setupDefaultHandlers ∅).

(** The signature the sender computes for a payload. *)
Definition sign (payload : string) : string :=
  "sha256=" ++ keyed_hex "256" payload "whsec_test".

(** An object whose [type] is present and empty, beside an [event]. *)
Definition empty_type_fields : gmap string (JsValue Z) :=
  <["type" := JString ""]> (<["event" := JString "x"]> ∅).

(** An event whose [createdAt] is present and empty. *)
Definition empty_timestamp_event : WebhookEvent Z :=
  mkWebhookEvent JUndefined (JString "license.created") (JString "") (JObject ∅).

(** A caller's handler that throws, registered for the type x. *)
Definition failing : Handler (rt := runtime) :=
  fun _ => Throw (ErrorObject "Error" "boom").

Definition the_failing_handler : WebhookHandler := on the_handler "x" failing.

(** The payloads of the examples, with the value each parses to and the
    event it is normalized to. *)
Definition fresh_payload : string :=
  json_object [("type", "license.created"); ("createdAt", "2023-11-14T22:13:20.000Z")].

Definition fresh_data : JsValue Z :=
  JObject (<["type" := JString "license.created"]> (
           <["createdAt" := JString "2023-11-14T22:13:20.000Z"]> ∅)).

Definition fresh_event : WebhookEvent Z :=
  mkWebhookEvent JUndefined (JString "license.created")
    (JString "2023-11-14T22:13:20.000Z") (JObject ∅).

Definition stale_payload : string :=
  json_object [("type", "license.created"); ("createdAt", "2023-11-14T22:06:40.000Z")].

Definition stale_data : JsValue Z :=
  JObject (<["type" := JString "license.created"]> (
           <["createdAt" := JString "2023-11-14T22:06:40.000Z"]> ∅)).

Definition stale_event : WebhookEvent Z :=
  mkWebhookEvent JUndefined (JString "license.created")
    (JString "2023-11-14T22:06:40.000Z") (JObject ∅).

(** A payload whose [createdAt] is the number 0, the epoch. *)
Definition epoch_payload : string :=
  "{" ++ json_string "type" ++ ":" ++ json_string "license.created" ++ ","
      ++ json_string "createdAt" ++ ":0}".

Definition epoch_data : JsValue Z :=
  JObject (<["type" := JString "license.created"]> (<["createdAt" := JNumber 0%Z]> ∅)).

Definition epoch_event : WebhookEvent Z :=
  mkWebhookEvent JUndefined (JString "license.created") (JNumber 0%Z) (JObject ∅).

Definition typed_payload (type : string) : string := json_object [("type", type)].

Definition typed_data (type : string) : JsValue Z :=
  JObject (<["type" := JString type]> ∅).

Definition typed_event (type : string) : WebhookEvent Z :=
  mkWebhookEvent JUndefined (JString type) JUndefined (JObject ∅).

End Fixture.

(** ** The rest of WebhookHandler: the accessors and the order of the table *)

Section Accessors.
Context {rt : Runtime}.

Definition getVerifier (this : WebhookHandler) : WebhookVerifier := verifier this.

(** The keys of a [Map] in iteration order, which is insertion order:
    [set] appends a key that is new and leaves the place of one that is
    present, [delete] removes the key, [clear] removes all. *)
Definition keys_set (keys : list string) (key : string) : list string :=
  if bool_decide (key ∈ keys) then keys else (keys ++ [key])%list.

Definition keys_delete (keys : list string) (key : string) : list string :=
  filter (fun k => k ≠ key) keys.

(** A handler object together with the iteration order of [this.handlers]. *)
Record OrderedHandler : Type := mkOrderedHandler {
  ordered_this : WebhookHandler;
  ordered_keys : list string
}.

(** The ten [set] calls of [setupDefaultHandlers], on the keys. *)
Definition setupDefaultKeys (keys : list string) : list string :=
  keys_set (keys_set (keys_set (keys_set (keys_set (keys_set (keys_set (keys_set (
    keys_set (keys_set keys
      "license.created") "license.updated") "license.revoked") "license.expired")
      "license.validated") "app.created") "app.updated") "app.deleted")
      "user.created") "user.updated".

Definition OrderedHandler_new (secret : string) : Outcome OrderedHandler :=
  this ← WebhookHandler_new secret;
  Return (mkOrderedHandler this (setupDefaultKeys [])).

Definition ordered_on (o : OrderedHandler) (eventType : string) (handler : Handler)
  : OrderedHandler :=
  mkOrderedHandler (on (ordered_this o) eventType handler)
    (keys_set (ordered_keys o) eventType).

Definition ordered_off (o : OrderedHandler) (eventType : string) : OrderedHandler :=
  mkOrderedHandler (off (ordered_this o) eventType) (keys_delete (ordered_keys o) eventType).

Definition ordered_clearHandlers (o : OrderedHandler) : OrderedHandler :=
  mkOrderedHandler (clearHandlers (ordered_this o)) [].

(** [getHandlers()]: [Array.from(this.handlers.keys())]. *)
Definition getHandlers (o : OrderedHandler) : list string := ordered_keys o.

(** The calls a user makes on a handler object between two reads. *)
Inductive RegistryCall : Type :=
| CallOn (eventType : string) (handler : Handler)
| CallOff (eventType : string)
| CallClear.

Definition registry_call (o : OrderedHandler) (c : RegistryCall) : OrderedHandler :=
  match c with
  | CallOn eventType handler => ordered_on o eventType handler
  | CallOff eventType => ordered_off o eventType
  | CallClear => ordered_clearHandlers o
  end.

Definition registry_calls (o : OrderedHandler) (calls : list RegistryCall) : OrderedHandler :=
  fold_left registry_call calls o.

(** What [getHandlers] promises about the table: every key once, and the
    keys of the table exactly. *)
Definition keys_agree (o : OrderedHandler) : Prop :=
  NoDup (getHandlers o) /\
  forall t, t ∈ getHandlers o <-> is_Some (handlers (ordered_this o) !! t).

End Accessors.

(** ** exceptions.ts *)

Module Exceptions.
Section Classes.
Context {rt : Runtime}.

Local Abbreviation Value := (JsValue number).

(** The classes of exceptions.ts. Each of the ten subclasses extends
    [LicenseChainException] directly, which extends [Error]. *)
Inductive ErrorClass : Type :=
| LicenseChainException
| AuthenticationError
| ValidationError
| NotFoundError
| RateLimitError
| ServerError
| NetworkError
| WebhookVerificationError
| LicenseValidationError
| ConfigurationError
| TimeoutError.

#[global] Instance ErrorClass_eq_dec : EqDecision ErrorClass.
Proof. solve_decision. Defined.

(** An instance: its class and the properties the constructors set. The
    four rate-limit properties read as [undefined] on the other classes. *)
Record Exception : Type := mkException {
  class : ErrorClass;
  name : string;
  message : string;
  code : Value;
  statusCode : option Z;
  details : Value;
  retryAfter : Value;
  limit : Value;
  remaining : Value;
  reset : Value
}.

(** [this.name], as each constructor sets it. *)
Definition class_name (c : ErrorClass) : string :=
  match c with
  | LicenseChainException => "LicenseChainException"
  | AuthenticationError => "AuthenticationError"
  | ValidationError => "ValidationError"
  | NotFoundError => "NotFoundError"
  | RateLimitError => "RateLimitError"
  | ServerError => "ServerError"
  | NetworkError => "NetworkError"
  | WebhookVerificationError => "WebhookVerificationError"
  | LicenseValidationError => "LicenseValidationError"
  | ConfigurationError => "ConfigurationError"
  | TimeoutError => "TimeoutError"
  end.

(** The default of the [message] parameter of each constructor. *)
Definition default_message (c : ErrorClass) : string :=
  match c with
  | LicenseChainException => "LicenseChain error occurred"
  | AuthenticationError => "Authentication failed"
  | ValidationError => "Validation failed"
  | NotFoundError => "Resource not found"
  | RateLimitError => "Rate limit exceeded"
  | ServerError => "Server error"
  | NetworkError => "Network error"
  | WebhookVerificationError => "Webhook verification failed"
  | LicenseValidationError => "License validation failed"
  | ConfigurationError => "Configuration error"
  | TimeoutError => "Request timeout"
  end.

(** The string conversion of the platform, which [Error] applies to a
    message that is not [undefined]. *)
Variable ToString : Value -> string.

(** [new C(message, code, statusCode, details)]: a default parameter
    stands in for an argument that is [undefined]; the rate-limit
    parameters of [RateLimitError] are not passed by any caller in the
    sources and stay [undefined]. *)
Definition message_text (c : ErrorClass) (message : Value) : string :=
  match message with
  | JUndefined => default_message c
  | JString s => s
  | _ => ToString message
  end.

Definition construct (c : ErrorClass) (message code : Value) (statusCode : option Z)
    (details : Value) : Exception :=
  mkException c (class_name c) (message_text c message)
    code statusCode details JUndefined JUndefined JUndefined JUndefined.

(** [error instanceof C] for an instance of one of the classes. *)
Definition instanceof (e : Exception) (c : ErrorClass) : bool :=
  bool_decide (c = LicenseChainException) || bool_decide (class e = c).

(** A caught value: an instance of one of the classes, or anything else. *)
Inductive Caught : Type :=
| Instance (e : Exception)
| Foreign (thrown : JsThrown).

(** [createErrorFromResponse]. The status code is the integer of the HTTP
    response. *)
Definition createErrorFromResponse (status : Z) (message code details : Value) : Exception :=
  let statusCode := Some status in
  if (status =? 400)%Z then construct ValidationError message code statusCode details
  else if (status =? 401)%Z || (status =? 403)%Z then
    construct AuthenticationError message code statusCode details
  else if (status =? 404)%Z then construct NotFoundError message code statusCode details
  else if (status =? 429)%Z then construct RateLimitError message code statusCode details
  else if (status =? 408)%Z then construct TimeoutError message code statusCode details
  else if (status =? 500)%Z || (status =? 502)%Z || (status =? 503)%Z || (status =? 504)%Z then
    construct ServerError message code statusCode details
  else if (400 <=? status)%Z && (status <? 500)%Z then
    construct ValidationError message code statusCode details
  else if (500 <=? status)%Z then construct ServerError message code statusCode details
  else construct LicenseChainException message code statusCode details.

Definition isLicenseChainError (error : Caught) : bool :=
  match error with
  | Instance e => instanceof e LicenseChainException
  | Foreign _ => false
  end.

Definition isRetryableError (error : Caught) : bool :=
  if negb (isLicenseChainError error) then false
  else
    match error with
    | Instance e =>
        instanceof e NetworkError || instanceof e ServerError
        || instanceof e RateLimitError || instanceof e TimeoutError
    | Foreign _ => false
    end.

End Classes.
End Exceptions.

(** ** client.ts: configuration and the retry interceptor *)

Module Client.

(** An optional property of an object literal the caller writes: left out,
    written with the value [undefined], or given. *)
Inductive Opt (A : Type) : Type :=
| Absent
| Undefined
| Given (a : A).
Arguments Absent {A}.
Arguments Undefined {A}.
Arguments Given {A} a.

(** What reading the property gives: [None] is [undefined]. *)
Definition read {A} (o : Opt A) : option A :=
  match o with
  | Given a => Some a
  | _ => None
  end.

(** The property after [{ ...{name: current}, ...{name: given} }]. *)
Definition overwrite {A} (current : option A) (given : Opt A) : option A :=
  match given with
  | Absent => current
  | Undefined => None
  | Given a => Some a
  end.

(** [interface LicenseChainConfig], as a caller passes it (to the
    constructor, or partially to [updateConfig]). The numbers of the
    configuration are taken to be integers. *)
Record LicenseChainConfig : Type := mkConfig {
  apiKey : Opt string;
  baseUrl : Opt string;
  timeout : Opt Z;
  retryAttempts : Opt Z;
  retryDelay : Opt Z
}.

(** [this.config]: every property read, [None] for [undefined]. *)
Record StoredConfig : Type := mkStored {
  stored_apiKey : option string;
  stored_baseUrl : option string;
  stored_timeout : option Z;
  stored_retryAttempts : option Z;
  stored_retryDelay : option Z
}.

(** The defaults of the axios instance the client reads and writes. *)
Record AxiosDefaults : Type := mkAxios {
  header_Authorization : string;
  axios_baseURL : option string;
  axios_timeout : option Z
}.

Record LicenseChainClient : Type := mkClient {
  config : StoredConfig;
  axiosInstance : AxiosDefaults
}.

Definition truthy_string (s : option string) : bool :=
  match s with
  | Some s => negb (String.eqb s "")
  | None => false
  end.

Definition truthy_number (n : option Z) : bool :=
  match n with
  | Some n => negb (n =? 0)%Z
  | None => false
  end.

(** The template literal [`Bearer ${key}`]. *)
Definition bearer (key : option string) : string :=
  "Bearer " ++ match key with Some k => k | None => "undefined" end.

Section WithRuntime.
Context {rt : Runtime}.

Local Abbreviation Value := (JsValue number).

Variable ToString : Value -> string.

(** What a rejected call of the client rejects with, and what a fulfilled
    one gives ([response.data]). *)
Inductive Response : Type :=
| Fulfilled (data : Value)
| Rejected (e : Exceptions.Exception).

(** [new LicenseChainClient(config)]. *)
Definition LicenseChainClient_new (given : LicenseChainConfig)
  : Exceptions.Exception + LicenseChainClient :=
  if negb (truthy_string (read (apiKey given))) then
    inl (Exceptions.construct ToString Exceptions.LicenseChainException
           (JString "API key is required") JUndefined None JUndefined)
  else
    let stored :=
      mkStored (read (apiKey given))
        (overwrite (Some "https://api.licensechain.app") (baseUrl given))
        (overwrite (Some 30000%Z) (timeout given))
        (overwrite (Some 3%Z) (retryAttempts given))
        (overwrite (Some 1000%Z) (retryDelay given)) in
    inr (mkClient stored
           (mkAxios (bearer (stored_apiKey stored)) (stored_baseUrl stored)
              (stored_timeout stored))).

Definition updateConfig (this : LicenseChainClient) (newConfig : LicenseChainConfig)
  : LicenseChainClient :=
  let stored :=
    mkStored (overwrite (stored_apiKey (config this)) (apiKey newConfig))
      (overwrite (stored_baseUrl (config this)) (baseUrl newConfig))
      (overwrite (stored_timeout (config this)) (timeout newConfig))
      (overwrite (stored_retryAttempts (config this)) (retryAttempts newConfig))
      (overwrite (stored_retryDelay (config this)) (retryDelay newConfig)) in
  let axios := axiosInstance this in
  let axios :=
    if truthy_string (read (apiKey newConfig)) then
      mkAxios (bearer (read (apiKey newConfig))) (axios_baseURL axios) (axios_timeout axios)
    else axios in
  let axios :=
    if truthy_string (read (baseUrl newConfig)) then
      mkAxios (header_Authorization axios) (read (baseUrl newConfig)) (axios_timeout axios)
    else axios in
  let axios :=
    if truthy_number (read (timeout newConfig)) then
      mkAxios (header_Authorization axios) (axios_baseURL axios) (read (timeout newConfig))
    else axios in
  mkClient stored axios.

Definition getConfig (this : LicenseChainClient) : StoredConfig := config this.

(** The axios instance sends what the configuration says. *)
Definition in_step (this : LicenseChainClient) : Prop :=
  header_Authorization (axiosInstance this) = bearer (stored_apiKey (config this)) /\
  axios_baseURL (axiosInstance this) = stored_baseUrl (config this) /\
  axios_timeout (axiosInstance this) = stored_timeout (config this).

(** How a request fails in the response interceptor: with a response
    ([error.response], its status and body), without one but sent
    ([error.request]), or before it was sent. [message] and [code] are
    those of the axios error. *)
Inductive Failure : Type :=
| HttpFailure (status : Z) (data : Value) (message : string)
| NoResponse (message : string) (code : Value)
| NotSent (message : string).

Inductive Reply : Type :=
| Replied (data : Value)
| Failed (f : Failure).

(** [data?.name]. *)
Definition optional_field (data : Value) (name : string) : Value :=
  match data with
  | JObject fields => default JUndefined (fields !! name)
  | _ => JUndefined
  end.

(** [a || b] on values. *)
Definition value_or (a b : Value) : Value := if truthy a then a else b.

(** The error the interceptor builds from a response. *)
Definition response_error (status : Z) (data : Value) (message : string)
  : Exceptions.Exception :=
  Exceptions.createErrorFromResponse ToString status
    (value_or (optional_field data "error") (JString message))
    (optional_field data "code") (optional_field data "details").

(** The condition of the first [if] of the interceptor. *)
Definition retryable (f : Failure) : bool :=
  match f with
  | HttpFailure status data message =>
      Exceptions.isRetryableError (Exceptions.Instance (response_error status data message))
  | _ => false
  end.

(** What the interceptor throws when it does not retry. *)
Definition failure_error (f : Failure) : Exceptions.Exception :=
  match f with
  | HttpFailure status data message => response_error status data message
  | NoResponse message code =>
      Exceptions.construct ToString Exceptions.LicenseChainException
        (JString "Network error") (JString "NETWORK_ERROR") None
        (JObject (<["message" := JString message]> (<["code" := code]> ∅)))
  | NotSent message =>
      Exceptions.construct ToString Exceptions.LicenseChainException
        (JString "Request error") (JString "REQUEST_ERROR") None
        (JObject (<["message" := JString message]> ∅))
  end.

(** [originalRequest._retryCount < this.config.retryAttempts]: false when
    the configured value is [undefined]. *)
Definition may_retry (this : LicenseChainClient) (retryCount : Z) : bool :=
  match stored_retryAttempts (config this) with
  | Some attempts => (retryCount <? attempts)%Z
  | None => false
  end.

(** [this.config.retryDelay * Math.pow(2, retryCount - 1)], in
    milliseconds; [None] is [NaN]. *)
Definition backoff (this : LicenseChainClient) (retryCount : Z) : option Z :=
  (fun delay => delay * 2 ^ (retryCount - 1))%Z <$> stored_retryDelay (config this).

(** A request through the axios instance. [transport n] is what the
    [n]-th request sent meets; [sent] requests went before and
    [retryCount] is the [_retryCount] of the request configuration, which
    every retry carries on. The result comes with the waits before each
    retry. [fuel] bounds the number of retries. *)
Fixpoint request (this : LicenseChainClient) (transport : nat -> Reply)
    (fuel sent : nat) (retryCount : Z) : option (Response * list (option Z)) :=
  match transport sent with
  | Replied data => Some (Fulfilled data, [])
  | Failed f =>
      if retryable f && may_retry this retryCount then
        match fuel with
        | O => None
        | S fuel' =>
            let retryCount' := (retryCount + 1)%Z in
            match request this transport fuel' (S sent) retryCount' with
            | Some (response, waits) => Some (response, backoff this retryCount' :: waits)
            | None => None
            end
        end
      else Some (Rejected (failure_error f), [])
  end.

(** A call of a client method, such as [validateLicense]: a fresh request
    configuration, [_retryCount] not set and read as [0]. *)
Definition call (this : LicenseChainClient) (transport : nat -> Reply)
  : option (Response * list (option Z)) :=
  request this transport
    (Z.to_nat (default 0%Z (stored_retryAttempts (config this)))) 0 0.

End WithRuntime.
End Client.

(** ** license-validator.ts *)

Module Validator.
Section WithRuntime.
Context {rt : Runtime}.

Local Abbreviation Value := (JsValue number).

(** How the call [this.client.validateLicense(licenseKey, appId)] settles:
    fulfilled with [response.data], or rejected with what was thrown. *)
Inductive ClientOutcome : Type :=
| Fulfilled (data : Value)
| Rejected (error : Exceptions.Caught).

(** [error instanceof Error ? error.message : 'Unknown error']. *)
Definition caught_message (error : Exceptions.Caught) : string :=
  match error with
  | Exceptions.Instance e => Exceptions.message e
  | Exceptions.Foreign (ErrorObject _ message) => message
  | Exceptions.Foreign (NonError _) => "Unknown error"
  end.

(** [validateLicense]: it never rejects. *)
Definition validateLicense (settled : ClientOutcome) : Value :=
  match settled with
  | Fulfilled result => result
  | Rejected error =>
      JObject (<["valid" := JBool false]> (
               <["error" := JString (caught_message error)]> ∅))
  end.

Definition isValid (settled : ClientOutcome) : Value :=
  match (result ← Return (validateLicense settled);
         get_field result "valid") with
  | Return v => v
  | Throw _ => JBool false
  end.

Definition getLicenseInfo (settled : ClientOutcome) : Value :=
  match (result ← Return (validateLicense settled);
         valid ← get_field result "valid";
         Return (if truthy valid then result else JNull)) with
  | Return v => v
  | Throw _ => JNull
  end.

(** [new Date(a) < new Date()]: a comparison with [NaN] is false. *)
Definition date_before (a : option Z) (b : Z) : bool :=
  match a with
  | Some t => (t <? b)%Z
  | None => false
  end.

Definition isExpired (settled : ClientOutcome) : bool :=
  match (result ← Return (validateLicense settled);
         valid ← get_field result "valid";
         if negb (truthy valid) then Return true
         else
           license ← get_field result "license";
           if negb (truthy license) then Return true
           else
             expiresAt ← get_field license "expiresAt";
             if negb (truthy expiresAt) then Return false
             else Return (date_before (Date_getTime expiresAt) Date_now)) with
  | Return b => b
  | Throw _ => true
  end.

(** The result of [getDaysUntilExpiration]: [null], or a number that may
    be [NaN]. *)
Inductive Days : Type :=
| DaysNull
| DaysNaN
| DaysNumber (days : Z).

(** [Math.max(0, Math.ceil(diffTime / (1000 * 60 * 60 * 24)))]. *)
Definition days_left (expires : option Z) (now : Z) : Days :=
  match expires with
  | Some t =>
      let diffTime := (t - now)%Z in
      let diffDays := Qceiling (inject_Z diffTime / inject_Z (1000 * 60 * 60 * 24)) in
      DaysNumber (Z.max 0 diffDays)
  | None => DaysNaN
  end.

Definition getDaysUntilExpiration (settled : ClientOutcome) : Days :=
  match (result ← Return (validateLicense settled);
         valid ← get_field result "valid";
         if negb (truthy valid) then Return DaysNull
         else
           license ← get_field result "license";
           if negb (truthy license) then Return DaysNull
           else
             expiresAt ← get_field license "expiresAt";
             if negb (truthy expiresAt) then Return DaysNull
             else Return (days_left (Date_getTime expiresAt) Date_now)) with
  | Return days => days
  | Throw _ => DaysNull
  end.

(** *** validateWithRules *)

(** [interface LicenseValidationRules], as the caller passes it: [None]
    is a property left out. *)
Record LicenseValidationRules : Type := mkRules {
  maxUsage : option Z;
  allowedFeatures : option (list string);
  requiredFeatures : option (list string);
  maxConcurrentUsers : option Z;
  allowedDomains : option (list string);
  allowedIPs : option (list string)
}.

(** The conversions of the platform: to a string, as template literals and
    [join] apply it, and to a number ([None] is [NaN]), as [>] applies it
    to an operand that is compared with a number. *)
Variable ToString : Value -> string.
Variable ToNumber : Value -> option Q.
(** The message of the [TypeError] of calling a method a value lacks. *)
Variable not_a_function : Value -> string -> string.

(** [v?.name]. *)
Definition optional (v : Value) (name : string) : Outcome Value :=
  if nullish v then Return JUndefined else get_field v name.

(** [usageCount > maxUsage]. *)
Definition greater_than (usageCount : Value) (maxUsage : Z) : bool :=
  match ToNumber usageCount with
  | Some n => negb (Qle_bool n (inject_Z maxUsage))
  | None => false
  end.

(** [list.includes(v)] for a list of strings of the rules. *)
Definition rule_includes (allowed : list string) (v : Value) : bool :=
  match v with
  | JString s => bool_decide (s ∈ allowed)
  | _ => false
  end.

(** [features.filter(feature => !allowed.includes(feature))]. *)
Definition filter_not_allowed (features : Value) (allowed : list string)
  : Outcome (list Value) :=
  match features with
  | JArray items => Return (List.filter (fun feature => negb (rule_includes allowed feature)) items)
  | _ => Throw (TypeError (not_a_function features "filter"))
  end.

(** [features.includes(feature)] for a string [feature]: membership in an
    array, a substring test on a string. *)
Definition features_include (features : Value) (feature : string) : Outcome bool :=
  match features with
  | JArray items =>
      Return (existsb (fun item => match item with
                                   | JString s => String.eqb s feature
                                   | _ => false
                                   end) items)
  | JString s => Return (includes s feature)
  | _ => Throw (TypeError (not_a_function features "includes"))
  end.

(** [hasFeature]: [result.valid && result.license?.features?.includes(feature)
    || false], in a [try] whose [catch] answers false. *)
Definition hasFeature (settled : ClientOutcome) (feature : string) : bool :=
  match (result ← Return (validateLicense settled);
         valid ← get_field result "valid";
         if negb (truthy valid) then Return false
         else
           license ← get_field result "license";
           features ← optional license "features";
           if nullish features then Return false
           else features_include features feature) with
  | Return b => b
  | Throw _ => false
  end.

(** [required.filter(feature => !features.includes(feature))]. *)
Fixpoint filter_missing (features : Value) (required : list string) : Outcome (list string) :=
  match required with
  | [] => Return []
  | feature :: rest =>
      present ← features_include features feature;
      missing ← filter_missing features rest;
      Return (if present : bool then missing else (feature :: missing)%list)
  end.

(** The text [join] gives an element. *)
Definition element_text (v : Value) : string :=
  match v with
  | JUndefined | JNull => ""
  | JString s => s
  | _ => ToString v
  end.

(** [items.join(', ')]. *)
Fixpoint join (items : list string) : string :=
  match items with
  | [] => ""
  | [item] => item
  | item :: rest => item ++ ", " ++ join rest
  end.

(** [`${v}`]. *)
Definition template_text (v : Value) : string :=
  match v with
  | JString s => s
  | _ => ToString v
  end.

(** [{ ...result, valid: false, error }]. *)
Definition refused (result : Value) (error : string) : Value :=
  JObject (<["error" := JString error]> (<["valid" := JBool false]> (own_properties result))).

Definition truthy_rule (n : option Z) : bool :=
  match n with
  | Some n => negb (n =? 0)%Z
  | None => false
  end.

(** Each rule gives the error it refuses the license with, if it does. *)
Definition usage_rule (rules : LicenseValidationRules) (license : Value)
  : Outcome (option string) :=
  if truthy_rule (maxUsage rules) then
    usageCount ← optional license "usageCount";
    if truthy usageCount && greater_than usageCount (default 0%Z (maxUsage rules)) then
      Return (Some "Usage limit exceeded")
    else Return None
  else Return None.

Definition allowed_features_rule (rules : LicenseValidationRules) (license : Value)
  : Outcome (option string) :=
  match allowedFeatures rules with
  | Some allowed =>
      features ← optional license "features";
      if truthy features then
        invalidFeatures ← filter_not_allowed features allowed;
        if (0 <? length invalidFeatures)%nat then
          Return (Some ("Invalid features: " ++ join (element_text <$> invalidFeatures)))
        else Return None
      else Return None
  | None => Return None
  end.

Definition required_features_rule (rules : LicenseValidationRules) (license : Value)
  : Outcome (option string) :=
  match requiredFeatures rules with
  | Some required =>
      features ← optional license "features";
      if truthy features then
        missingFeatures ← filter_missing features required;
        if (0 <? length missingFeatures)%nat then
          Return (Some ("Missing required features: " ++ join missingFeatures))
        else Return None
      else Return None
  | None => Return None
  end.

(** The rules on [license.metadata.domain] and [license.metadata.ipAddress]. *)
Definition metadata_rule (allowed : option (list string)) (property label : string)
    (license : Value) : Outcome (option string) :=
  match allowed with
  | Some allowed =>
      metadata ← optional license "metadata";
      value ← optional metadata property;
      if truthy value then
        if negb (rule_includes allowed value) then
          Return (Some (label ++ template_text value))
        else Return None
      else Return None
  | None => Return None
  end.

(** The rules in the order the code applies them: the first error ends
    the function. *)
Fixpoint first_error (checks : list (Outcome (option string))) : Outcome (option string) :=
  match checks with
  | [] => Return None
  | check :: rest =>
      error ← check;
      match error with
      | Some e => Return (Some e)
      | None => first_error rest
      end
  end.

Definition validateWithRules (settled : ClientOutcome) (rules : option LicenseValidationRules)
  : Outcome Value :=
  let result := validateLicense settled in
  valid ← get_field result "valid";
  match rules with
  | Some rules =>
      if negb (truthy valid) then Return result
      else
        license ← get_field result "license";
        error ← first_error
                  [usage_rule rules license;
                   allowed_features_rule rules license;
                   required_features_rule rules license;
                   metadata_rule (allowedDomains rules) "domain" "Domain not allowed: " license;
                   metadata_rule (allowedIPs rules) "ipAddress" "IP address not allowed: "
                     license];
        match error with
        | Some e => Return (refused result e)
        | None => Return result
        end
  | None => Return result
  end.

(** [batchValidateWithRules] on one entry: [validateWithRules] when the
    entry has rules, [validateLicense] otherwise. *)
Definition batch_entry (settled : ClientOutcome) (rules : option LicenseValidationRules)
  : Outcome Value :=
  match rules with
  | Some _ => validateWithRules settled rules
  | None => Return (validateLicense settled)
  end.

(** A result the server calls valid, with a license that carries the
    expiry [expiresAt]. *)
Definition licensed (settled : ClientOutcome) (expiresAt : Value) : Prop :=
  exists result valid license,
    settled = Fulfilled result /\
    get_field result "valid" = Return valid /\ truthy valid = true /\
    get_field result "license" = Return license /\ truthy license = true /\
    get_field license "expiresAt" = Return expiresAt.

End WithRuntime.
End Validator.

(** Sample values for running the further properties. *)
Module Samples.

(** A caller's handler whose result sets [valid] itself. *)
Definition overriding : Handler (rt := Fixture.runtime) :=
  fun _ => Return (JObject (<["valid" := JBool false]> (<["note" := JString "seen"]> ∅))).

Definition overriding_fields : gmap string (JsValue Z) :=
  <["valid" := JBool false]> (<["note" := JString "seen"]> ∅).

Definition empty_event : WebhookEvent Z :=
  mkWebhookEvent JUndefined JUndefined JUndefined (JObject ∅).

Definition fresh_ordered : OrderedHandler (rt := Fixture.runtime) :=
  mkOrderedHandler Fixture.the_handler (setupDefaultKeys []).

(** Conversions to run the rules with: numbers convert to themselves,
    strings of the examples are not numeric. *)
Definition to_string (v : JsValue Z) : string :=
  match v with
  | JString s => s
  | JBool true => "true"
  | JBool false => "false"
  | JNull => "null"
  | JUndefined => "undefined"
  | JNumber n => pretty n
  | JArray _ => "[array]"
  | JObject _ => "[object Object]"
  end.

Definition to_number (v : JsValue Z) : option Q :=
  match v with
  | JNumber n => Some (inject_Z n)
  | JBool true => Some 1%Q
  | JBool false | JNull => Some 0%Q
  | _ => None
  end.

Definition no_method (v : JsValue Z) (method : string) : string :=
  method ++ " is not a function".

(** A client with the default configuration. *)
Definition the_client : Client.LicenseChainClient :=
  Client.mkClient
    (Client.mkStored (Some "key") (Some "https://api.licensechain.app")
       (Some 30000%Z) (Some 3%Z) (Some 1000%Z))
    (Client.mkAxios "Bearer key" (Some "https://api.licensechain.app") (Some 30000%Z)).

(** A transport that never gets a response. *)
Definition offline : nat -> Client.Reply (rt := Fixture.runtime) :=
  fun _ => Client.Failed (Client.NoResponse "timeout of 30000ms exceeded" (JString "ECONNABORTED")).

(** A transport that answers 503 twice and then 200. *)
Definition recovering : nat -> Client.Reply (rt := Fixture.runtime) :=
  fun n =>
    if (n <? 2)%nat then Client.Failed (Client.HttpFailure 503 JNull "Request failed with status code 503")
    else Client.Replied (JObject (<["valid" := JBool true]> ∅)).

(** A valid result: a license with two features, used 5 times, that
    expired 100 seconds ago. *)
Definition the_license : JsValue Z :=
  JObject (<["features" := JArray [JString "basic"; JString "export"]]> (
           <["usageCount" := JNumber 5%Z]> (
           <["expiresAt" := JString "2023-11-14T22:11:40.000Z"]> ∅))).

Definition the_result : JsValue Z :=
  JObject (<["valid" := JBool true]> (<["license" := the_license]> ∅)).

(** A valid result whose license is empty. *)
Definition bare_result : JsValue Z :=
  JObject (<["valid" := JBool true]> (<["license" := JObject ∅]> ∅)).

Definition settled (result : JsValue Z) : Validator.ClientOutcome (rt := Fixture.runtime) :=
  Validator.Fulfilled (rt := Fixture.runtime) result.

End Samples.

(** ** Strings and the constant-time comparison *)

Section StringFacts.

Lemma toLowerCase_length s : String.length (toLowerCase s) = String.length s.
Proof. induction s as [|c s IH]; simpl; [done | by rewrite IH]. Qed.

Lemma string_app_length (a b : string) :
  String.length (a ++ b) = (String.length a + String.length b)%nat.
Proof. induction a as [|c a IH]; simpl; [done | by rewrite IH]. Qed.

Lemma string_app_cancel_l (p a b : string) : p ++ a = p ++ b -> a = b.
Proof. induction p as [|c p IH]; simpl; intros H; [done|]. injection H as H. auto. Qed.

(** Equal suffixes after prefixes of one length: the prefixes agree. *)
Lemma string_app_cancel_r (a b x y : string) :
  String.length a = String.length b -> a ++ x = b ++ y -> a = b /\ x = y.
Proof.
  revert b. induction a as [|c a IH]; intros [|d b] Hlen H; simpl in *; try discriminate.
  - done.
  - injection H as -> H. injection Hlen as Hlen.
    destruct (IH b Hlen H) as [-> ->]. done.
Qed.

Lemma string_eqb_empty (s : string) : String.eqb s "" = true <-> s = "".
Proof. apply String.eqb_eq. Qed.

Lemma charCodeAt_head c s : charCodeAt (String c s) 0 = Z.of_N (N_of_ascii c).
Proof. reflexivity. Qed.

Lemma charCodeAt_tail c s i : charCodeAt (String c s) (S i) = charCodeAt s i.
Proof. reflexivity. Qed.

Lemma char_code_inj (c d : ascii) : Z.of_N (N_of_ascii c) = Z.of_N (N_of_ascii d) -> c = d.
Proof.
  intros H. apply N2Z.inj in H.
  rewrite <- (ascii_N_embedding c), <- (ascii_N_embedding d). congruence.
Qed.

(** Two strings of one length with the same code at every index are equal. *)
Lemma charCodeAt_ext (a b : string) :
  String.length a = String.length b ->
  (forall i, (i < String.length a)%nat -> charCodeAt a i = charCodeAt b i) ->
  a = b.
Proof.
  revert b. induction a as [|c a IH]; intros [|d b] Hlen H; simpl in *; try discriminate.
  - done.
  - f_equal.
    + apply char_code_inj. apply (H 0%nat). lia.
    + apply IH; [lia|]. intros i Hi. apply (H (S i)). lia.
Qed.

(** The accumulator of the loop ends at zero exactly when it starts at zero
    and no visited position differs. *)
Lemma secureCompare_loop_zero (a b : string) (steps i : nat) (result : Z) :
  secureCompare_loop a b i steps result = 0%Z <->
  result = 0%Z /\
  forall j, (i <= j < i + steps)%nat -> charCodeAt a j = charCodeAt b j.
Proof.
  revert i result. induction steps as [|steps IH]; intros i result; simpl.
  - split; [intros ->; split; [done | intros j Hj; lia] | tauto].
  - rewrite IH, Z.lor_eq_0_iff, Z.lxor_eq_0_iff. split.
    + intros [[-> Hi] Hrest]. split; [done|]. intros j Hj.
      destruct (decide (j = i)) as [->|Hne]; [done | apply Hrest; lia].
    + intros [-> H]. repeat split.
      * apply H. lia.
      * intros j Hj. apply H. lia.
Qed.

(** [secureCompare] is equality of non-empty strings. *)
Lemma secureCompare_true_iff (a b : string) :
  secureCompare a b = true <-> a = b /\ a <> "".
Proof.
  unfold secureCompare.
  destruct (String.eqb a "") eqn:Ha; simpl.
  { apply String.eqb_eq in Ha. split; [done | intros [_ H]; done]. }
  apply String.eqb_neq in Ha.
  destruct (String.eqb b "") eqn:Hb; simpl.
  { apply String.eqb_eq in Hb. split; [done | intros [-> H]; done]. }
  destruct (Nat.eqb_spec (String.length a) (String.length b)) as [Hlen|Hlen]; simpl.
  - rewrite Z.eqb_eq, secureCompare_loop_zero. split.
    + intros [_ H]. split; [|done]. apply charCodeAt_ext; [done|].
      intros i Hi. apply H. lia.
    + intros [-> _]. split; [done|]. done.
  - split; [done | intros [-> _]; done].
Qed.

Lemma secureCompare_false_iff (a b : string) :
  secureCompare a b = false <-> a <> b \/ a = "".
Proof.
  destruct (secureCompare a b) eqn:H.
  - apply secureCompare_true_iff in H as [-> Hne]. split; [done | intros [?|?]; done].
  - split; [|done]. intros _.
    destruct (decide (a = "")) as [->|Hne]; [by right|]. left. intros ->.
    assert (secureCompare b b = true) by (apply secureCompare_true_iff; done).
    congruence.
Qed.

End StringFacts.

(** ** Signatures *)

Section Signatures.
Context {rt : Runtime}.

Lemma alter_length (s : string) i c : String.length (alter s i c) = String.length s.
Proof.
  revert i. induction s as [|d s IH]; intros [|i]; simpl; try done. by rewrite IH.
Qed.

(** Replacing a character by a different one changes the string. *)
Lemma alter_neq (s : string) i c :
  (i < String.length s)%nat -> String.get i s <> Some c -> alter s i c <> s.
Proof.
  revert i. induction s as [|d s IH]; intros [|i] Hi Hget; simpl in *; try lia.
  - intros H. injection H as ->. done.
  - intros H. injection H as H. revert H. apply IH; [lia | done].
Qed.

(** [generateSignature] by the digest its [switch] selects. *)
Lemma generateSignature_selected this payload algorithm :
  generateSignature this payload algorithm =
  match selected_digest algorithm with
  | Some digest => Return (algorithm ++ "=" ++ digest payload (secret this))
  | None => Throw (WebhookVerificationError ("Unsupported algorithm: " ++ algorithm))
  end.
Proof.
  unfold generateSignature, selected_digest; simpl.
  repeat (destruct (String.eqb _ _); [reflexivity|]). reflexivity.
Qed.

Lemma selected_digest_supported algorithm :
  In (toLowerCase algorithm) supported_algorithms <-> is_Some (selected_digest algorithm).
Proof.
  unfold selected_digest, supported_algorithms; simpl.
  destruct (String.eqb_spec (toLowerCase algorithm) "sha1") as [->|H1]; [split; eauto|].
  destruct (String.eqb_spec (toLowerCase algorithm) "sha256") as [->|H2]; [split; eauto|].
  destruct (String.eqb_spec (toLowerCase algorithm) "sha512") as [->|H3]; [split; eauto|].
  split; [intros [?|[?|[?|[]]]]; congruence | intros [? ?]; discriminate].
Qed.

(** A generated signature is never the empty string. *)
Lemma signature_nonempty (algorithm hash : string) :
  In (toLowerCase algorithm) supported_algorithms -> algorithm ++ "=" ++ hash <> "".
Proof.
  destruct algorithm; simpl; [|done].
  intros [H|[H|[H|[]]]]; discriminate.
Qed.

(** [verifySignature] never throws, and accepts exactly the non-empty
    signature that [generateSignature] produces. *)
Lemma verifySignature_spec this payload signature algorithm :
  verifySignature this payload signature algorithm =
  match generateSignature this payload algorithm with
  | Return expected => Return (secureCompare signature expected)
  | Throw _ => Return false
  end.
Proof.
  unfold verifySignature. destruct (generateSignature _ _ _); reflexivity.
Qed.

Lemma verifySignature_true_iff this payload signature algorithm :
  verifySignature this payload signature algorithm = Return true <->
  generateSignature this payload algorithm = Return signature /\ signature <> "".
Proof.
  rewrite verifySignature_spec.
  destruct (generateSignature this payload algorithm) as [expected|e].
  - split.
    + intros [= H]. apply secureCompare_true_iff in H as [-> Hne]. done.
    + intros [[= ->] Hne]. f_equal. apply secureCompare_true_iff. done.
  - split; [discriminate | intros [? _]; discriminate].
Qed.

End Signatures.

Section SignatureClaims.
Context {rt : Runtime}.

(** For every payload, every non-empty secret (one the constructor
    accepts) and every algorithm among sha1, sha256 and sha512,
    [generateSignature] returns a signature that [verifySignature] accepts
    for the same payload and algorithm; replacing any single character of
    that signature by a different one makes [verifySignature] return false;
    and the signature is accepted for another payload exactly when the
    digest of that payload is the digest of the original: the code compares
    the hex strings of the platform's HMAC and tells two payloads apart
    when, and only when, their digests differ. *)
Theorem generateSignature_round_trip (s payload algorithm : string) (this : WebhookVerifier) :
  WebhookVerifier_new s = Return this ->
  In algorithm supported_algorithms ->
  exists digest signature,
    selected_digest algorithm = Some digest /\
    generateSignature this payload algorithm = Return signature /\
    verifySignature this payload signature algorithm = Return true /\
    (forall i c,
        (i < String.length signature)%nat -> String.get i signature <> Some c ->
        verifySignature this payload (alter signature i c) algorithm = Return false) /\
    (forall payload',
        verifySignature this payload' signature algorithm = Return true <->
        digest payload' s = digest payload s).
Proof.
  intros Hnew Halg.
  assert (secret this = s) as Hsecret.
  { unfold WebhookVerifier_new in Hnew. destruct (String.eqb s ""); [discriminate|].
    injection Hnew as <-. reflexivity. }
  assert (In (toLowerCase algorithm) supported_algorithms) as Hlow.
  { destruct Halg as [<-|[<-|[<-|[]]]]; simpl; auto. }
  destruct (proj1 (selected_digest_supported algorithm) Hlow) as [digest Hsel].
  exists digest, (algorithm ++ "=" ++ digest payload s).
  assert (forall p, generateSignature this p algorithm
                    = Return (algorithm ++ "=" ++ digest p s)) as Hgen.
  { intros p. rewrite generateSignature_selected, Hsel, Hsecret. reflexivity. }
  split; [done|]. split; [done|]. split; [|split].
  - apply verifySignature_true_iff. split; [done|]. by apply signature_nonempty.
  - intros i c Hi Hget. rewrite verifySignature_spec, Hgen. f_equal.
    apply secureCompare_false_iff. left. by apply alter_neq.
  - intros payload'. rewrite verifySignature_true_iff, Hgen. split.
    + intros [[= H] _]. apply string_app_cancel_l in H.
      by apply (string_app_cancel_l "=") in H.
    + intros ->. split; [done|]. by apply signature_nonempty.
Qed.

(** C5. [verifySignature] never raises: it returns a boolean for every
    payload, signature and algorithm; the boolean is false when the
    signature is empty, when its length differs from the length of the
    expected signature, and when the algorithm is none of the three
    supported digests, in which case [generateSignature] raised and the
    error was absorbed. *)
Theorem C5_verifySignature_never_raises (this : WebhookVerifier)
    (payload signature algorithm : string) :
  exists b : bool,
    verifySignature this payload signature algorithm = Return b /\
    (signature = "" -> b = false) /\
    (forall expected,
        generateSignature this payload algorithm = Return expected ->
        String.length signature <> String.length expected -> b = false) /\
    (~ In (toLowerCase algorithm) supported_algorithms ->
     generateSignature this payload algorithm
       = Throw (WebhookVerificationError ("Unsupported algorithm: " ++ algorithm)) /\
     b = false).
Proof.
  rewrite verifySignature_spec.
  destruct (generateSignature this payload algorithm) as [expected|e] eqn:Hgen.
  - exists (secureCompare signature expected). split; [done|]. split; [|split].
    + intros ->. reflexivity.
    + intros expected' [= <-] Hlen. apply secureCompare_false_iff. left. congruence.
    + intros Hnot. exfalso. apply Hnot. apply selected_digest_supported.
      rewrite generateSignature_selected in Hgen.
      destruct (selected_digest algorithm); [eauto | discriminate].
  - exists false. split; [done|]. split; [done|]. split; [discriminate|].
    intros Hnot. split; [|done].
    rewrite generateSignature_selected in Hgen.
    destruct (selected_digest algorithm) eqn:Hsel; [discriminate | done].
Qed.

(** C10. [generateSignature] selects the digest by the lower-cased
    algorithm name and prefixes the signature with the name as the caller
    spelt it: for two different spellings of one supported algorithm and
    every payload, both signatures carry the same digest, they are
    different strings, and [verifySignature] called with one spelling
    returns false on the signature generated with the other. *)
Theorem C10_algorithm_spelling (this : WebhookVerifier) (payload a1 a2 : string) :
  a1 <> a2 ->
  toLowerCase a1 = toLowerCase a2 ->
  In (toLowerCase a1) supported_algorithms ->
  exists digest,
    selected_digest a1 = Some digest /\
    selected_digest a2 = Some digest /\
    generateSignature this payload a1 = Return (a1 ++ "=" ++ digest payload (secret this)) /\
    generateSignature this payload a2 = Return (a2 ++ "=" ++ digest payload (secret this)) /\
    a1 ++ "=" ++ digest payload (secret this) <> a2 ++ "=" ++ digest payload (secret this) /\
    verifySignature this payload (a2 ++ "=" ++ digest payload (secret this)) a1 = Return false /\
    verifySignature this payload (a1 ++ "=" ++ digest payload (secret this)) a2 = Return false.
Proof.
  intros Hne Hlow Hsup.
  destruct (proj1 (selected_digest_supported a1) Hsup) as [digest Hsel1].
  assert (selected_digest a2 = Some digest) as Hsel2.
  { unfold selected_digest in *. by rewrite <- Hlow. }
  assert (String.length a1 = String.length a2) as Hlen.
  { by rewrite <- (toLowerCase_length a1), Hlow, toLowerCase_length. }
  assert (forall x y, a1 ++ x <> a2 ++ y) as Hdiff.
  { intros x y H. by destruct (string_app_cancel_r _ _ _ _ Hlen H). }
  exists digest. split; [done|]. split; [done|].
  split; [by rewrite generateSignature_selected, Hsel1|].
  split; [by rewrite generateSignature_selected, Hsel2|].
  split; [apply Hdiff|]. split.
  - rewrite verifySignature_spec, generateSignature_selected, Hsel1. f_equal.
    apply secureCompare_false_iff. left. intros H. by apply (Hdiff _ _ (eq_sym H)).
  - rewrite verifySignature_spec, generateSignature_selected, Hsel2. f_equal.
    apply secureCompare_false_iff. left. apply Hdiff.
Qed.

End SignatureClaims.

(** ** Normalization and parsing *)

Section Parsing.
Context {rt : Runtime}.

Local Abbreviation Value := (JsValue number).
Local Abbreviation Event := (WebhookEvent number).

Lemma get_field_object (fields : gmap string Value) name :
  get_field (JObject fields) name = Return (field fields name).
Proof. reflexivity. Qed.

Lemma js_or_Return (a : Value) (b : Outcome Value) :
  js_or (Return a) b = if truthy a then Return a else b.
Proof. reflexivity. Qed.

(** On a value without properties the first read, of [id], throws. *)
Lemma extractEventData_nullish (data : Value) :
  nullish data = true ->
  extractEventData data = Throw (TypeError (TypeError_message data "id")).
Proof. destruct data; try discriminate; reflexivity. Qed.

Lemma extractEventData_object (fields : gmap string Value) :
  extractEventData (JObject fields) = Return (normalize_first_truthy fields).
Proof.
  unfold extractEventData, normalize_first_truthy, js_or, get_field. simpl.
  fold (field fields "id") (field fields "type") (field fields "event")
    (field fields "created_at") (field fields "createdAt")
    (field fields "data") (field fields "object").
  destruct (truthy (field fields "type")); simpl;
    destruct (truthy (field fields "created_at")); simpl;
    destruct (truthy (field fields "data")); simpl;
    destruct (truthy (field fields "object")); reflexivity.
Qed.

(** A value that is neither [undefined] nor [null] is normalized without
    error. *)
Lemma extractEventData_total (data : Value) :
  nullish data = false -> exists event, extractEventData data = Return event.
Proof.
  destruct data; try discriminate; intros _;
    try (eexists; reflexivity).
  eexists. apply extractEventData_object.
Qed.

(** Where no source that has a fallback holds a falsy value, the code's rule
    and the rule of the specification give the same event. *)
Lemma normalize_agree (fields : gmap string Value) :
  (forall name v, In name ["type"; "created_at"; "data"; "object"] ->
                  fields !! name = Some v -> truthy v = true) ->
  normalize_first_truthy fields = normalize_first_present fields.
Proof.
  intros Hall.
  assert (forall name, In name ["type"; "created_at"; "data"; "object"] ->
            forall other : Value,
              (if truthy (field fields name) then field fields name else other)
              = match fields !! name with Some v => v | None => other end) as Hrule.
  { intros name Hin other. unfold field.
    destruct (fields !! name) as [v|] eqn:Hv; simpl; [|done].
    by rewrite (Hall name v Hin Hv). }
  unfold normalize_first_truthy, normalize_first_present. simpl.
  rewrite !Hrule by (simpl; tauto).
  unfold field. f_equal.
Qed.

Lemma parsePayload_unverified this payload signature algorithm :
  verifySignature this payload signature algorithm <> Return true ->
  parsePayload this payload signature algorithm = (Throw WebhookVerificationFailed, []).
Proof.
  intros H. unfold parsePayload. rewrite verifySignature_spec in *.
  destruct (generateSignature this payload algorithm); [|reflexivity].
  destruct (secureCompare signature a); [done | reflexivity].
Qed.

Lemma parsePayload_verified this payload signature algorithm :
  verifySignature this payload signature algorithm = Return true ->
  parsePayload this payload signature algorithm =
  match JSON_parse payload with
  | inl message => (Throw (InvalidPayload (SyntaxError message)), [payload])
  | inr data =>
      match extractEventData data with
      | Return event => (Return event, [payload])
      | Throw cause => (Throw (InvalidPayload cause), [payload])
      end
  end.
Proof.
  intros H. unfold parsePayload. rewrite H. simpl. unfold traced_JSON_parse.
  destruct (JSON_parse payload) as [message|data]; simpl; [reflexivity|].
  destruct (extractEventData data); reflexivity.
Qed.

(** The payload reaches [JSON.parse] only after its signature verified. *)
Lemma parsePayload_trace this payload signature algorithm :
  snd (parsePayload this payload signature algorithm) =
  match verifySignature this payload signature algorithm with
  | Return true => [payload]
  | _ => []
  end.
Proof.
  destruct (verifySignature this payload signature algorithm) as [[|]|e] eqn:H.
  - rewrite parsePayload_verified by done.
    destruct (JSON_parse payload); [reflexivity|]. destruct (extractEventData _); reflexivity.
  - rewrite parsePayload_unverified; [reflexivity | congruence].
  - rewrite parsePayload_unverified; [reflexivity | congruence].
Qed.

End Parsing.

Section ParsingClaims.
Context {rt : Runtime}.

Local Abbreviation Value := (JsValue number).

(** C1 (amended). For every payload, signature and algorithm:
    when the signature does not verify, [parsePayload] signals
    WebhookVerificationFailed and [JSON.parse] is not called, whatever the
    payload holds; when the signature verifies and [JSON.parse] fails, it
    signals InvalidPayload carrying the parse error; when the signature
    verifies and the payload deserializes to [null] (or [undefined]), it
    signals InvalidPayload as well, carrying the TypeError of the first
    field read; in every other case it returns the normalized event, the
    payload having been parsed once. *)
Theorem C1_parsePayload_outcomes (this : WebhookVerifier)
    (payload signature algorithm : string) :
  (verifySignature this payload signature algorithm <> Return true ->
   parsePayload this payload signature algorithm = (Throw WebhookVerificationFailed, [])) /\
  (verifySignature this payload signature algorithm = Return true ->
   (forall message, JSON_parse payload = inl message ->
      parsePayload this payload signature algorithm
      = (Throw (InvalidPayload (SyntaxError message)), [payload])) /\
   (forall data, JSON_parse payload = inr data -> nullish data = true ->
      parsePayload this payload signature algorithm
      = (Throw (InvalidPayload (TypeError (TypeError_message data "id"))), [payload])) /\
   (forall data, JSON_parse payload = inr data -> nullish data = false ->
      exists event,
        extractEventData data = Return event /\
        parsePayload this payload signature algorithm = (Return event, [payload]))).
Proof.
  split; [apply parsePayload_unverified|].
  intros Hok. rewrite (parsePayload_verified _ _ _ _ Hok). repeat split.
  - intros message ->. reflexivity.
  - intros data -> Hnull. by rewrite extractEventData_nullish.
  - intros data -> Hnull. destruct (extractEventData_total data Hnull) as [event Hev].
    exists event. by rewrite Hev.
Qed.

(** C9 (amended). For every raw JSON payload object, [extractEventData]
    returns the event whose [id] is the [id] field and whose other fields
    are taken from the first truthy source in priority order, the last
    alternative standing when none before it is truthy: [type] then [event];
    [created_at] then [createdAt]; [data] then [object] then the empty
    mapping. This is the first non-absent source whenever no present value
    of [type], [created_at], [data] or [object] is falsy. *)
Theorem C9_extractEventData_first_truthy (fields : gmap string Value) :
  extractEventData (JObject fields) = Return (normalize_first_truthy fields) /\
  ((forall name v, In name ["type"; "created_at"; "data"; "object"] ->
                   fields !! name = Some v -> truthy v = true) ->
   normalize_first_truthy fields = normalize_first_present fields).
Proof. split; [apply extractEventData_object | apply normalize_agree]. Qed.

End ParsingClaims.

(** C1, as stated, fails on the payload [null] signed by the sender: the
    signature verifies and [JSON.parse] succeeds, yet no event is returned. *)
Lemma C1_counterexample_null_payload :
  verifySignature (rt := Fixture.runtime) Fixture.the_verifier "null" (Fixture.sign "null") "sha256"
    = Return true /\
  JSON_parse (Runtime := Fixture.runtime) "null" = inr JNull /\
  parsePayload (rt := Fixture.runtime) Fixture.the_verifier "null" (Fixture.sign "null") "sha256"
    = (Throw (InvalidPayload
                (TypeError "Cannot read properties of null (reading 'id')")), ["null"]).
Proof. repeat split. Qed.

(** C9, as stated, fails on the object with [type] empty and [event] set to
    x: the [type] field is present, and the event takes its type from
    [event]. *)
Lemma C9_counterexample_empty_type :
  Fixture.empty_type_fields !! "type" = Some (JString "") /\
  event_type (normalize_first_present (rt := Fixture.runtime) Fixture.empty_type_fields)
    = JString "" /\
  extractEventData (rt := Fixture.runtime) (JObject Fixture.empty_type_fields)
    = Return (mkWebhookEvent JUndefined (JString "x") JUndefined (JObject ∅)).
Proof. repeat split. Qed.

(** ** The double arithmetic of the timestamp check

    The operations on [float] are specified by the functions of
    [SpecFloat] on sign, mantissa and exponent. What the check needs of
    them is proved here from those functions: integers below [2 ^ 53] and
    their differences are exact, rounding never lowers the exponent that the
    number of digits asks for, and at the tolerance of 300 seconds the
    computed comparison is the exact one. *)

Section DoubleFacts.
Import SpecFloat FloatOps FloatAxioms Doubles.
Local Open Scope Z_scope.

Lemma digits2_pos_bounds (p : positive) :
  2 ^ (Zpos (digits2_pos p) - 1) <= Zpos p < 2 ^ Zpos (digits2_pos p).
Proof.
  induction p as [p IH|p IH|]; cbn [digits2_pos].
  - rewrite Pos2Z.inj_succ, Z.pow_succ_r by lia.
    replace (Z.succ (Zpos (digits2_pos p)) - 1) with (Z.succ (Zpos (digits2_pos p) - 1)) by lia.
    rewrite Z.pow_succ_r by lia. lia.
  - rewrite Pos2Z.inj_succ, Z.pow_succ_r by lia.
    replace (Z.succ (Zpos (digits2_pos p)) - 1) with (Z.succ (Zpos (digits2_pos p) - 1)) by lia.
    rewrite Z.pow_succ_r by lia. lia.
  - simpl. lia.
Qed.

Lemma digits2_pos_unique (p : positive) (d : Z) :
  2 ^ (d - 1) <= Zpos p < 2 ^ d -> Zpos (digits2_pos p) = d.
Proof.
  intros [Hlo Hhi]. pose proof (digits2_pos_bounds p) as [Hlo' Hhi'].
  destruct (Z.lt_trichotomy (Zpos (digits2_pos p)) d) as [H|[H|H]]; [|done|].
  - exfalso. assert (2 ^ Zpos (digits2_pos p) <= 2 ^ (d - 1)) by (apply Z.pow_le_mono_r; lia). lia.
  - exfalso. assert (0 <= d \/ d < 0) as [Hd|Hd] by lia.
    + assert (2 ^ d <= 2 ^ (Zpos (digits2_pos p) - 1)) by (apply Z.pow_le_mono_r; lia). lia.
    + rewrite (Z.pow_neg_r 2 d) in Hhi by lia. lia.
Qed.

Lemma digits2_pos_shift (p : positive) (k : Z) :
  0 <= k -> Zdigits2 (Zpos p * 2 ^ k) = Zpos (digits2_pos p) + k.
Proof.
  intros Hk. pose proof (digits2_pos_bounds p) as [Hlo Hhi].
  assert (0 < 2 ^ k) by (apply Z.pow_pos_nonneg; lia).
  destruct (Zpos p * 2 ^ k) as [|q|q] eqn:Hq; try lia.
  cbn [Zdigits2]. apply digits2_pos_unique. rewrite <- Hq.
  replace (Zpos (digits2_pos p) + k - 1) with ((Zpos (digits2_pos p) - 1) + k) by lia.
  rewrite !Z.pow_add_r by lia. nia.
Qed.

Lemma pow2_xO (n : positive) : 2 ^ Zpos n~0 = 2 ^ Zpos n * 2 ^ Zpos n.
Proof. rewrite (Pos2Z.inj_xO n), Z.pow_twice_r. reflexivity. Qed.

Lemma pow2_xI (n : positive) : 2 ^ Zpos n~1 = 2 * (2 ^ Zpos n * 2 ^ Zpos n).
Proof. rewrite (Pos2Z.inj_xI n), Z.pow_add_r, Z.pow_twice_r by lia. lia. Qed.

(** *** Shifting *)

Lemma shr_1_m (mrs : shr_record) :
  0 <= shr_m mrs -> shr_m (shr_1 mrs) = shr_m mrs / 2.
Proof.
  destruct mrs as [m r s]. cbn [shr_m]. intros Hm. unfold shr_1.
  destruct m as [|[p|p|]|p]; cbn [shr_m]; try lia.
  all: first [ reflexivity
             | apply (Z.div_unique_pos _ _ _ 1); lia
             | apply (Z.div_unique_pos _ _ _ 0); lia ].
Qed.

Lemma iter_pos_shr_m (n : positive) (mrs : shr_record) :
  0 <= shr_m mrs -> shr_m (iter_pos shr_1 n mrs) = shr_m mrs / 2 ^ Zpos n.
Proof.
  revert mrs. induction n as [n IH|n IH|]; intros mrs Hm; cbn [iter_pos].
  - assert (0 <= shr_m (shr_1 mrs)) as H1 by (rewrite shr_1_m by done; apply Z.div_pos; lia).
    assert (0 <= shr_m (iter_pos shr_1 n (shr_1 mrs))) as H2
        by (rewrite IH by done; apply Z.div_pos; [done | apply Z.pow_pos_nonneg; lia]).
    rewrite IH, IH, shr_1_m by done.
    assert (0 < 2 ^ Zpos n) by (apply Z.pow_pos_nonneg; lia).
    rewrite !Z.div_div by lia. f_equal. rewrite pow2_xI. lia.
  - assert (0 <= shr_m (iter_pos shr_1 n mrs)) as H2
        by (rewrite IH by done; apply Z.div_pos; [done | apply Z.pow_pos_nonneg; lia]).
    rewrite IH, IH by done.
    assert (0 < 2 ^ Zpos n) by (apply Z.pow_pos_nonneg; lia).
    rewrite !Z.div_div by lia. f_equal. rewrite pow2_xO. lia.
  - rewrite shr_1_m by done. reflexivity.
Qed.

Lemma shr_1_exact (m : Z) :
  0 <= m -> shr_1 (Build_shr_record (2 * m) false false) = Build_shr_record m false false.
Proof. intros Hm. destruct m; try lia; reflexivity. Qed.

Lemma iter_pos_shr_exact (n : positive) (m : Z) :
  0 <= m ->
  iter_pos shr_1 n (Build_shr_record (m * 2 ^ Zpos n) false false)
  = Build_shr_record m false false.
Proof.
  revert m. induction n as [n IH|n IH|]; intros m Hm; cbn [iter_pos].
  - assert (0 < 2 ^ Zpos n) by (apply Z.pow_pos_nonneg; lia).
    replace (m * 2 ^ Zpos n~1) with (2 * ((m * 2 ^ Zpos n) * 2 ^ Zpos n))
      by (rewrite pow2_xI; lia).
    rewrite shr_1_exact by nia. rewrite IH by nia. by apply IH.
  - assert (0 < 2 ^ Zpos n) by (apply Z.pow_pos_nonneg; lia).
    replace (m * 2 ^ Zpos n~0) with ((m * 2 ^ Zpos n) * 2 ^ Zpos n)
      by (rewrite pow2_xO; lia).
    rewrite IH by nia. by apply IH.
  - replace (m * 2 ^ 1) with (2 * m) by lia. by apply shr_1_exact.
Qed.

Lemma shr_record_of_loc_m (m : Z) (l : location) : shr_m (shr_record_of_loc m l) = m.
Proof. destruct l as [|[]]; reflexivity. Qed.

Lemma round_nearest_even_ge (m : Z) (l : location) : m <= round_nearest_even m l.
Proof. destruct l as [|[]]; cbn [round_nearest_even]; try lia. destruct (Z.even m); lia. Qed.

Lemma Zdigits2_pos (m : Z) : 0 < m -> 2 ^ (Zdigits2 m - 1) <= m < 2 ^ Zdigits2 m.
Proof. destruct m as [|p|p]; try lia. intros _. apply digits2_pos_bounds. Qed.

Lemma Zdigits2_positive (m : Z) : 0 < m -> 0 < Zdigits2 m.
Proof. destruct m as [|p|p]; try lia. intros _. cbn. lia. Qed.

Lemma div_pow2_pos (m n : Z) : 0 < m -> 0 <= n < Zdigits2 m -> 0 < m / 2 ^ n.
Proof.
  intros Hm Hn. pose proof (Zdigits2_pos m Hm) as [Hlo _].
  assert (2 ^ n <= 2 ^ (Zdigits2 m - 1)) by (apply Z.pow_le_mono_r; lia).
  apply Z.div_str_pos. split; [apply Z.pow_pos_nonneg; lia | lia].
Qed.

(** The stage of [binary_round_aux] that shifts to the exponent of the
    format: the mantissa that is left is not zero, and the exponent is at
    least the one the number of digits asks for. *)
Lemma shr_fexp_coarse (m e : Z) (l : location) :
  0 < m -> -1074 <= e ->
  exists mrs e',
    shr_fexp 53 1024 m e l = (mrs, e') /\ 0 < shr_m mrs /\
    e <= e' /\ Zdigits2 m + e - 53 <= e'.
Proof.
  intros Hm He. pose proof (Zdigits2_positive m Hm) as Hd.
  unfold shr_fexp, shr, fexp, emin.
  destruct (Z.max (Zdigits2 m + e - 53) (3 - 1024 - 53) - e) as [|n|n] eqn:Hn.
  - eexists _, _. split; [reflexivity|]. rewrite shr_record_of_loc_m. lia.
  - eexists _, _. split; [reflexivity|].
    rewrite iter_pos_shr_m by (rewrite shr_record_of_loc_m; lia).
    rewrite shr_record_of_loc_m. split; [|lia].
    apply div_pow2_pos; lia.
  - eexists _, _. split; [reflexivity|]. rewrite shr_record_of_loc_m. lia.
Qed.

(** Rounding a positive mantissa never gives zero or [NaN], and never an
    exponent below the one its number of digits asks for. *)
Lemma binary_round_aux_coarse (s : bool) (m e : Z) (l : location) :
  0 < m -> -1074 <= e ->
  binary_round_aux 53 1024 s m e l = S754_infinity s \/
  exists m' e',
    binary_round_aux 53 1024 s m e l = S754_finite s m' e' /\
    e <= e' /\ Zdigits2 m + e - 53 <= e'.
Proof.
  intros Hm He. unfold binary_round_aux.
  destruct (shr_fexp_coarse m e l Hm He) as (mrs1 & e1 & -> & Hm1 & He1 & Hd1).
  pose proof (round_nearest_even_ge (shr_m mrs1) (loc_of_shr_record mrs1)) as Hround.
  destruct (shr_fexp_coarse (round_nearest_even (shr_m mrs1) (loc_of_shr_record mrs1))
              e1 loc_Exact) as (mrs2 & e2 & -> & Hm2 & He2 & Hd2); [lia..|].
  destruct (shr_m mrs2) as [|m2|m2]; try lia.
  destruct (e2 <=? 1024 - 53); [right|by left].
  exists m2, e2. split; [reflexivity|]. lia.
Qed.

(** *** Exact results *)

(** A mantissa of 53 digits followed by [n] zero bits rounds to itself. *)
Lemma binary_round_aux_exact (s : bool) (m0 : positive) (e0 n : Z) :
  Zpos (digits2_pos m0) = 53 -> -1074 <= e0 <= 971 -> 0 <= n ->
  binary_round_aux 53 1024 s (Zpos m0 * 2 ^ n) (e0 - n) loc_Exact = S754_finite s m0 e0.
Proof.
  intros Hd He Hn.
  assert (shr_fexp 53 1024 (Zpos m0 * 2 ^ n) (e0 - n) loc_Exact
          = (Build_shr_record (Zpos m0) false false, e0)) as Hfirst.
  { unfold shr_fexp. rewrite digits2_pos_shift, Hd by done.
    unfold fexp, emin.
    replace (Z.max (53 + n + (e0 - n) - 53) (3 - 1024 - 53) - (e0 - n)) with n by lia.
    unfold shr. destruct n as [|n|n]; [|cbn [shr_record_of_loc]|lia].
    - cbn [shr_record_of_loc]. f_equal; [f_equal|]; lia.
    - rewrite iter_pos_shr_exact by lia. f_equal. lia. }
  assert (shr_fexp 53 1024 (Zpos m0) e0 loc_Exact
          = (Build_shr_record (Zpos m0) false false, e0)) as Hsecond.
  { unfold shr_fexp. cbn [Zdigits2]. rewrite Hd. unfold fexp, emin.
    replace (Z.max (53 + e0 - 53) (3 - 1024 - 53) - e0) with 0 by lia. reflexivity. }
  unfold binary_round_aux. rewrite Hfirst. cbn [shr_m loc_of_shr_record round_nearest_even].
  rewrite Hsecond. cbn [shr_m].
  destruct (Z.leb_spec e0 (1024 - 53)); [reflexivity | lia].
Qed.

Lemma iter_xO (p d : positive) : Zpos (Pos.iter xO p d) = Zpos p * 2 ^ Zpos d.
Proof.
  induction d as [|d IH] using Pos.peano_ind.
  - cbn. lia.
  - rewrite Pos.iter_succ, Pos2Z.inj_xO, IH, Pos2Z.inj_succ, Z.pow_succ_r by lia. lia.
Qed.


Lemma binary_round_exact (s : bool) (p v : positive) (k : Z) :
  0 <= k -> Zpos p = Zpos v * 2 ^ k -> Zpos v < 2 ^ 53 ->
  binary_round 53 1024 s p (- k)
  = S754_finite s (Z.to_pos (Zpos v * 2 ^ (53 - Zpos (digits2_pos v))))
      (Zpos (digits2_pos v) - 53).
Proof.
  intros Hk Hp Hv.
  pose proof (digits2_pos_bounds v) as [Hlo Hhi].
  assert (Zpos (digits2_pos v) <= 53) as Hdv.
  { destruct (Z.le_gt_cases (Zpos (digits2_pos v)) 53) as [|Hgt]; [done|].
    assert (2 ^ 53 <= 2 ^ (Zpos (digits2_pos v) - 1)) by (apply Z.pow_le_mono_r; lia). lia. }
  set (dv := Zpos (digits2_pos v)) in *.
  assert (0 < 2 ^ (53 - dv)) as Hpow by (apply Z.pow_pos_nonneg; lia).
  set (m0 := Z.to_pos (Zpos v * 2 ^ (53 - dv))).
  assert (Zpos m0 = Zpos v * 2 ^ (53 - dv)) as Hm0 by (unfold m0; rewrite Z2Pos.id; lia).
  assert (Zpos (digits2_pos m0) = 53) as Hd0.
  { change (Zpos (digits2_pos m0)) with (Zdigits2 (Zpos m0)).
    rewrite Hm0, digits2_pos_shift by lia. fold dv. lia. }
  assert (Zpos (digits2_pos p) = dv + k) as Hdp.
  { change (Zpos (digits2_pos p)) with (Zdigits2 (Zpos p)).
    rewrite Hp, digits2_pos_shift by lia. reflexivity. }
  unfold binary_round. rewrite Hdp. unfold fexp at 1, emin.
  replace (Z.max (dv + k + - k - 53) (3 - 1024 - 53)) with (dv - 53) by lia.
  unfold shl_align.
  destruct (dv - 53 - - k) as [|n|n] eqn:Hn.
  - replace (Zpos p) with (Zpos m0 * 2 ^ 0)
      by (rewrite Hm0, Hp, Z.pow_0_r, Z.mul_1_r; f_equal; f_equal; lia).
    replace (- k) with (dv - 53 - 0) by lia.
    apply binary_round_aux_exact; lia.
  - replace (Zpos p) with (Zpos m0 * 2 ^ Zpos n).
    + replace (- k) with (dv - 53 - Zpos n) by lia.
      apply binary_round_aux_exact; lia.
    + rewrite Hm0, Hp, <- Z.mul_assoc, <- Z.pow_add_r by lia. f_equal. f_equal. lia.
  - rewrite iter_xO.
    replace (Zpos p * 2 ^ Zpos n) with (Zpos m0 * 2 ^ 0).
    + replace (dv - 53) with (dv - 53 - 0) at 1 by lia.
      apply binary_round_aux_exact; lia.
    + rewrite Hm0, Hp, Z.pow_0_r, Z.mul_1_r, <- Z.mul_assoc, <- Z.pow_add_r by lia.
      f_equal. f_equal. lia.
Qed.

Lemma binary_normalize_exact (v k : Z) :
  0 <= k -> Z.abs v < 2 ^ 53 ->
  binary_normalize 53 1024 (v * 2 ^ k) (- k) false = canon v.
Proof.
  intros Hk Hv. assert (0 < 2 ^ k) as Hpow by (apply Z.pow_pos_nonneg; lia).
  destruct v as [|v|v]; cbn [canon].
  - reflexivity.
  - destruct (Zpos v * 2 ^ k) as [|p|p] eqn:Hp; try lia.
    cbn [binary_normalize]. apply binary_round_exact; lia.
  - destruct (Zneg v * 2 ^ k) as [|p|p] eqn:Hp; try lia.
    cbn [binary_normalize]. apply binary_round_exact; lia.
Qed.

(** *** Integers as doubles, and their difference *)

Lemma canon_opp (z : Z) : z <> 0 -> SFopp (canon z) = canon (- z).
Proof. destruct z; [done|reflexivity..]. Qed.

Lemma of_uint63_canon (z : Z) :
  0 <= z < 2 ^ 53 -> Prim2SF (of_uint63 (Uint63.of_Z z)) = canon z.
Proof.
  intros Hz. rewrite of_uint63_spec, Uint63.of_Z_spec.
  rewrite Z.mod_small by (change Uint63.wB with (2 ^ 63); change (2 ^ 53) with 9007199254740992 in Hz;
                          change (2 ^ 63) with 9223372036854775808; lia).
  rewrite <- (binary_normalize_exact z 0) by lia.
  rewrite Z.pow_0_r, Z.mul_1_r. reflexivity.
Qed.

Lemma num_of_Z_canon (z : Z) : Z.abs z < 2 ^ 53 -> Prim2SF (num_of_Z z) = canon z.
Proof.
  intros Hz. unfold num_of_Z. destruct (Z.ltb_spec z 0).
  - rewrite opp_spec, of_uint63_canon, canon_opp by lia. f_equal. lia.
  - apply of_uint63_canon. lia.
Qed.

Lemma shl_align_value (m : positive) (e e' : Z) :
  e' <= e -> Zpos (fst (shl_align m e e')) = Zpos m * 2 ^ (e - e').
Proof.
  intros He. unfold shl_align. destruct (e' - e) as [|d|d] eqn:Hd; cbn [fst]; try lia.
  - replace (e - e') with 0 by lia. lia.
  - rewrite iter_xO. f_equal. f_equal. lia.
Qed.

Lemma canon_finite (z : Z) :
  z <> 0 -> Z.abs z < 2 ^ 53 ->
  exists m e,
    canon z = S754_finite (z <? 0) m e /\
    -52 <= e <= 0 /\ Zpos m = Z.abs z * 2 ^ (- e) /\ Zpos m < 2 ^ 53.
Proof.
  intros Hz Hlt.
  assert (forall p : positive, Zpos p < 2 ^ 53 ->
            Zpos (Z.to_pos (Zpos p * 2 ^ (53 - Zpos (digits2_pos p))))
            = Zpos p * 2 ^ (- (Zpos (digits2_pos p) - 53))
            /\ -52 <= Zpos (digits2_pos p) - 53 <= 0
            /\ Zpos p * 2 ^ (- (Zpos (digits2_pos p) - 53)) < 2 ^ 53) as Hp.
  { intros p Hp. pose proof (digits2_pos_bounds p) as [Hlo Hhi].
    assert (Zpos (digits2_pos p) <= 53).
    { destruct (Z.le_gt_cases (Zpos (digits2_pos p)) 53) as [|Hgt]; [done|].
      assert (2 ^ 53 <= 2 ^ (Zpos (digits2_pos p) - 1)) by (apply Z.pow_le_mono_r; lia). lia. }
    assert (0 < 2 ^ (53 - Zpos (digits2_pos p))) by (apply Z.pow_pos_nonneg; lia).
    split; [|split; [lia|]].
    - rewrite Z2Pos.id by lia. f_equal. f_equal. lia.
    - replace (- (Zpos (digits2_pos p) - 53)) with (53 - Zpos (digits2_pos p)) by lia.
      assert (2 ^ 53 = 2 ^ Zpos (digits2_pos p) * 2 ^ (53 - Zpos (digits2_pos p))) as ->
          by (rewrite <- Z.pow_add_r by lia; f_equal; lia).
      nia. }
  destruct z as [|p|p]; [done| |]; cbn [canon]; eexists _, _;
    (split; [reflexivity|]); destruct (Hp p Hlt) as (Hm & He & Hlt');
    (split; [lia|]); (split; [exact Hm|]); rewrite Hm; exact Hlt'.
Qed.

(** The difference of two integers below [2 ^ 53], as [SFsub] computes it,
    before it is rounded. *)
Lemma SFsub_canon (a b : Z) :
  Z.abs a < 2 ^ 53 -> Z.abs b < 2 ^ 53 ->
  exists k, 0 <= k <= 52 /\
    SF64sub (canon a) (canon b) = binary_normalize 53 1024 ((a - b) * 2 ^ k) (- k) false.
Proof.
  intros Ha Hb.
  destruct (Z.eq_dec b 0) as [->|Hb0].
  { exists 0. split; [lia|]. rewrite Z.sub_0_r, binary_normalize_exact by lia.
    destruct a; reflexivity. }
  destruct (Z.eq_dec a 0) as [->|Ha0].
  { exists 0. split; [lia|]. rewrite binary_normalize_exact by lia.
    destruct b; try done; reflexivity. }
  destruct (canon_finite a Ha0 Ha) as (ma & ea & -> & Hea & Hma & _).
  destruct (canon_finite b Hb0 Hb) as (mb & eb & -> & Heb & Hmb & _).
  exists (- Z.min ea eb). split; [lia|].
  unfold SF64sub, SFsub. rewrite Z.opp_involutive.
  rewrite !shl_align_value by lia. rewrite Hma, Hmb.
  f_equal.
  rewrite <- !Z.mul_assoc, <- !Z.pow_add_r by lia.
  replace (- ea + (ea - Z.min ea eb)) with (- Z.min ea eb) by lia.
  replace (- eb + (eb - Z.min ea eb)) with (- Z.min ea eb) by lia.
  unfold cond_Zopp. destruct (Z.ltb_spec a 0), (Z.ltb_spec b 0); lia.
Qed.

Lemma SFsub_exact (a b : Z) :
  Z.abs a < 2 ^ 53 -> Z.abs b < 2 ^ 53 -> Z.abs (a - b) < 2 ^ 53 ->
  SF64sub (canon a) (canon b) = canon (a - b).
Proof.
  intros Ha Hb Hab. destruct (SFsub_canon a b Ha Hb) as (k & Hk & ->).
  apply binary_normalize_exact; lia.
Qed.

(** Beyond [2 ^ 53] the difference is rounded: it is still at least
    [2 ^ 53] in absolute value. *)
Lemma SFsub_coarse (a b : Z) :
  Z.abs a < 2 ^ 53 -> Z.abs b < 2 ^ 53 -> 2 ^ 53 <= Z.abs (a - b) ->
  SF64sub (canon a) (canon b) = S754_infinity (a - b <? 0) \/
  exists m e, SF64sub (canon a) (canon b) = S754_finite (a - b <? 0) m e /\ 1 <= e.
Proof.
  intros Ha Hb Hab. destruct (SFsub_canon a b Ha Hb) as (k & Hk & ->).
  assert (0 < 2 ^ k) as Hpow by (apply Z.pow_pos_nonneg; lia).
  assert (forall (s : bool) (p : positive),
             Zpos p = Z.abs (a - b) * 2 ^ k ->
             binary_round 53 1024 s p (- k) = S754_infinity s \/
             exists m e, binary_round 53 1024 s p (- k) = S754_finite s m e /\ 1 <= e) as Hround.
  { intros s p Hp.
    assert (54 + k <= Zpos (digits2_pos p)) as Hd.
    { pose proof (digits2_pos_bounds p) as [_ Hhi].
      destruct (Z.le_gt_cases (54 + k) (Zpos (digits2_pos p))) as [|Hlt]; [done|].
      assert (2 ^ Zpos (digits2_pos p) <= 2 ^ (53 + k)) by (apply Z.pow_le_mono_r; lia).
      rewrite Z.pow_add_r in * by lia. nia. }
    unfold binary_round, shl_align, fexp, emin.
    destruct (Z.max (Zpos (digits2_pos p) + - k - 53) (3 - 1024 - 53) - - k) as [|n|n] eqn:Hn;
      try lia.
    destruct (binary_round_aux_coarse s (Zpos p) (- k) loc_Exact) as [H|(m & e & H & He & Hd')];
      [lia | lia | by left |].
    right. exists m, e. split; [done|]. cbn [Zdigits2] in Hd'. lia. }
  destruct ((a - b) * 2 ^ k) as [|p|p] eqn:Hp; [nia| |]; cbn [binary_normalize].
  - replace (a - b <? 0) with false by (symmetry; apply Z.ltb_ge; nia).
    apply Hround. nia.
  - replace (a - b <? 0) with true by (symmetry; apply Z.ltb_lt; nia).
    apply Hround. nia.
Qed.

(** *** Division by 1000 and comparison with 300 *)


Lemma valid_digits (s : bool) (m : positive) (e : Z) :
  valid_binary (S754_finite s m e) = true -> -1074 < e -> Zpos (digits2_pos m) = 53.
Proof.
  cbn [SpecFloat.valid_binary]. unfold bounded, canonical_mantissa, fexp, emin, prec, emax.
  intros [H _]%andb_true_iff He. apply Z.eqb_eq in H. lia.
Qed.

Lemma SFdiv_coarse (s : bool) (m : positive) (e : Z) :
  Zpos (digits2_pos m) = 53 -> -1064 <= e ->
  SF64div (S754_finite s m e) SF1000 = S754_infinity s \/
  exists m' e', SF64div (S754_finite s m e) SF1000 = S754_finite s m' e' /\ e - 10 <= e'.
Proof.
  intros Hd He. pose proof (digits2_pos_bounds m) as [Hlo _]. rewrite Hd in Hlo.
  change (2 ^ (53 - 1)) with 4503599627370496 in Hlo.
  unfold SF64div, SF1000, SFdiv, SFdiv_core_binary, prec, emax.
  change (Zdigits2 8796093022208000) with 53.
  change (Zdigits2 (Zpos m)) with (Zpos (digits2_pos m)). rewrite Hd. unfold fexp, emin.
  replace (Z.min (Z.max (53 + e - (53 + -43) - 53) (3 - 1024 - 53)) (e - -43)) with (e - 10) by lia.
  replace (e - -43 - (e - 10)) with 53 by lia.
  rewrite Z.shiftl_mul_pow2 by lia. change (2 ^ 53) with 9007199254740992.
  destruct (Z.div_eucl (Zpos m * 9007199254740992) 8796093022208000) as [q r] eqn:Hqr.
  assert (q = Zpos m * 9007199254740992 / 8796093022208000) as Hq
      by (unfold Z.div; by rewrite Hqr).
  assert (0 < q) as Hpos.
  { rewrite Hq. apply Z.div_str_pos. lia. }
  rewrite xorb_false_r.
  destruct (binary_round_aux_coarse s q (e - 10) (new_location 8796093022208000 r))
    as [H|(m' & e' & H & He' & _)]; [done | lia | by left |].
  right. by exists m', e'.
Qed.

Lemma SFabs_binary_round_aux (s s' : bool) (m e : Z) (l : location) :
  SFabs (binary_round_aux 53 1024 s m e l) = SFabs (binary_round_aux 53 1024 s' m e l).
Proof.
  unfold binary_round_aux.
  destruct (shr_fexp 53 1024 m e l) as [mrs1 e1].
  destruct (shr_fexp 53 1024 _ e1 loc_Exact) as [mrs2 e2].
  destruct (shr_m mrs2); [reflexivity| |reflexivity].
  destruct (e2 <=? 1024 - 53); reflexivity.
Qed.

Lemma SFabs_div_opp (x y : spec_float) :
  SFabs (SF64div (SFopp x) y) = SFabs (SF64div x y).
Proof.
  unfold SF64div, prec, emax.
  destruct x as [sx|sx| |sx mx ex], y as [sy|sy| |sy my ey]; try reflexivity.
  cbn [SFopp SFdiv].
  destruct (SFdiv_core_binary 53 1024 (Zpos mx) ex (Zpos my) ey) as [[mz ez] lz].
  apply SFabs_binary_round_aux.
Qed.

(** A double of absolute value [2 ^ 19] or more is more than 300 seconds,
    in milliseconds. *)
Lemma far_rejected (x : float) (s : bool) :
  (Prim2SF x = S754_infinity s \/
   exists m e, Prim2SF x = S754_finite s m e /\ -33 <= e) ->
  (abs (x / 1000) <=? 300)%float = false.
Proof.
  intros Hx. rewrite leb_spec, abs_spec, div_spec.
  change (Prim2SF 1000) with SF1000. change (Prim2SF 300) with SF300.
  pose proof (Prim2SF_valid x) as Hvalid.
  destruct Hx as [->|(m & e & Hx & He)]; [reflexivity|].
  rewrite Hx in *.
  assert (Zpos (digits2_pos m) = 53) as Hd by (apply (valid_digits s m e); [done | lia]).
  destruct (SFdiv_coarse s m e Hd) as [->|(m' & e' & -> & He')]; [lia | reflexivity |].
  unfold SF300. cbn [SFabs]. unfold SFleb, SFcompare.
  replace (e' ?= -44) with Gt by (symmetry; apply Z.compare_gt_iff; lia).
  reflexivity.
Qed.


Lemma near_iter (n : positive) (i : Z) (b : bool) :
  fst (Pos.iter near_step (i, b) n) = i + Zpos n /\
  (snd (Pos.iter near_step (i, b) n) = true ->
   b = true /\ forall d, i <= d < i + Zpos n -> near_check d = true).
Proof.
  induction n as [|n [IHfst IHsnd]] using Pos.peano_ind.
  - change (Pos.iter near_step (i, b) 1) with (near_step (i, b)).
    unfold near_step. cbn [fst snd]. split; [lia|].
    intros [-> H]%andb_true_iff. split; [done|].
    intros d Hd. replace d with i by lia. exact H.
  - rewrite Pos.iter_succ. unfold near_step at 1. cbn [fst snd]. rewrite IHfst.
    split; [lia|]. intros [H Hcheck]%andb_true_iff.
    destruct (IHsnd H) as [-> Hall]. split; [done|].
    intros d Hd. destruct (Z.eq_dec d (i + Zpos n)) as [->|]; [by rewrite <- IHfst|].
    apply Hall. lia.
Qed.

Lemma near_computed : snd (Pos.iter near_step (0, true) 524288) = true.
Proof. vm_compute. reflexivity. Qed.

Lemma near_checked (d : Z) :
  0 <= d < 524288 ->
  (abs (of_uint63 (Uint63.of_Z d) / 1000) <=? 300)%float = (d <=? 300000).
Proof.
  intros Hd. destruct (near_iter 524288 0 true) as [_ H].
  destruct (H near_computed) as [_ Hall].
  specialize (Hall d). unfold near_check in Hall. apply eqb_prop. apply Hall. lia.
Qed.

Lemma abs_div_opp (x y : float) : abs (- x / y)%float = abs (x / y)%float.
Proof.
  apply Prim2SF_inj. rewrite !abs_spec, !div_spec, opp_spec. apply SFabs_div_opp.
Qed.

(** *** The check of [verifyTimestamp] at 300 seconds *)

(** For time values (integers of at most 8.64e15 in absolute value) the
    double arithmetic of the check is exact at the tolerance of 300 seconds:
    the computed difference in seconds is at most 300 exactly when the two
    times are at most 300000 milliseconds apart. *)
Lemma seconds_default (now t : Z) :
  Z.abs now <= max_time -> Z.abs t <= max_time ->
  num_le (Math_abs (num_div (num_sub (num_of_Z now) (num_of_Z t)) 1000%float)) 300%float
  = (Z.abs (now - t) <=? 300000).
Proof.
  unfold max_time, num_le, Math_abs, num_div, num_sub. intros Hnow Ht.
  assert (2 ^ 53 = 9007199254740992) as Hpow by reflexivity.
  assert (Prim2SF (num_of_Z now - num_of_Z t) = SF64sub (canon now) (canon t)) as Hsub
      by (rewrite sub_spec, !num_of_Z_canon by lia; reflexivity).
  destruct (Z.lt_ge_cases (Z.abs (now - t)) (2 ^ 53)) as [Hexact|Hrounded].
  - rewrite SFsub_exact in Hsub by lia.
    destruct (Z.lt_ge_cases (Z.abs (now - t)) 524288) as [Hnear|Hfar].
    + assert ((num_of_Z now - num_of_Z t)%float = num_of_Z (now - t)) as ->
          by (apply Prim2SF_inj; rewrite Hsub, num_of_Z_canon by lia; reflexivity).
      unfold num_of_Z. destruct (Z.ltb_spec (now - t) 0).
      * rewrite abs_div_opp, near_checked by lia. f_equal. lia.
      * rewrite near_checked by lia. f_equal. lia.
    + rewrite (far_rejected _ (now - t <? 0)); [symmetry; apply Z.leb_gt; lia|].
      right. destruct (canon_finite (now - t)) as (m & e & Hcanon & He & Hm & Hlt); [lia..|].
      exists m, e. split; [by rewrite Hsub|].
      destruct (Z.le_gt_cases (-33) e) as [|Hsmall]; [done|]. exfalso.
      assert (2 ^ 34 <= 2 ^ (- e)) as Hle by (apply Z.pow_le_mono_r; lia).
      change (2 ^ 34) with 17179869184 in Hle. nia.
  - rewrite (far_rejected _ (now - t <? 0)); [symmetry; apply Z.leb_gt; lia|].
    destruct (SFsub_coarse now t) as [H|(m & e & H & He)]; [lia..| |].
    + left. by rewrite Hsub.
    + right. exists m, e. split; [by rewrite Hsub | lia].
Qed.

Lemma nan_rejected_r (x d tol : float) : (abs ((x - nan) / d) <=? tol)%float = false.
Proof.
  rewrite leb_spec, abs_spec, div_spec, sub_spec. change (Prim2SF nan) with S754_nan.
  destruct (Prim2SF x); reflexivity.
Qed.

Lemma nan_rejected_l (y d tol : float) : (abs ((nan - y) / d) <=? tol)%float = false.
Proof.
  rewrite leb_spec, abs_spec, div_spec, sub_spec. change (Prim2SF nan) with S754_nan.
  reflexivity.
Qed.

(** *** The order of doubles *)

Lemma SFleb_trans (x y z : spec_float) :
  SFleb x y = true -> SFleb y z = true -> SFleb x z = true.
Proof.
  unfold SFleb, SFcompare.
  destruct x as [sx|sx| |sx mx ex], y as [sy|sy| |sy my ey], z as [sz|sz| |sz mz ez];
    try done; try (destruct sx; done); try (destruct sy; done); try (destruct sz; done);
    try (destruct sx, sy; done); try (destruct sy, sz; done); try (destruct sx, sz; done);
    try (destruct sx, sy, sz; done).
  change (PosDef.Pos.compare_cont Eq) with Pos.compare.
  destruct sx, sy, sz; try done;
    destruct (Z.compare_spec ex ey), (Z.compare_spec ey ez), (Z.compare_spec ex ez);
    try done; try lia;
    destruct (Pos.compare_spec mx my), (Pos.compare_spec my mz), (Pos.compare_spec mx mz);
    try done; try lia.
Qed.

Lemma leb_trans (x y z : float) :
  (x <=? y)%float = true -> (y <=? z)%float = true -> (x <=? z)%float = true.
Proof. rewrite !leb_spec. apply SFleb_trans. Qed.

Lemma eqb_leb (x y : float) : (x =? y)%float = true -> (x <=? y)%float = true.
Proof.
  rewrite eqb_spec, leb_spec. unfold SFeqb, SFleb.
  by destruct (SFcompare (Prim2SF x) (Prim2SF y)) as [[]|].
Qed.

Lemma abs_above_negative (x tol : float) :
  (tol <? 0)%float = true -> (abs x <=? tol)%float = false.
Proof.
  rewrite ltb_spec, leb_spec, abs_spec. change (Prim2SF 0) with (S754_zero false).
  unfold SFltb, SFleb, SFcompare.
  destruct (Prim2SF tol) as [st|st| |st mt et], (Prim2SF x) as [sx|sx| |sx mx ex];
    cbn [SFabs]; try done; destruct st; done.
Qed.

End DoubleFacts.

(** ** Timestamps *)

Section Timestamps.
Context {rt : Runtime}.

Local Abbreviation Event := (WebhookEvent number).

(** The difference in seconds, as [verifyTimestamp] computes it from the
    time value of the event. *)
Local Abbreviation diffSeconds time :=
  (Math_abs (num_div (num_sub (num_of_time (Some Date_now)) (num_of_time time)) 1000)).

Lemma verifyTimestamp_falsy (event : Event) tolerance :
  truthy (event_createdAt event) = false ->
  verifyTimestamp event tolerance = Return true.
Proof. intros H. unfold verifyTimestamp. by rewrite H. Qed.

Lemma verifyTimestamp_truthy (event : Event) tolerance :
  truthy (event_createdAt event) = true ->
  verifyTimestamp event tolerance
  = Return (num_le (diffSeconds (Date_getTime (event_createdAt event))) tolerance).
Proof. intros H. unfold verifyTimestamp. by rewrite H. Qed.

(** A date that does not parse has the time value [NaN], which no
    tolerance accepts. *)
Lemma diffSeconds_invalid (tolerance : JsNum) :
  num_le (diffSeconds None) tolerance = false.
Proof. apply nan_rejected_r. Qed.

(** At the tolerance of [handle], 300 seconds, the comparison of doubles
    is the comparison of the integers. *)
Lemma diffSeconds_default (t : Z) :
  num_le (diffSeconds (Some t)) 300
  = ((Z.abs Date_now <=? max_time) && (Z.abs t <=? max_time)
     && (Z.abs (Date_now - t) <=? 300000))%Z.
Proof.
  unfold num_of_time.
  destruct (Z.leb_spec (Z.abs Date_now) max_time) as [Hnow|Hnow];
    [|apply nan_rejected_l].
  destruct (Z.leb_spec (Z.abs t) max_time) as [Ht|Ht]; [|apply nan_rejected_r].
  by apply seconds_default.
Qed.

Lemma verifyTimestamp_default (event : Event) (t : Z) :
  truthy (event_createdAt event) = true ->
  Date_getTime (event_createdAt event) = Some t ->
  verifyTimestamp event 300
  = Return ((Z.abs Date_now <=? max_time) && (Z.abs t <=? max_time)
            && (Z.abs (Date_now - t) <=? 300000))%Z.
Proof.
  intros Htruthy Htime. rewrite verifyTimestamp_truthy, Htime by done.
  f_equal. apply diffSeconds_default.
Qed.

(** C6 (amended). For every event and every tolerance, a double,
    [verifyTimestamp] returns a boolean and never raises. It returns true
    when [createdAt] is absent or any other falsy value (null, false, zero,
    the empty string). When [createdAt] is truthy it returns true if and
    only if the timestamp parses and the absolute difference in seconds
    between the current time and it, computed as the code computes it (the
    difference of the two time values in milliseconds, divided by 1000,
    each operation rounded to the nearest double), is at most the
    tolerance; at the default tolerance of 300 that is exactly when the two
    time values are at most 300000 milliseconds apart. A truthy timestamp
    that does not parse makes it return false. *)
Theorem C6_verifyTimestamp (event : Event) (tolerance : JsNum) :
  exists b : bool,
    verifyTimestamp event tolerance = Return b /\
    (event_createdAt event = JUndefined -> b = true) /\
    (truthy (event_createdAt event) = false -> b = true) /\
    (truthy (event_createdAt event) = true ->
     forall t, Date_getTime (event_createdAt event) = Some t ->
       (b = true <-> (diffSeconds (Some t) <=? tolerance)%float = true) /\
       (tolerance = 300%float ->
        (b = true <->
         (Z.abs Date_now <= max_time /\ Z.abs t <= max_time /\
          Z.abs (Date_now - t) <= 300 * 1000)%Z))) /\
    (truthy (event_createdAt event) = true ->
     Date_getTime (event_createdAt event) = None -> b = false).
Proof.
  destruct (truthy (event_createdAt event)) eqn:Htruthy.
  - rewrite verifyTimestamp_truthy by done. eexists. split; [reflexivity|].
    split; [intros H; rewrite H in Htruthy; discriminate|].
    split; [discriminate|]. split.
    + intros _ t ->. split; [reflexivity|]. intros ->.
      rewrite diffSeconds_default, !andb_true_iff, !Z.leb_le. lia.
    + intros _ ->. apply diffSeconds_invalid.
  - rewrite verifyTimestamp_falsy by done. exists true. repeat split; try done.
Qed.

End Timestamps.

(** C6, as stated, fails on an event whose [createdAt] is the empty string:
    the timestamp is present and does not parse, and the result is true. *)
Lemma C6_counterexample_empty_timestamp :
  event_createdAt Fixture.empty_timestamp_event = JString "" /\
  Date_getTime (Runtime := Fixture.runtime) (JString "") = None /\
  verifyTimestamp (rt := Fixture.runtime) Fixture.empty_timestamp_event 300 = Return true.
Proof. repeat split. Qed.

(** The comparison is the one of doubles: with the tolerance 0.3, the double
    [0x1.3333333333333p-2] that lies below three tenths, a timestamp 300
    milliseconds old is accepted, its distance being computed as the same
    double. *)
Example verifyTimestamp_rounds :
  FloatOps.Prim2SF 0x1.3333333333333p-2 = SpecFloat.S754_finite false 5404319552844595 (-54) /\
  (5404319552844595 * 1000 < 300 * 2 ^ 54)%Z /\
  verifyTimestamp (rt := Fixture.runtime)
    (mkWebhookEvent JUndefined JUndefined (JNumber (Fixture.now - 300)%Z) (JObject ∅))
    0x1.3333333333333p-2
  = Return true.
Proof. repeat split. Qed.

(** ** Dispatch *)

Section Dispatch.
Context {rt : Runtime}.

Local Abbreviation Value := (JsValue number).
Local Abbreviation Event := (WebhookEvent number).

(** [handle], step by step: every outcome is a returned envelope. *)
Lemma handle_spec (this : WebhookHandler) (payload signature algorithm : string) :
  handle this payload signature algorithm =
  match parsePayload (verifier this) payload signature algorithm with
  | (Throw e, calls) => (Return (failure_envelope (error_message e)), calls)
  | (Return event, calls) =>
      match verifyTimestamp event 300 with
      | Return true =>
          match handleEvent this event with
          | Return result => (Return (spread (success_fields event) result), calls)
          | Throw e => (Return (failure_envelope (error_message e)), calls)
          end
      | Return false => (Return (failure_envelope "Webhook timestamp is too old"), calls)
      | Throw e => (Return (failure_envelope (error_message e)), calls)
      end
  end.
Proof.
  unfold handle.
  destruct (parsePayload (verifier this) payload signature algorithm) as [[event|e] calls];
    simpl.
  - destruct (verifyTimestamp event 300) as [[|]|e]; simpl.
    + destruct (handleEvent this event) as [result|e]; simpl;
        by rewrite ?app_nil_r.
    + by rewrite ?app_nil_r.
    + by rewrite ?app_nil_r.
  - destruct e; by rewrite ?app_nil_r.
Qed.

Lemma handle_never_raises (this : WebhookHandler) (payload signature algorithm : string) :
  exists envelope calls,
    handle this payload signature algorithm = (Return envelope, calls).
Proof.
  rewrite handle_spec.
  destruct (parsePayload _ _ _ _) as [[event|e] calls]; [|eauto].
  destruct (verifyTimestamp event 300) as [[|]|e]; eauto.
  destruct (handleEvent this event); eauto.
Qed.

Lemma handleEvent_registered (this : WebhookHandler) (event : Event) t (handler : Handler) :
  event_type event = JString t -> handlers this !! t = Some handler ->
  handleEvent this event = handler event.
Proof. intros Htype Hreg. unfold handleEvent, Map_get. by rewrite Htype, Hreg. Qed.

Lemma handleEvent_unregistered (this : WebhookHandler) (event : Event) t :
  event_type event = JString t -> handlers this !! t = None ->
  handleEvent this event = Return (handler_result "ignored" (JString t)).
Proof.
  intros Htype Hreg. unfold handleEvent, Map_get. rewrite Htype, Hreg. simpl.
  unfold handleUnknownEvent. by rewrite Htype.
Qed.

(** The merge with the result of a built-in handler: its [event] property
    replaces the event record. *)
Lemma spread_handler_result (event : Event) status (v : Value) :
  spread (success_fields event) (handler_result status v) = status_envelope status v.
Proof.
  unfold spread, success_fields, handler_result, status_envelope. simpl.
  apply map_eq. intros k. rewrite lookup_union, !lookup_insert, lookup_empty.
  repeat case_decide; subst; try done.
Qed.

(** Each built-in handler answers with its own type under [event]. *)
Lemma setupDefaultHandlers_lookup (t : string) :
  In t default_event_types ->
  exists handler : Handler,
    setupDefaultHandlers ∅ !! t = Some handler /\
    forall event, handler event = Return (handler_result "processed" (JString t)).
Proof.
  unfold default_event_types. simpl.
  intros H. repeat (destruct H as [<-|H]; [eexists; split; reflexivity|]). destruct H.
Qed.

End Dispatch.

(** The claims about [handle] share one situation: a payload whose
    signature verifies and which parses to an event. *)
Section VerifiedPayload.
Context {rt : Runtime}.

Local Abbreviation Value := (JsValue number).
Local Abbreviation Event := (WebhookEvent number).

Variable this : WebhookHandler.
Variables payload signature algorithm : string.
Variable data : Value.
Variable event : Event.

Hypothesis Hverified :
  verifySignature (verifier this) payload signature algorithm = Return true.
Hypothesis Hparsed : JSON_parse payload = inr data.
Hypothesis Hnormalized : extractEventData data = Return event.

Lemma parsePayload_event :
  parsePayload (verifier this) payload signature algorithm = (Return event, [payload]).
Proof. by rewrite (parsePayload_verified _ _ _ _ Hverified), Hparsed, Hnormalized. Qed.

Lemma handle_stale :
  verifyTimestamp event 300 = Return false ->
  handle this payload signature algorithm
  = (Return (failure_envelope "Webhook timestamp is too old"), [payload]).
Proof. intros H. by rewrite handle_spec, parsePayload_event, H. Qed.

Lemma handle_routed (result : Value) :
  verifyTimestamp event 300 = Return true ->
  handleEvent this event = Return result ->
  handle this payload signature algorithm
  = (Return (spread (success_fields event) result), [payload]).
Proof. intros H Hresult. by rewrite handle_spec, parsePayload_event, H, Hresult. Qed.

Lemma handle_handler_throws (e : JsThrown) :
  verifyTimestamp event 300 = Return true ->
  handleEvent this event = Throw e ->
  handle this payload signature algorithm
  = (Return (failure_envelope (error_message e)), [payload]).
Proof. intros H Hthrow. by rewrite handle_spec, parsePayload_event, H, Hthrow. Qed.

(** C7 (amended). For every payload whose signature verifies and whose
    [createdAt] is truthy and a timestamp more than 300 seconds away from
    the current time (400 seconds in the past, say), or truthy and no date
    at all, [handle] returns the envelope [{valid: false, error}] with a
    message that contains the words too old. A payload whose [createdAt] is
    falsy (absent, null, false, the empty string, or the number 0, which is
    the epoch) is not checked for its age: the timestamp check passes and
    the event goes to its handler. [handle] raises on no input at all, and a
    verification or parsing failure of [parsePayload] is returned as
    [{valid: false, error}] with the message of the error. *)
Theorem C7_stale_timestamp_reported (t : Z) :
  (truthy (event_createdAt event) = true ->
   Date_getTime (event_createdAt event) = Some t ->
   (300 * 1000 < Z.abs (Date_now - t))%Z ->
   exists message,
     handle this payload signature algorithm
     = (Return (failure_envelope message), [payload]) /\
     includes message "too old" = true) /\
  (truthy (event_createdAt event) = true ->
   Date_getTime (event_createdAt event) = None ->
   handle this payload signature algorithm
   = (Return (failure_envelope "Webhook timestamp is too old"), [payload])) /\
  (truthy (event_createdAt event) = false ->
   verifyTimestamp event 300 = Return true /\
   forall result,
     handleEvent this event = Return result ->
     handle this payload signature algorithm
     = (Return (spread (success_fields event) result), [payload])) /\
  (forall payload' signature' algorithm',
      exists envelope calls,
        handle this payload' signature' algorithm' = (Return envelope, calls)) /\
  (forall payload' signature' algorithm' e calls,
      parsePayload (verifier this) payload' signature' algorithm' = (Throw e, calls) ->
      handle this payload' signature' algorithm'
      = (Return (failure_envelope (error_message e)), calls)).
Proof.
  split; [|split; [|split; [|split]]].
  - intros Htruthy Htime Hold. exists "Webhook timestamp is too old".
    split; [|reflexivity].
    apply handle_stale. rewrite (verifyTimestamp_default event t Htruthy Htime).
    f_equal. rewrite (proj2 (Z.leb_gt (Z.abs (Date_now - t)) 300000)) by lia.
    apply andb_false_r.
  - intros Htruthy Htime. apply handle_stale.
    rewrite verifyTimestamp_truthy, Htime by done. f_equal. apply diffSeconds_invalid.
  - intros Hfalsy. pose proof (verifyTimestamp_falsy event 300 Hfalsy) as Hpass.
    split; [exact Hpass|]. intros result Hresult. by apply handle_routed.
  - intros. apply handle_never_raises.
  - intros payload' signature' algorithm' e calls H. by rewrite handle_spec, H.
Qed.

(** C3 (amended). For every handler that throws when invoked and every
    payload that passes the signature and timestamp checks and routes to
    it, the error does not leave [handle]: the call of the handler is inside
    the [try] block, and [handle] returns [{valid: false, error}] with the
    message of the error (Unknown error when the thrown value is no Error),
    as it does for verification and parsing failures. This holds for a
    handler found in the table and, in particular, for one the caller has
    just registered with [on]. *)
Theorem C3_handler_error_is_reported (t : string) (handler : Handler) (e : JsThrown) :
  verifyTimestamp event 300 = Return true ->
  event_type event = JString t ->
  handler event = Throw e ->
  (handlers this !! t = Some handler ->
   handle this payload signature algorithm
   = (Return (failure_envelope (error_message e)), [payload])) /\
  handle (on this t handler) payload signature algorithm
  = (Return (failure_envelope (error_message e)), [payload]).
Proof.
  intros Htimely Htype Hthrow. split.
  - intros Hreg. apply handle_handler_throws; [done|].
    by rewrite (handleEvent_registered this event t handler).
  - rewrite handle_spec.
    change (verifier (on this t handler)) with (verifier this).
    rewrite parsePayload_event, Htimely.
    rewrite (handleEvent_registered (on this t handler) event t handler Htype)
      by apply lookup_insert_eq.
    by rewrite Hthrow.
Qed.

(** C8. For every event type without a registered handler, never
    registered or registered with [on] and then removed with [off], a
    payload of that type that passes the signature and timestamp checks
    makes [handle] fall back to the unknown-event handler and return
    [{valid: true, status: ignored, event: type}], an envelope without
    [error]. *)
Theorem C8_unregistered_type_ignored (t : string) :
  verifyTimestamp event 300 = Return true ->
  event_type event = JString t ->
  (handlers this !! t = None ->
   handle this payload signature algorithm
   = (Return (status_envelope "ignored" (JString t)), [payload])) /\
  (forall handler : Handler,
      handle (off (on this t handler) t) payload signature algorithm
      = (Return (status_envelope "ignored" (JString t)), [payload])) /\
  status_envelope "ignored" (JString t) !! "error" = None.
Proof.
  intros Htimely Htype. split; [|split].
  - intros Hnone.
    rewrite (handle_routed (handler_result "ignored" (JString t)) Htimely
               (handleEvent_unregistered this event t Htype Hnone)).
    by rewrite spread_handler_result.
  - intros handler. rewrite handle_spec.
    change (verifier (off (on this t handler) t)) with (verifier this).
    rewrite parsePayload_event, Htimely.
    rewrite (handleEvent_unregistered _ event t Htype) by apply lookup_delete_eq.
    cbv beta iota. by rewrite spread_handler_result.
  - reflexivity.
Qed.

(** C2 (what the code does). For a handler object fresh from the
    constructor and a payload of one of the ten default types, such as
    license.created, that passes the signature and timestamp checks,
    [handle] returns the merge of [{valid: true, event}] with the result of
    the built-in handler: an envelope with [valid] true and [status]
    processed, whose [event] property is the type string and not the event
    record, the [event] property of the handler's result having overwritten
    it in the merge. *)
Theorem C2_default_handler_overwrites_event (s t : string) :
  WebhookHandler_new s = Return this ->
  verifyTimestamp event 300 = Return true ->
  In t default_event_types ->
  event_type event = JString t ->
  exists envelope,
    handle this payload signature algorithm = (Return envelope, [payload]) /\
    envelope = spread (success_fields event) (handler_result "processed" (JString t)) /\
    envelope !! "valid" = Some (JBool true) /\
    envelope !! "status" = Some (JString "processed") /\
    envelope !! "event" = Some (JString t) /\
    envelope !! "event" <> Some (event_value event).
Proof.
  intros Hnew Htimely Hdefault Htype.
  destruct (setupDefaultHandlers_lookup t Hdefault) as (handler & Hlookup & Hresult).
  assert (handlers this !! t = Some handler) as Hreg.
  { unfold WebhookHandler_new in Hnew. destruct (WebhookVerifier_new s); [|discriminate].
    simpl in Hnew. injection Hnew as <-. exact Hlookup. }
  exists (spread (success_fields event) (handler_result "processed" (JString t))).
  split.
  - apply handle_routed; [done|].
    by rewrite (handleEvent_registered this event t handler Htype Hreg).
  - split; [done|]. rewrite spread_handler_result. repeat split; done.
Qed.

End VerifiedPayload.

(** ** The code on concrete inputs *)

Example secureCompare_equal : secureCompare "sha256=ab" "sha256=ab" = true.
Proof. reflexivity. Qed.

Example secureCompare_one_character : secureCompare "sha256=ab" "sha256=aB" = false.
Proof. reflexivity. Qed.

Example secureCompare_lengths : secureCompare "sha256=ab" "sha256=a" = false.
Proof. reflexivity. Qed.

Example secureCompare_empty : secureCompare "" "" = false.
Proof. reflexivity. Qed.

Example toLowerCase_SHA256 : toLowerCase "SHA256" = "sha256".
Proof. reflexivity. Qed.

Example generateSignature_unsupported :
  generateSignature (rt := Fixture.runtime) Fixture.the_verifier "{}" "md5"
  = Throw (WebhookVerificationError "Unsupported algorithm: md5").
Proof. reflexivity. Qed.

Example verifySignature_unsupported :
  verifySignature (rt := Fixture.runtime) Fixture.the_verifier "{}" "md5=00" "md5"
  = Return false.
Proof. reflexivity. Qed.

Example constructor_rejects_empty_secret :
  WebhookVerifier_new "" = Throw (WebhookVerificationError "Webhook secret is required").
Proof. reflexivity. Qed.

(** A tampered signature: the well-formed body is not parsed. *)
Example parsePayload_tampered :
  parsePayload (rt := Fixture.runtime) Fixture.the_verifier Fixture.fresh_payload
    "sha256=00" "sha256"
  = (Throw WebhookVerificationFailed, []).
Proof. reflexivity. Qed.

(** A valid signature over a body that is not JSON. *)
Example parsePayload_malformed :
  parsePayload (rt := Fixture.runtime) Fixture.the_verifier "{" (Fixture.sign "{") "sha256"
  = (Throw (InvalidPayload (SyntaxError "Unexpected token in JSON")), ["{"]).
Proof. reflexivity. Qed.

Example parsePayload_fresh :
  parsePayload (rt := Fixture.runtime) Fixture.the_verifier Fixture.fresh_payload
    (Fixture.sign Fixture.fresh_payload) "sha256"
  = (Return Fixture.fresh_event, [Fixture.fresh_payload]).
Proof. reflexivity. Qed.

(** A timestamp 100 seconds old is within the tolerance, one 400 seconds
    old is not. *)
Example verifyTimestamp_100_seconds :
  verifyTimestamp (rt := Fixture.runtime)
    (mkWebhookEvent JUndefined JUndefined (JString "2023-11-14T22:11:40.000Z") JUndefined) 300
  = Return true.
Proof. reflexivity. Qed.

Example verifyTimestamp_400_seconds :
  verifyTimestamp (rt := Fixture.runtime) Fixture.stale_event 300 = Return false.
Proof. reflexivity. Qed.

(** A caller's handler whose result has no [event] property leaves the
    event record in the envelope. *)
Example handle_custom_handler :
  handle (rt := Fixture.runtime)
    (on Fixture.the_handler "x" (fun _ => Return (JObject (<["status" := JString "done"]> ∅))))
    (Fixture.typed_payload "x") (Fixture.sign (Fixture.typed_payload "x")) "sha256"
  = (Return (<["valid" := JBool true]> (
             <["event" := event_value (rt := Fixture.runtime) (Fixture.typed_event "x")]> (
             <["status" := JString "done"]> ∅))),
     [Fixture.typed_payload "x"]).
Proof. reflexivity. Qed.

(** ** The claims on concrete payloads *)

Lemma generateSignature_round_trip_witness :
  verifySignature (rt := Fixture.runtime) Fixture.the_verifier "{}" (Fixture.sign "{}") "sha256"
    = Return true /\
  verifySignature (rt := Fixture.runtime) Fixture.the_verifier "{}"
    (alter (Fixture.sign "{}") 0 "S") "sha256" = Return false.
Proof.
  destruct (generateSignature_round_trip (rt := Fixture.runtime) "whsec_test" "{}" "sha256"
              Fixture.the_verifier eq_refl (or_intror (or_introl eq_refl)))
    as (digest & signature & Hsel & Hgen & Hok & Hsig & _).
  injection Hsel as <-. injection Hgen as <-.
  split; [exact Hok|].
  apply (Hsig 0%nat "S"%char); [simpl; lia | discriminate].
Defined.

Lemma C10_algorithm_spelling_witness :
  exists digest,
    selected_digest (rt := Fixture.runtime) "SHA256" = Some digest /\
    selected_digest (rt := Fixture.runtime) "sha256" = Some digest /\
    generateSignature (rt := Fixture.runtime) Fixture.the_verifier "{}" "SHA256"
      = Return ("SHA256" ++ "=" ++ digest "{}" "whsec_test") /\
    generateSignature (rt := Fixture.runtime) Fixture.the_verifier "{}" "sha256"
      = Return ("sha256" ++ "=" ++ digest "{}" "whsec_test") /\
    "SHA256" ++ "=" ++ digest "{}" "whsec_test" <> "sha256" ++ "=" ++ digest "{}" "whsec_test" /\
    verifySignature (rt := Fixture.runtime) Fixture.the_verifier "{}"
      ("sha256" ++ "=" ++ digest "{}" "whsec_test") "SHA256" = Return false /\
    verifySignature (rt := Fixture.runtime) Fixture.the_verifier "{}"
      ("SHA256" ++ "=" ++ digest "{}" "whsec_test") "sha256" = Return false.
Proof.
  apply (C10_algorithm_spelling (rt := Fixture.runtime) Fixture.the_verifier "{}"
           "SHA256" "sha256").
  - discriminate.
  - reflexivity.
  - simpl. auto.
Defined.

Lemma C7_stale_timestamp_reported_witness :
  exists message,
    handle (rt := Fixture.runtime) Fixture.the_handler Fixture.stale_payload
      (Fixture.sign Fixture.stale_payload) "sha256"
    = (Return (failure_envelope message), [Fixture.stale_payload]) /\
    includes message "too old" = true /\
    (forall payload' signature' algorithm',
        exists envelope calls,
          handle (rt := Fixture.runtime) Fixture.the_handler payload' signature' algorithm'
          = (Return envelope, calls)) /\
    (forall payload' signature' algorithm' e calls,
        parsePayload (rt := Fixture.runtime) Fixture.the_verifier payload' signature' algorithm'
        = (Throw e, calls) ->
        handle (rt := Fixture.runtime) Fixture.the_handler payload' signature' algorithm'
        = (Return (failure_envelope (error_message e)), calls)).
Proof.
  destruct (C7_stale_timestamp_reported (rt := Fixture.runtime) Fixture.the_handler
              Fixture.stale_payload (Fixture.sign Fixture.stale_payload) "sha256"
              Fixture.stale_data Fixture.stale_event
              eq_refl eq_refl eq_refl (Fixture.now - 400000)%Z)
    as (Hstale & _ & _ & Hnever & Hfailure).
  destruct (Hstale eq_refl eq_refl eq_refl) as (message & Hhandle & Hincludes).
  exists message. split; [exact Hhandle|]. split; [exact Hincludes|].
  split; [exact Hnever | exact Hfailure].
Defined.

(** C7, as stated, fails on a payload whose [createdAt] is the number 0:
    the signature verifies, the timestamp is the epoch, far more than 300
    seconds before the current time, and [handle] answers [valid: true]. *)
Lemma C7_counterexample_epoch_timestamp :
  verifySignature (rt := Fixture.runtime) Fixture.the_verifier Fixture.epoch_payload
    (Fixture.sign Fixture.epoch_payload) "sha256" = Return true /\
  parsePayload (rt := Fixture.runtime) Fixture.the_verifier Fixture.epoch_payload
    (Fixture.sign Fixture.epoch_payload) "sha256"
  = (Return Fixture.epoch_event, [Fixture.epoch_payload]) /\
  event_createdAt Fixture.epoch_event = JNumber 0%Z /\
  Date_getTime (Runtime := Fixture.runtime) (JNumber 0%Z) = Some 0%Z /\
  (300 * 1000 <? Z.abs (Date_now (Runtime := Fixture.runtime) - 0))%Z = true /\
  handle (rt := Fixture.runtime) Fixture.the_handler Fixture.epoch_payload
    (Fixture.sign Fixture.epoch_payload) "sha256"
  = (Return (status_envelope "processed" (JString "license.created")),
     [Fixture.epoch_payload]).
Proof. repeat split. Qed.

Lemma C3_handler_error_is_reported_witness :
  handlers Fixture.the_failing_handler !! "x" = Some Fixture.failing /\
  handle (rt := Fixture.runtime) Fixture.the_failing_handler (Fixture.typed_payload "x")
    (Fixture.sign (Fixture.typed_payload "x")) "sha256"
  = (Return (failure_envelope "boom"), [Fixture.typed_payload "x"]) /\
  handle (rt := Fixture.runtime) (on Fixture.the_handler "x" Fixture.failing)
    (Fixture.typed_payload "x") (Fixture.sign (Fixture.typed_payload "x")) "sha256"
  = (Return (failure_envelope "boom"), [Fixture.typed_payload "x"]).
Proof.
  destruct (C3_handler_error_is_reported (rt := Fixture.runtime) Fixture.the_handler
              (Fixture.typed_payload "x") (Fixture.sign (Fixture.typed_payload "x")) "sha256"
              (Fixture.typed_data "x") (Fixture.typed_event "x")
              eq_refl eq_refl eq_refl "x" Fixture.failing (ErrorObject "Error" "boom")
              eq_refl eq_refl eq_refl) as [_ Hregistered].
  destruct (C3_handler_error_is_reported (rt := Fixture.runtime) Fixture.the_failing_handler
              (Fixture.typed_payload "x") (Fixture.sign (Fixture.typed_payload "x")) "sha256"
              (Fixture.typed_data "x") (Fixture.typed_event "x")
              eq_refl eq_refl eq_refl "x" Fixture.failing (ErrorObject "Error" "boom")
              eq_refl eq_refl eq_refl) as [Hfound _].
  split; [reflexivity|]. split; [apply Hfound; reflexivity | exact Hregistered].
Defined.

(** C3, as stated, fails on a handler that throws, registered for the type
    x: the handler throws on the parsed event, and [handle] returns the
    failure envelope with the message of the error. *)
Lemma C3_counterexample_throwing_handler :
  parsePayload (rt := Fixture.runtime) Fixture.the_verifier (Fixture.typed_payload "x")
    (Fixture.sign (Fixture.typed_payload "x")) "sha256"
  = (Return (Fixture.typed_event "x"), [Fixture.typed_payload "x"]) /\
  verifyTimestamp (rt := Fixture.runtime) (Fixture.typed_event "x") 300 = Return true /\
  handleEvent (rt := Fixture.runtime) Fixture.the_failing_handler (Fixture.typed_event "x")
  = Throw (ErrorObject "Error" "boom") /\
  handle (rt := Fixture.runtime) Fixture.the_failing_handler (Fixture.typed_payload "x")
    (Fixture.sign (Fixture.typed_payload "x")) "sha256"
  = (Return (failure_envelope "boom"), [Fixture.typed_payload "x"]).
Proof. repeat split. Qed.

Lemma C8_unregistered_type_ignored_witness :
  handlers Fixture.the_handler !! "unregistered.type" = None /\
  handle (rt := Fixture.runtime) Fixture.the_handler (Fixture.typed_payload "unregistered.type")
    (Fixture.sign (Fixture.typed_payload "unregistered.type")) "sha256"
  = (Return (status_envelope "ignored" (JString "unregistered.type")),
     [Fixture.typed_payload "unregistered.type"]) /\
  (forall handler : Handler,
      handle (rt := Fixture.runtime)
        (off (on Fixture.the_handler "unregistered.type" handler) "unregistered.type")
        (Fixture.typed_payload "unregistered.type")
        (Fixture.sign (Fixture.typed_payload "unregistered.type")) "sha256"
      = (Return (status_envelope "ignored" (JString "unregistered.type")),
         [Fixture.typed_payload "unregistered.type"])).
Proof.
  destruct (C8_unregistered_type_ignored (rt := Fixture.runtime) Fixture.the_handler
              (Fixture.typed_payload "unregistered.type")
              (Fixture.sign (Fixture.typed_payload "unregistered.type")) "sha256"
              (Fixture.typed_data "unregistered.type") (Fixture.typed_event "unregistered.type")
              eq_refl eq_refl eq_refl "unregistered.type" eq_refl eq_refl)
    as (Hnever & Hremoved & _).
  split; [reflexivity|]. split; [apply Hnever; reflexivity | exact Hremoved].
Defined.

Lemma C2_default_handler_overwrites_event_witness :
  exists envelope,
    handle (rt := Fixture.runtime) Fixture.the_handler Fixture.fresh_payload
      (Fixture.sign Fixture.fresh_payload) "sha256"
    = (Return envelope, [Fixture.fresh_payload]) /\
    envelope = spread (success_fields (rt := Fixture.runtime) Fixture.fresh_event)
                 (handler_result "processed" (JString "license.created")) /\
    envelope !! "valid" = Some (JBool true) /\
    envelope !! "status" = Some (JString "processed") /\
    envelope !! "event" = Some (JString "license.created") /\
    envelope !! "event" <> Some (event_value (rt := Fixture.runtime) Fixture.fresh_event).
Proof.
  apply (C2_default_handler_overwrites_event (rt := Fixture.runtime) Fixture.the_handler
           Fixture.fresh_payload (Fixture.sign Fixture.fresh_payload) "sha256"
           Fixture.fresh_data Fixture.fresh_event
           eq_refl eq_refl eq_refl "whsec_test" "license.created").
  - reflexivity.
  - reflexivity.
  - simpl. auto.
  - reflexivity.
Defined.

(** * Further properties of the webhook verifier and handler *)

Section SignatureExtras.
Context {rt : Runtime}.

(** [secureCompare] (webhook-verifier.ts, 156-166) decides equality of
    non-empty strings: it returns true exactly when the two strings are the
    same string and not empty. *)
Theorem secureCompare_exact (a b : string) :
  secureCompare a b = true <-> a = b /\ a <> "".
Proof. apply secureCompare_true_iff. Qed.

Lemma generated_signature_nonempty (algorithm hash : string) :
  algorithm ++ "=" ++ hash <> "".
Proof. destruct algorithm; discriminate. Qed.

(** [verifySignature] returns true exactly on the string that
    [generateSignature] returns for the same payload and algorithm: there
    is at most one signature it accepts, and none when [generateSignature]
    throws. *)
Theorem verifySignature_accepts_exactly (this : WebhookVerifier)
    (payload signature algorithm : string) :
  (verifySignature this payload signature algorithm = Return true <->
   generateSignature this payload algorithm = Return signature) /\
  (forall signature',
      verifySignature this payload signature algorithm = Return true ->
      verifySignature this payload signature' algorithm = Return true ->
      signature' = signature).
Proof.
  assert (forall sig, verifySignature this payload sig algorithm = Return true <->
                      generateSignature this payload algorithm = Return sig) as Hiff.
  { intros sig. rewrite verifySignature_true_iff. split; [by intros [? _]|].
    intros H. split; [done|]. rewrite generateSignature_selected in H.
    destruct (selected_digest algorithm); [|discriminate].
    injection H as <-. apply generated_signature_nonempty. }
  split; [apply Hiff|].
  intros signature' H H'. apply Hiff in H, H'. congruence.
Qed.

End SignatureExtras.

Section DispatchExtras.
Context {rt : Runtime}.

Local Abbreviation Value := (JsValue number).
Local Abbreviation Event := (WebhookEvent number).

(** [handle] always returns an envelope, and it hands the payload to
    [JSON.parse] once when the signature verifies and never otherwise. *)
Theorem handle_parses_only_verified (this : WebhookHandler)
    (payload signature algorithm : string) :
  exists envelope,
    handle this payload signature algorithm
    = (Return envelope,
       match verifySignature (verifier this) payload signature algorithm with
       | Return true => [payload]
       | _ => []
       end).
Proof.
  pose proof (parsePayload_trace (verifier this) payload signature algorithm) as Htrace.
  destruct (handle_never_raises this payload signature algorithm) as (envelope & calls & H).
  exists envelope. rewrite H. f_equal. rewrite <- Htrace.
  rewrite handle_spec in H.
  destruct (parsePayload (verifier this) payload signature algorithm) as [[event|e] calls'].
  - destruct (verifyTimestamp event 300) as [[|]|e]; [|by injection H..].
    destruct (handleEvent this event); by injection H.
  - by injection H.
Qed.

(** An algorithm that is none of the three supported, or an empty
    signature, is answered like any wrong signature: the envelope carries
    the message Invalid webhook signature (the message of the
    unsupported-algorithm error is lost) and the payload is not parsed. *)
Theorem handle_unsupported_algorithm (this : WebhookHandler)
    (payload signature algorithm : string) :
  ~ In (toLowerCase algorithm) supported_algorithms \/ signature = "" ->
  handle this payload signature algorithm
  = (Return (failure_envelope "Invalid webhook signature"), []).
Proof.
  intros H. rewrite handle_spec, parsePayload_unverified; [reflexivity|].
  rewrite verifySignature_spec, generateSignature_selected.
  destruct H as [Hnot| ->].
  - destruct (selected_digest algorithm) eqn:Hsel; [|discriminate].
    exfalso. apply Hnot. apply selected_digest_supported. eauto.
  - destruct (selected_digest algorithm); discriminate.
Qed.

(** Registering a handler with [on], or removing one with [off], changes
    what [handle] does only for events of that type: on a payload that is
    rejected, or whose event has another type, the result is the same as
    before the call. *)
Theorem on_off_frame (this : WebhookHandler) (t : string) (handler : Handler)
    (payload signature algorithm : string) :
  (forall event calls,
      parsePayload (verifier this) payload signature algorithm = (Return event, calls) ->
      event_type event <> JString t) ->
  handle (on this t handler) payload signature algorithm
  = handle this payload signature algorithm /\
  handle (off this t) payload signature algorithm
  = handle this payload signature algorithm.
Proof.
  intros Hother. rewrite !handle_spec.
  change (verifier (on this t handler)) with (verifier this).
  change (verifier (off this t)) with (verifier this).
  destruct (parsePayload (verifier this) payload signature algorithm) as [[event|e] calls];
    [|done].
  specialize (Hother event calls eq_refl).
  assert (handleEvent (on this t handler) event = handleEvent this event
          /\ handleEvent (off this t) event = handleEvent this event) as [-> ->]; [|done].
  unfold handleEvent, Map_get. destruct (event_type event) as [| | | |s| |]; try done.
  assert (t <> s) by congruence. simpl.
  by rewrite lookup_insert_ne, lookup_delete_ne.
Qed.

End DispatchExtras.

Section VerifiedPayloadExtras.
Context {rt : Runtime}.

Local Abbreviation Value := (JsValue number).
Local Abbreviation Event := (WebhookEvent number).

Variable this : WebhookHandler.
Variables payload signature algorithm : string.
Variable data : Value.
Variable event : Event.

Hypothesis Hverified :
  verifySignature (verifier this) payload signature algorithm = Return true.
Hypothesis Hparsed : JSON_parse payload = inr data.
Hypothesis Hnormalized : extractEventData data = Return event.
Hypothesis Htimely : verifyTimestamp event 300 = Return true.

(** The envelope of a routed event is the result of the handler written
    over [{valid: true, event}]: every property of an object the handler
    returns is in the envelope, [valid] and [event] included when the
    result has them, and [valid: true] and the event record stand only
    where the result has no property of that name. A handler registered
    with [on] is the one that is called, whatever was registered before. *)
Theorem handle_merges_handler_result (t : string) (handler : Handler)
    (fields : gmap string Value) :
  event_type event = JString t ->
  handler event = Return (JObject fields) ->
  exists envelope,
    handle (on this t handler) payload signature algorithm = (Return envelope, [payload]) /\
    (forall name v, fields !! name = Some v -> envelope !! name = Some v) /\
    (fields !! "valid" = None -> envelope !! "valid" = Some (JBool true)) /\
    (fields !! "event" = None -> envelope !! "event" = Some (event_value event)) /\
    (forall name, name <> "valid" -> name <> "event" ->
                  envelope !! name = fields !! name).
Proof.
  intros Htype Hresult.
  exists (spread (success_fields event) (JObject fields)). split.
  - rewrite handle_spec.
    change (verifier (on this t handler)) with (verifier this).
    rewrite (parsePayload_event this payload signature algorithm data event) by done.
    rewrite Htimely.
    rewrite (handleEvent_registered (on this t handler) event t handler Htype)
      by apply lookup_insert_eq.
    by rewrite Hresult.
  - unfold spread, success_fields, own_properties. repeat split.
    + intros name v H. by apply lookup_union_Some_l.
    + intros H. by rewrite lookup_union_r, lookup_insert_eq.
    + intros H. by rewrite lookup_union_r, lookup_insert_ne, lookup_insert_eq.
    + intros name H1 H2.
      destruct (fields !! name) as [v|] eqn:Hv; [by apply lookup_union_Some_l|].
      by rewrite lookup_union_r, !lookup_insert_ne, lookup_empty.
Qed.

Lemma handle_untyped :
  (forall t, event_type event <> JString t) ->
  handle this payload signature algorithm
  = (Return (status_envelope "ignored" (event_type event)), [payload]).
Proof.
  intros Huntyped. rewrite handle_spec.
  rewrite (parsePayload_event this payload signature algorithm data event) by done.
  rewrite Htimely.
  assert (handleEvent this event = Return (handler_result "ignored" (event_type event)))
    as ->.
  { unfold handleEvent, Map_get.
    destruct (event_type event) as [| | | |s| |] eqn:Htype;
      try (simpl; unfold handleUnknownEvent; by rewrite Htype).
    by destruct (Huntyped s). }
  cbv beta iota. by rewrite spread_handler_result.
Qed.

(** An event whose type is not a string (a payload without [type] and
    [event], or with a number there) has no handler in any table: it goes to
    the unknown-event handler, and the envelope repeats the type as it
    is. *)
Theorem handle_untyped_event_ignored :
  (forall t, event_type event <> JString t) ->
  handle this payload signature algorithm
  = (Return (status_envelope "ignored" (event_type event)), [payload]).
Proof. apply handle_untyped. Qed.

(** After [clearHandlers] every event with a string type, the ten default
    types included, is answered by the unknown-event handler. *)
Theorem handle_after_clearHandlers (t : string) :
  event_type event = JString t ->
  handle (clearHandlers this) payload signature algorithm
  = (Return (status_envelope "ignored" (JString t)), [payload]).
Proof.
  intros Htype. rewrite handle_spec.
  change (verifier (clearHandlers this)) with (verifier this).
  rewrite (parsePayload_event this payload signature algorithm data event) by done.
  rewrite Htimely.
  rewrite (handleEvent_unregistered _ event t Htype) by apply lookup_empty.
  cbv beta iota. by rewrite spread_handler_result.
Qed.

End VerifiedPayloadExtras.

Section MoreExtras.
Context {rt : Runtime}.

Local Abbreviation Value := (JsValue number).
Local Abbreviation Event := (WebhookEvent number).

Lemma extractEventData_non_object (data : Value) :
  nullish data = false -> (forall fields, data <> JObject fields) ->
  extractEventData data = Return (mkWebhookEvent JUndefined JUndefined JUndefined (JObject ∅)).
Proof.
  intros Hnull Hobj. destruct data; try discriminate; try reflexivity.
  by destruct (Hobj fields).
Qed.

(** A correctly signed payload that is JSON but not an object (a number, a
    string, a boolean, an array) is not rejected: it is normalized to an
    event without id, type or timestamp, passes the timestamp check, and
    [handle] answers [{valid: true, status: ignored, event: undefined}]. *)
Theorem handle_accepts_non_object (this : WebhookHandler)
    (payload signature algorithm : string) (data : Value) :
  verifySignature (verifier this) payload signature algorithm = Return true ->
  JSON_parse payload = inr data ->
  nullish data = false ->
  (forall fields, data <> JObject fields) ->
  parsePayload (verifier this) payload signature algorithm
  = (Return (mkWebhookEvent JUndefined JUndefined JUndefined (JObject ∅)), [payload]) /\
  handle this payload signature algorithm
  = (Return (status_envelope "ignored" JUndefined), [payload]).
Proof.
  intros Hverified Hparsed Hnull Hobj.
  pose proof (extractEventData_non_object data Hnull Hobj) as Hevent.
  split.
  - by apply (parsePayload_event this payload signature algorithm data).
  - by apply (handle_untyped this payload signature algorithm data
                (mkWebhookEvent JUndefined JUndefined JUndefined (JObject ∅))).
Qed.

(** Both constructors refuse the empty secret with the error Webhook
    secret is required and accept every other one; a new handler object
    keeps the secret in its verifier and has a handler for exactly the ten
    default event types. *)
Theorem constructors_require_secret (s : string) :
  (s = "" ->
   WebhookVerifier_new s = Throw (WebhookVerificationError "Webhook secret is required") /\
   WebhookHandler_new s = Throw (WebhookVerificationError "Webhook secret is required")) /\
  (s <> "" ->
   WebhookVerifier_new s = Return (mkWebhookVerifier s) /\
   exists this,
     WebhookHandler_new s = Return this /\
     getVerifier this = mkWebhookVerifier s /\
     forall t, is_Some (handlers this !! t) <-> In t default_event_types).
Proof.
  split.
  - intros ->. split; reflexivity.
  - intros Hne. apply String.eqb_neq in Hne.
    unfold WebhookHandler_new, WebhookVerifier_new. rewrite Hne. split; [done|].
    eexists. split; [reflexivity|]. split; [reflexivity|]. intros t. simpl. split.
    + unfold setupDefaultHandlers, default_event_types.
      rewrite !lookup_insert, lookup_empty. simpl.
      repeat (case_decide; [subst; tauto|]). intros [? ?]; discriminate.
    + intros H. destruct (setupDefaultHandlers_lookup t H) as (handler & -> & _). eauto.
Qed.

(** The tolerance of [verifyTimestamp] is an inclusive bound that only
    widens: whatever a tolerance accepts every larger one accepts, a
    timestamp whose computed distance is exactly the tolerance is accepted,
    and under a negative tolerance every event with a truthy timestamp is
    rejected. *)
Theorem verifyTimestamp_tolerance (event : Event) (tolerance : JsNum) :
  (forall tolerance' : JsNum,
      (tolerance <=? tolerance')%float = true ->
      verifyTimestamp event tolerance = Return true ->
      verifyTimestamp event tolerance' = Return true) /\
  (forall t,
      truthy (event_createdAt event) = true ->
      Date_getTime (event_createdAt event) = Some t ->
      (Math_abs (num_div (num_sub (num_of_time (Some Date_now)) (num_of_time (Some t))) 1000)
       =? tolerance)%float = true ->
      verifyTimestamp event tolerance = Return true) /\
  ((tolerance <? 0)%float = true ->
   truthy (event_createdAt event) = true ->
   verifyTimestamp event tolerance = Return false).
Proof.
  destruct (truthy (event_createdAt event)) eqn:Htruthy.
  - rewrite !verifyTimestamp_truthy by done. repeat split.
    + intros tolerance' Hle. rewrite verifyTimestamp_truthy by done.
      intros [= H]. f_equal. unfold num_le in *. by apply (leb_trans _ tolerance).
    + intros t _ -> Heq. f_equal. by apply eqb_leb.
    + intros Hneg _. f_equal. by apply abs_above_negative.
  - repeat split; try discriminate.
    intros tolerance' _ _. by apply verifyTimestamp_falsy.
Qed.

End MoreExtras.

(** ** The order of the table *)

Section TableOrder.
Context {rt : Runtime}.

Lemma elem_of_keys_set (keys : list string) key t :
  t ∈ keys_set keys key <-> t = key \/ t ∈ keys.
Proof.
  unfold keys_set. case_bool_decide as Hin.
  - split; [by right | intros [->|]; done].
  - rewrite elem_of_app, list_elem_of_singleton. tauto.
Qed.

Lemma NoDup_keys_set (keys : list string) key : NoDup keys -> NoDup (keys_set keys key).
Proof.
  intros H. unfold keys_set. case_bool_decide as Hin; [done|].
  apply NoDup_app. split; [done|]. split.
  - intros x Hx Hx'. apply list_elem_of_singleton in Hx'. by subst.
  - apply NoDup_singleton.
Qed.

Lemma keys_agree_call (o : OrderedHandler) (c : RegistryCall) :
  keys_agree o -> keys_agree (registry_call o c).
Proof.
  intros [Hnodup Hkeys]. destruct c as [t handler|t|]; split; simpl.
  - by apply NoDup_keys_set.
  - intros t'. unfold getHandlers in *. simpl.
    rewrite elem_of_keys_set, Hkeys, lookup_insert. case_decide; subst.
    + split; [eauto | by left].
    + split; [intros [->|]; done | by right].
  - by apply NoDup_filter.
  - intros t'. unfold getHandlers, keys_delete in *. simpl.
    rewrite list_elem_of_filter, Hkeys, lookup_delete. case_decide; subst.
    + split; [by intros [? _] | by intros [? ?]].
    + split; [by intros [_ ?] | intros ?; split; [congruence | done]].
  - apply NoDup_nil_2.
  - intros t'. unfold getHandlers. simpl. rewrite lookup_empty.
    split; [by intros ?%elem_of_nil | by intros [? ?]].
Qed.

Lemma keys_agree_calls (calls : list RegistryCall) (o : OrderedHandler) :
  keys_agree o -> keys_agree (registry_calls o calls).
Proof.
  revert o. induction calls as [|c calls IH]; intros o H; simpl; [done|].
  apply IH. by apply keys_agree_call.
Qed.

Lemma keys_agree_new (s : string) (o : OrderedHandler) :
  OrderedHandler_new s = Return o ->
  getHandlers o = default_event_types /\ keys_agree o.
Proof.
  unfold OrderedHandler_new, WebhookHandler_new.
  destruct (WebhookVerifier_new s) as [v|e]; [|discriminate]. simpl. intros [= <-].
  split; [reflexivity|]. split.
  - unfold getHandlers. simpl. apply (bool_decide_unpack _). by vm_compute.
  - intros t. unfold getHandlers. simpl.
    change (setupDefaultKeys []) with default_event_types.
    rewrite list_elem_of_In. split.
    + intros H. destruct (setupDefaultHandlers_lookup t H) as (handler & -> & _). eauto.
    + unfold setupDefaultHandlers, default_event_types.
      rewrite !lookup_insert, lookup_empty. simpl.
      repeat (case_decide; [subst; tauto|]). intros [? ?]; discriminate.
Qed.

(** [getHandlers] on a new handler object lists the ten default types in
    the order they are registered; and after any sequence of [on], [off]
    and [clearHandlers] calls it lists every type once, and a type is
    listed exactly when the table has a handler for it (an event of that
    type is not left to the unknown-event handler). *)
Theorem getHandlers_lists_the_table (s : string) (o : OrderedHandler)
    (calls : list RegistryCall) :
  OrderedHandler_new s = Return o ->
  getHandlers o = default_event_types /\
  NoDup (getHandlers (registry_calls o calls)) /\
  forall t,
    t ∈ getHandlers (registry_calls o calls) <->
    is_Some (handlers (ordered_this (registry_calls o calls)) !! t).
Proof.
  intros Hnew. destruct (keys_agree_new s o Hnew) as [Hfresh Hagree].
  split; [done|]. by apply keys_agree_calls.
Qed.

(** [on] keeps the place of a type that is listed and puts a new type
    last, so that a type registered again after [off] moves to the end. *)
Lemma getHandlers_order (o : OrderedHandler) (t : string) (handler : Handler) :
  (t ∈ getHandlers o -> getHandlers (ordered_on o t handler) = getHandlers o) /\
  (t ∉ getHandlers o ->
   getHandlers (ordered_on o t handler) = (getHandlers o ++ [t])%list) /\
  getHandlers (ordered_on (ordered_off o t) t handler)
  = (filter (fun k => k ≠ t) (getHandlers o) ++ [t])%list.
Proof.
  unfold getHandlers. simpl. unfold keys_set, keys_delete. repeat split.
  - intros H. by rewrite bool_decide_eq_true_2.
  - intros H. by rewrite bool_decide_eq_false_2.
  - rewrite bool_decide_eq_false_2; [done|].
    rewrite list_elem_of_filter. by intros [? _].
Qed.

End TableOrder.

(** ** The further properties on concrete payloads *)

Lemma handle_unsupported_algorithm_witness :
  handle (rt := Fixture.runtime) Fixture.the_handler Fixture.fresh_payload
    ("md5=" ++ Fixture.keyed_hex "256" Fixture.fresh_payload "whsec_test") "md5"
  = (Return (failure_envelope "Invalid webhook signature"), []).
Proof.
  apply (handle_unsupported_algorithm (rt := Fixture.runtime)). left.
  simpl. intros [H|[H|[H|[]]]]; discriminate.
Defined.

Lemma on_off_frame_witness :
  handle (rt := Fixture.runtime) (on Fixture.the_handler "x" Fixture.failing)
    Fixture.fresh_payload (Fixture.sign Fixture.fresh_payload) "sha256"
  = handle (rt := Fixture.runtime) Fixture.the_handler
      Fixture.fresh_payload (Fixture.sign Fixture.fresh_payload) "sha256" /\
  handle (rt := Fixture.runtime) (off Fixture.the_handler "x")
    Fixture.fresh_payload (Fixture.sign Fixture.fresh_payload) "sha256"
  = handle (rt := Fixture.runtime) Fixture.the_handler
      Fixture.fresh_payload (Fixture.sign Fixture.fresh_payload) "sha256".
Proof.
  apply (on_off_frame (rt := Fixture.runtime)).
  intros event calls H. vm_compute in H. injection H as <- _. discriminate.
Defined.

Lemma handle_merges_handler_result_witness :
  exists envelope,
    handle (rt := Fixture.runtime) (on Fixture.the_handler "license.created" Samples.overriding)
      Fixture.fresh_payload (Fixture.sign Fixture.fresh_payload) "sha256"
    = (Return envelope, [Fixture.fresh_payload]) /\
    envelope !! "valid" = Some (JBool false) /\
    envelope !! "event" = Some (event_value (rt := Fixture.runtime) Fixture.fresh_event).
Proof.
  destruct (handle_merges_handler_result (rt := Fixture.runtime) Fixture.the_handler
              Fixture.fresh_payload (Fixture.sign Fixture.fresh_payload) "sha256"
              Fixture.fresh_data Fixture.fresh_event eq_refl eq_refl eq_refl eq_refl
              "license.created" Samples.overriding Samples.overriding_fields
              eq_refl eq_refl)
    as (envelope & Hhandle & Hfields & _ & Hevent & _).
  exists envelope. split; [exact Hhandle|]. split.
  - apply Hfields. reflexivity.
  - apply Hevent. reflexivity.
Defined.

Lemma handle_untyped_event_ignored_witness :
  handle (rt := Fixture.runtime) Fixture.the_handler "{}" (Fixture.sign "{}") "sha256"
  = (Return (status_envelope "ignored" JUndefined), ["{}"]).
Proof.
  apply (handle_untyped_event_ignored (rt := Fixture.runtime) Fixture.the_handler
           "{}" (Fixture.sign "{}") "sha256" (JObject ∅) Samples.empty_event
           eq_refl eq_refl eq_refl eq_refl).
  intros t. discriminate.
Defined.

Lemma handle_after_clearHandlers_witness :
  handle (rt := Fixture.runtime) (clearHandlers Fixture.the_handler)
    Fixture.fresh_payload (Fixture.sign Fixture.fresh_payload) "sha256"
  = (Return (status_envelope "ignored" (JString "license.created")), [Fixture.fresh_payload]).
Proof.
  apply (handle_after_clearHandlers (rt := Fixture.runtime) Fixture.the_handler
           Fixture.fresh_payload (Fixture.sign Fixture.fresh_payload) "sha256"
           Fixture.fresh_data Fixture.fresh_event eq_refl eq_refl eq_refl eq_refl
           "license.created" eq_refl).
Defined.

Lemma handle_accepts_non_object_witness :
  parsePayload (rt := Fixture.runtime) Fixture.the_verifier "true" (Fixture.sign "true") "sha256"
  = (Return Samples.empty_event, ["true"]) /\
  handle (rt := Fixture.runtime) Fixture.the_handler "true" (Fixture.sign "true") "sha256"
  = (Return (status_envelope "ignored" JUndefined), ["true"]).
Proof.
  apply (handle_accepts_non_object (rt := Fixture.runtime) Fixture.the_handler
           "true" (Fixture.sign "true") "sha256" (JBool true) eq_refl eq_refl eq_refl).
  intros fields. discriminate.
Defined.

Lemma getHandlers_lists_the_table_witness :
  getHandlers Samples.fresh_ordered = default_event_types /\
  NoDup (getHandlers (registry_calls Samples.fresh_ordered
                        [CallOff "app.created"; CallOn "x" Fixture.failing;
                         CallOn "app.created" Fixture.failing])) /\
  forall t,
    t ∈ getHandlers (registry_calls Samples.fresh_ordered
                       [CallOff "app.created"; CallOn "x" Fixture.failing;
                        CallOn "app.created" Fixture.failing]) <->
    is_Some (handlers (ordered_this (registry_calls Samples.fresh_ordered
                       [CallOff "app.created"; CallOn "x" Fixture.failing;
                        CallOn "app.created" Fixture.failing])) !! t).
Proof.
  apply (getHandlers_lists_the_table (rt := Fixture.runtime) "whsec_test").
  reflexivity.
Defined.

Example getHandlers_after_calls :
  getHandlers (registry_calls Samples.fresh_ordered
                 [CallOff "app.created"; CallOn "x" Fixture.failing;
                  CallOn "app.created" Fixture.failing])
  = ["license.created"; "license.updated"; "license.revoked"; "license.expired";
     "license.validated"; "app.updated"; "app.deleted"; "user.created"; "user.updated";
     "x"; "app.created"].
Proof. reflexivity. Qed.

(** * exceptions.ts *)

Section ExceptionFacts.
Context {rt : Runtime}.
Import Exceptions.

Local Abbreviation Value := (JsValue number).

Variable ToString : Value -> string.

Lemma createErrorFromResponse_class (status : Z) (msg cd dt : Value) :
  class (createErrorFromResponse ToString status msg cd dt) =
  if decide (status = 401 \/ status = 403)%Z then AuthenticationError
  else if decide (status = 404)%Z then NotFoundError
  else if decide (status = 429)%Z then RateLimitError
  else if decide (status = 408)%Z then TimeoutError
  else if decide (400 <= status < 500)%Z then ValidationError
  else if decide (500 <= status)%Z then ServerError
  else LicenseChainException.
Proof.
  unfold createErrorFromResponse.
  repeat match goal with
         | |- context [(?a =? ?b)%Z] => destruct (Z.eqb_spec a b); try lia
         | |- context [(?a <=? ?b)%Z] => destruct (Z.leb_spec a b); try lia
         | |- context [(?a <? ?b)%Z] => destruct (Z.ltb_spec a b); try lia
         end; simpl; repeat case_decide; try lia; reflexivity.
Qed.

Lemma createErrorFromResponse_fields (status : Z) (msg cd dt : Value) :
  createErrorFromResponse ToString status msg cd dt
  = construct ToString
      (class (createErrorFromResponse ToString status msg cd dt))
      msg cd (Some status) dt.
Proof.
  unfold createErrorFromResponse.
  repeat match goal with
         | |- context [if ?b then _ else _] => destruct b
         end; reflexivity.
Qed.

(** [createErrorFromResponse] classifies by the status alone and copies
    the rest: 401 and 403 give an AuthenticationError, 404 a NotFoundError,
    429 a RateLimitError, 408 a TimeoutError, every other status from 400
    to 499 a ValidationError, every status from 500 up a ServerError, and
    a status below 400 the base LicenseChainException. The instance carries
    the status, the code and the details it was given, the message (the
    default message of its class when none was given), and no rate-limit
    figures even when it is a RateLimitError. *)
Theorem createErrorFromResponse_classifies (status : Z) (msg cd dt : Value) :
  exists e,
    createErrorFromResponse ToString status msg cd dt = e /\
    ((status = 401 \/ status = 403)%Z -> class e = AuthenticationError) /\
    (status = 404%Z -> class e = NotFoundError) /\
    (status = 429%Z -> class e = RateLimitError) /\
    (status = 408%Z -> class e = TimeoutError) /\
    ((400 <= status < 500)%Z -> ~ In status [401; 403; 404; 408; 429]%Z ->
     class e = ValidationError) /\
    ((500 <= status)%Z -> class e = ServerError) /\
    ((status < 400)%Z -> class e = LicenseChainException) /\
    name e = class_name (class e) /\
    message e = match msg with
                | JUndefined => default_message (class e)
                | JString s => s
                | _ => ToString msg
                end /\
    statusCode e = Some status /\ code e = cd /\ details e = dt /\
    retryAfter e = JUndefined /\ limit e = JUndefined /\
    remaining e = JUndefined /\ reset e = JUndefined.
Proof.
  eexists. split; [reflexivity|].
  rewrite createErrorFromResponse_fields. simpl.
  rewrite createErrorFromResponse_class.
  repeat split; intros; repeat case_decide; try lia; reflexivity.
Qed.

Lemma isRetryableError_created (status : Z) (msg cd dt : Value) :
  isRetryableError (Instance (createErrorFromResponse ToString status msg cd dt)) = true
  <-> (status = 408 \/ status = 429 \/ 500 <= status)%Z.
Proof.
  unfold isRetryableError, isLicenseChainError, instanceof.
  rewrite createErrorFromResponse_class. simpl.
  repeat case_decide; simpl; repeat split; try done; try lia; intros; try lia.
Qed.

(** An error made by [createErrorFromResponse] is retryable exactly for
    the statuses 408, 429 and 500 and above; it is never a NetworkError;
    and a value that is no instance of the classes is not retryable. *)
Theorem isRetryableError_statuses (status : Z) (msg cd dt : Value)
    (thrown : JsThrown) :
  (isRetryableError (Instance (createErrorFromResponse ToString status msg cd dt))
   = true <-> (status = 408 \/ status = 429 \/ 500 <= status)%Z) /\
  class (createErrorFromResponse ToString status msg cd dt) <> NetworkError /\
  isRetryableError (Foreign thrown) = false.
Proof.
  unfold isRetryableError, isLicenseChainError, instanceof.
  rewrite createErrorFromResponse_class. simpl.
  repeat case_decide; simpl; repeat split; try done; try lia; intros; try lia.
Qed.

End ExceptionFacts.

(** * client.ts *)

Section ClientFacts.
Context {rt : Runtime}.
Import Client.

Local Abbreviation Value := (JsValue number).

Variable ToString : Value -> string.

(** The constructor refuses a configuration whose [apiKey] is missing,
    [undefined] or empty with the error API key is required. Otherwise the
    client keeps the caller's properties, the defaults for those left out
    (https://api.licensechain.app, 30000 ms, 3 retries, 1000 ms), and an
    axios instance that sends what the configuration says. *)
Theorem constructor_defaults (given : LicenseChainConfig) :
  (truthy_string (read (apiKey given)) = false ->
   exists e,
     LicenseChainClient_new ToString given = inl e /\
     Exceptions.class e = Exceptions.LicenseChainException /\
     Exceptions.message e = "API key is required") /\
  (truthy_string (read (apiKey given)) = true ->
   exists this,
     LicenseChainClient_new ToString given = inr this /\
     in_step this /\
     stored_apiKey (getConfig this) = read (apiKey given) /\
     (baseUrl given = Absent ->
      stored_baseUrl (getConfig this) = Some "https://api.licensechain.app") /\
     (timeout given = Absent -> stored_timeout (getConfig this) = Some 30000%Z) /\
     (retryAttempts given = Absent -> stored_retryAttempts (getConfig this) = Some 3%Z) /\
     (retryDelay given = Absent -> stored_retryDelay (getConfig this) = Some 1000%Z) /\
     (baseUrl given <> Absent -> stored_baseUrl (getConfig this) = read (baseUrl given)) /\
     (timeout given <> Absent -> stored_timeout (getConfig this) = read (timeout given)) /\
     (retryAttempts given <> Absent ->
      stored_retryAttempts (getConfig this) = read (retryAttempts given)) /\
     (retryDelay given <> Absent ->
      stored_retryDelay (getConfig this) = read (retryDelay given))).
Proof.
  unfold LicenseChainClient_new. split; intros H; rewrite H; simpl.
  - eexists. split; [reflexivity|]. split; reflexivity.
  - eexists. split; [reflexivity|]. split; [by repeat split|]. simpl.
    repeat split; try (intros ->; reflexivity).
    + by destruct (baseUrl given).
    + by destruct (timeout given).
    + by destruct (retryAttempts given).
    + by destruct (retryDelay given).
Qed.

Lemma updateConfig_keeps_step (this : LicenseChainClient) (newConfig : LicenseChainConfig) :
  in_step this ->
  (apiKey newConfig = Absent \/ truthy_string (read (apiKey newConfig)) = true) ->
  (baseUrl newConfig = Absent \/ truthy_string (read (baseUrl newConfig)) = true) ->
  (timeout newConfig = Absent \/ truthy_number (read (timeout newConfig)) = true) ->
  in_step (updateConfig this newConfig).
Proof.
  intros (Hkey & Hurl & Htime) Hk Hu Ht. unfold in_step, updateConfig. simpl.
  destruct (truthy_string (read (apiKey newConfig))) eqn:Ek;
    destruct (truthy_string (read (baseUrl newConfig))) eqn:Eu;
    destruct (truthy_number (read (timeout newConfig))) eqn:Et; simpl;
    destruct Hk as [Hk|Hk]; destruct Hu as [Hu|Hu]; destruct Ht as [Ht|Ht];
    try discriminate;
    try (rewrite Hk in * ); try (rewrite Hu in * ); try (rewrite Ht in * );
    try discriminate; simpl;
    repeat split; try done;
    try (by destruct (apiKey newConfig)); try (by destruct (baseUrl newConfig));
    try (by destruct (timeout newConfig)).
Qed.

(** A new client has an axios instance that sends what its configuration
    says (the Authorization header of the key, the base URL, the timeout),
    and [updateConfig] keeps the two in step as long as each of [apiKey],
    [baseUrl] and [timeout] is left out or given a truthy value. *)
Theorem updateConfig_in_step (given newConfig : LicenseChainConfig)
    (this : LicenseChainClient) :
  LicenseChainClient_new ToString given = inr this ->
  (apiKey newConfig = Absent \/ truthy_string (read (apiKey newConfig)) = true) ->
  (baseUrl newConfig = Absent \/ truthy_string (read (baseUrl newConfig)) = true) ->
  (timeout newConfig = Absent \/ truthy_number (read (timeout newConfig)) = true) ->
  in_step this /\ in_step (updateConfig this newConfig).
Proof.
  intros Hnew Hk Hu Ht.
  assert (in_step this) as Hstep.
  { unfold LicenseChainClient_new in Hnew.
    destruct (negb (truthy_string (read (apiKey given)))); [discriminate|].
    injection Hnew as <-. by repeat split. }
  split; [done|]. by apply updateConfig_keeps_step.
Qed.

(** A falsy value passed to [updateConfig] (an empty [apiKey] or
    [baseUrl], a [timeout] of zero, an explicit [undefined]) is written to
    the configuration that [getConfig] reports and not to the axios
    instance, which keeps sending the header, base URL or timeout it had. *)
Theorem updateConfig_falsy_diverges (this : LicenseChainClient)
    (newConfig : LicenseChainConfig) :
  (truthy_string (read (apiKey newConfig)) = false ->
   header_Authorization (axiosInstance (updateConfig this newConfig))
   = header_Authorization (axiosInstance this) /\
   stored_apiKey (getConfig (updateConfig this newConfig))
   = overwrite (stored_apiKey (getConfig this)) (apiKey newConfig)) /\
  (truthy_string (read (baseUrl newConfig)) = false ->
   axios_baseURL (axiosInstance (updateConfig this newConfig))
   = axios_baseURL (axiosInstance this) /\
   stored_baseUrl (getConfig (updateConfig this newConfig))
   = overwrite (stored_baseUrl (getConfig this)) (baseUrl newConfig)) /\
  (truthy_number (read (timeout newConfig)) = false ->
   axios_timeout (axiosInstance (updateConfig this newConfig))
   = axios_timeout (axiosInstance this) /\
   stored_timeout (getConfig (updateConfig this newConfig))
   = overwrite (stored_timeout (getConfig this)) (timeout newConfig)).
Proof.
  unfold updateConfig, getConfig. simpl.
  repeat split; try done;
    destruct (truthy_string (read (apiKey newConfig)));
    destruct (truthy_string (read (baseUrl newConfig)));
    destruct (truthy_number (read (timeout newConfig))); try done.
Qed.

Example updateConfig_timeout_zero :
  stored_timeout (getConfig (updateConfig Samples.the_client
     (mkConfig Absent Absent (Given 0%Z) Absent Absent))) = Some 0%Z /\
  axios_timeout (axiosInstance (updateConfig Samples.the_client
     (mkConfig Absent Absent (Given 0%Z) Absent Absent))) = Some 30000%Z.
Proof. split; reflexivity. Qed.



(** A request that got no response (a network failure or a timeout of the
    connection) is not sent again, whatever the configuration: the call is
    rejected at once with a LicenseChainException of code NETWORK_ERROR,
    which [isRetryableError] does not count as retryable. The same holds
    for a response with a status below 500 other than 408 and 429. *)
Theorem call_fails_at_once (this : LicenseChainClient) (transport : nat -> Reply)
    (f : Failure) :
  transport 0 = Failed f ->
  match f with
  | HttpFailure status _ _ => (status < 500 /\ status <> 408 /\ status <> 429)%Z
  | _ => True
  end ->
  call ToString this transport = Some (Rejected (failure_error ToString f), []) /\
  (forall message code,
      f = NoResponse message code ->
      Exceptions.class (failure_error ToString f) = Exceptions.LicenseChainException /\
      Exceptions.message (failure_error ToString f) = "Network error" /\
      Exceptions.code (failure_error ToString f) = JString "NETWORK_ERROR" /\
      Exceptions.isRetryableError (Exceptions.Instance (failure_error ToString f)) = false).
Proof.
  intros Hreply Hkind. split; [|by intros message code ->].
  assert (retryable ToString f = false) as Hno.
  { destruct f as [status data message| |]; try done. simpl.
    destruct (Exceptions.isRetryableError _) eqn:H; [|done].
    apply (isRetryableError_created ToString) in H. lia. }
  unfold call.
  destruct (Z.to_nat _); simpl; by rewrite Hreply, Hno.
Qed.

End ClientFacts.

(** * license-validator.ts *)

Section ValidatorFacts.
Context {rt : Runtime}.
Import Validator.

Local Abbreviation Value := (JsValue number).

Lemma licensed_reads (settled : ClientOutcome) (expiresAt : Value) :
  licensed settled expiresAt ->
  isExpired settled
  = (if negb (truthy expiresAt) then false
     else date_before (Date_getTime expiresAt) Date_now) /\
  getDaysUntilExpiration settled
  = (if negb (truthy expiresAt) then DaysNull
     else days_left (Date_getTime expiresAt) Date_now).
Proof.
  intros (result & valid & license & -> & Hvalid & Htv & Hlicense & Htl & Hexp).
  unfold isExpired, getDaysUntilExpiration. simpl.
  rewrite Hvalid. simpl. rewrite Htv. simpl. rewrite Hlicense. simpl.
  rewrite Htl. simpl. rewrite Hexp. simpl.
  by destruct (truthy expiresAt).
Qed.

(** The ceiling of a difference in milliseconds, in days. *)
Lemma ceiling_days (diff : Z) :
  let days := Qceiling (inject_Z diff / inject_Z (1000 * 60 * 60 * 24)) in
  ((days - 1) * 86400000 < diff <= days * 86400000)%Z.
Proof.
  intros days.
  pose proof (Qle_ceiling (inject_Z diff / inject_Z (1000 * 60 * 60 * 24))) as Hle.
  pose proof (Qceiling_lt (inject_Z diff / inject_Z (1000 * 60 * 60 * 24))) as Hlt.
  fold days in Hle, Hlt.
  unfold Qle, Qlt, Qdiv, Qmult, Qinv, inject_Z in *. simpl in *. lia.
Qed.

(** For a valid result whose license carries a truthy [expiresAt] that
    parses, [isExpired] and [getDaysUntilExpiration] agree: the license is
    expired exactly when its expiry lies before the current time; the days
    are the difference rounded up to whole days and never negative, zero
    exactly when the expiry is not after the current time; so an expired
    license has zero days left. *)
Theorem expiry_consistent (settled : ClientOutcome) (expiresAt : Value) (t : Z) :
  licensed settled expiresAt ->
  truthy expiresAt = true ->
  Date_getTime expiresAt = Some t ->
  isExpired settled = (t <? Date_now)%Z /\
  exists days,
    getDaysUntilExpiration settled = DaysNumber days /\
    (0 <= days)%Z /\
    (days = 0 <-> t <= Date_now)%Z /\
    ((Date_now < t)%Z ->
     ((days - 1) * 86400000 < t - Date_now <= days * 86400000)%Z) /\
    (isExpired settled = true -> days = 0%Z).
Proof.
  intros Hlicensed Htruthy Htime.
  destruct (licensed_reads settled expiresAt Hlicensed) as [-> ->].
  rewrite Htruthy, Htime. simpl. split; [done|].
  pose proof (ceiling_days (t - Date_now)) as Hceil. simpl in Hceil.
  eexists. split; [reflexivity|].
  repeat split; lia.
Qed.

(** Without a usable expiry the two functions do not agree on a default.
    A truthy [expiresAt] that does not parse gives not expired and [NaN]
    days; a license without [expiresAt] gives not expired and [null]; a
    rejected call, or a result [null], gives expired and [null], with
    [isValid] false and no license information. *)
Theorem expiry_without_date (settled : ClientOutcome) (expiresAt : Value)
    (error : Exceptions.Caught) :
  (licensed settled expiresAt -> truthy expiresAt = true ->
   Date_getTime expiresAt = None ->
   isExpired settled = false /\ getDaysUntilExpiration settled = DaysNaN) /\
  (licensed settled expiresAt -> truthy expiresAt = false ->
   isExpired settled = false /\ getDaysUntilExpiration settled = DaysNull) /\
  (isExpired (Rejected error) = true /\
   getDaysUntilExpiration (Rejected error) = DaysNull /\
   isValid (Rejected error) = JBool false /\
   getLicenseInfo (Rejected error) = JNull) /\
  (isExpired (Fulfilled JNull) = true /\
   getDaysUntilExpiration (Fulfilled JNull) = DaysNull /\
   isValid (Fulfilled JNull) = JBool false /\
   getLicenseInfo (Fulfilled JNull) = JNull).
Proof.
  split; [|split; [|split]].
  - intros Hlicensed Htruthy Htime.
    destruct (licensed_reads settled expiresAt Hlicensed) as [-> ->].
    by rewrite Htruthy, Htime.
  - intros Hlicensed Htruthy.
    destruct (licensed_reads settled expiresAt Hlicensed) as [-> ->].
    by rewrite Htruthy.
  - repeat split.
  - repeat split.
Qed.

End ValidatorFacts.

Section RulesFacts.
Context {rt : Runtime}.
Import Validator.

Local Abbreviation Value := (JsValue number).

Variable ToString : Value -> string.
Variable ToNumber : Value -> option Q.
Variable not_a_function : Value -> string -> string.

Local Abbreviation validateWithRules :=
  (Validator.validateWithRules ToString ToNumber not_a_function).

Lemma filter_not_allowed_strings (fs allowed : list string) :
  filter_not_allowed not_a_function (JArray (JString <$> fs)) allowed
  = Return (JString <$> filter (fun f => f ∉ allowed) fs).
Proof.
  unfold filter_not_allowed. f_equal.
  induction fs as [|f fs IH]; [done|].
  rewrite filter_cons, fmap_cons. cbn [List.filter rule_includes].
  destruct (decide (f ∈ allowed)) as [Hin|Hout].
  - rewrite bool_decide_eq_true_2 by done. rewrite decide_False by tauto. exact IH.
  - rewrite bool_decide_eq_false_2 by done. rewrite decide_True by done.
    cbn [negb]. rewrite fmap_cons. f_equal. exact IH.
Qed.

Lemma element_text_strings (fs : list string) :
  element_text ToString <$> (JString <$> fs) = fs.
Proof. induction fs as [|f fs IH]; [done|]. rewrite !fmap_cons. by rewrite IH. Qed.

Lemma features_include_strings (fs : list string) (feature : string) :
  features_include not_a_function (JArray (JString <$> fs)) feature
  = Return (bool_decide (feature ∈ fs)).
Proof.
  unfold features_include. f_equal.
  induction fs as [|f fs IH]; [done|]. rewrite fmap_cons. cbn [existsb]. rewrite IH.
  destruct (String.eqb_spec f feature) as [->|Hne]; simpl.
  - by rewrite bool_decide_eq_true_2 by left.
  - apply bool_decide_ext. rewrite elem_of_cons. split; [by right|].
    intros [->|]; done.
Qed.

Lemma filter_missing_strings (fs required : list string) :
  filter_missing not_a_function (JArray (JString <$> fs)) required
  = Return (filter (fun f => f ∉ fs) required).
Proof.
  induction required as [|r required IH]; [done|].
  cbn [filter_missing]. rewrite features_include_strings, IH. simpl.
  rewrite filter_cons. case_bool_decide.
  - by rewrite decide_False by tauto.
  - by rewrite decide_True.
Qed.

Lemma length_positive {A} (l : list A) : (0 <? length l)%nat = negb (bool_decide (l = [])).
Proof. by destruct l. Qed.

Lemma allowed_features_rule_strings (rules : LicenseValidationRules) (license : Value)
    (fs : list string) :
  optional license "features" = Return (JArray (JString <$> fs)) ->
  allowed_features_rule ToString not_a_function rules license
  = Return match allowedFeatures rules with
           | Some a =>
               if bool_decide (filter (fun f => f ∉ a) fs = []) then None
               else Some ("Invalid features: " ++ join (filter (fun f => f ∉ a) fs))
           | None => None
           end.
Proof.
  intros Hfeatures. unfold allowed_features_rule.
  destruct (allowedFeatures rules) as [a|]; [|done].
  rewrite Hfeatures. cbn [mbind Outcome_bind truthy].
  rewrite filter_not_allowed_strings. cbn [mbind Outcome_bind].
  rewrite length_fmap, length_positive, element_text_strings.
  by case_bool_decide.
Qed.

Lemma required_features_rule_strings (rules : LicenseValidationRules) (license : Value)
    (fs : list string) :
  optional license "features" = Return (JArray (JString <$> fs)) ->
  required_features_rule not_a_function rules license
  = Return match requiredFeatures rules with
           | Some r =>
               if bool_decide (filter (fun f => f ∉ fs) r = []) then None
               else Some ("Missing required features: " ++ join (filter (fun f => f ∉ fs) r))
           | None => None
           end.
Proof.
  intros Hfeatures. unfold required_features_rule.
  destruct (requiredFeatures rules) as [r|]; [|done].
  rewrite Hfeatures. cbn [mbind Outcome_bind truthy].
  rewrite filter_missing_strings. cbn [mbind Outcome_bind].
  rewrite length_positive. by case_bool_decide.
Qed.

(** With only feature rules given and a license whose [features] is an
    array of strings: the allowed-features rule is checked first and
    refuses with the features that are not allowed, in their order; the
    required-features rule then refuses with the required features the
    license lacks; and the result comes back unchanged exactly when every
    feature of the license is allowed and every required one is there. *)
Theorem validateWithRules_features (result license : Value) (fs : list string)
    (allowed required : option (list string)) (concurrent : option Z) :
  (exists valid, get_field result "valid" = Return valid /\ truthy valid = true) ->
  get_field result "license" = Return license ->
  optional license "features" = Return (JArray (JString <$> fs)) ->
  exists invalid missing,
    invalid = match allowed with
              | Some a => filter (fun f => f ∉ a) fs
              | None => []
              end /\
    missing = match required with
              | Some r => filter (fun f => f ∉ fs) r
              | None => []
              end /\
    validateWithRules (Fulfilled result)
      (Some (mkRules None allowed required concurrent None None))
    = Return (if negb (bool_decide (invalid = [])) then
                refused result ("Invalid features: " ++ join invalid)
              else if negb (bool_decide (missing = [])) then
                refused result ("Missing required features: " ++ join missing)
              else result) /\
    (invalid = [] <-> forall a, allowed = Some a -> forall f, f ∈ fs -> f ∈ a) /\
    (missing = [] <-> forall r, required = Some r -> forall f, f ∈ r -> f ∈ fs).
Proof.
  intros (valid & Hvalid & Htruthy) Hlicense Hfeatures.
  eexists _, _. split; [reflexivity|]. split; [reflexivity|]. split; [|split].
  - unfold Validator.validateWithRules, validateLicense.
    rewrite Hvalid. cbn [mbind Outcome_bind]. rewrite Htruthy. cbn [negb].
    rewrite Hlicense. cbn [mbind Outcome_bind first_error].
    rewrite (allowed_features_rule_strings _ license fs Hfeatures).
    rewrite (required_features_rule_strings _ license fs Hfeatures).
    cbn [usage_rule maxUsage truthy_rule allowedFeatures requiredFeatures
         allowedDomains allowedIPs metadata_rule mbind Outcome_bind].
    destruct allowed as [a|]; destruct required as [r|];
      repeat (case_bool_decide; cbn [negb mbind Outcome_bind]); done.
  - destruct allowed as [a|]; [|split; [intros _ ? [=] | done]].
    split.
    + intros Hnil a' [= <-] f Hf. destruct (decide (f ∈ a)) as [|Hout]; [done|].
      assert (f ∈ filter (fun f => f ∉ a) fs) as Hin by (by apply list_elem_of_filter).
      rewrite Hnil in Hin. by apply elem_of_nil in Hin.
    + intros Hall. specialize (Hall a eq_refl).
      destruct (filter (fun f => f ∉ a) fs) as [|f rest] eqn:Hfilter; [done|].
      assert (f ∈ filter (fun f => f ∉ a) fs) as Hin by (rewrite Hfilter; left).
      apply list_elem_of_filter in Hin as [Hout Hin]. by destruct Hout; apply Hall.
  - destruct required as [r|]; [|split; [intros _ ? [=] | done]].
    split.
    + intros Hnil r' [= <-] f Hf. destruct (decide (f ∈ fs)) as [|Hout]; [done|].
      assert (f ∈ filter (fun f => f ∉ fs) r) as Hin by (by apply list_elem_of_filter).
      rewrite Hnil in Hin. by apply elem_of_nil in Hin.
    + intros Hall. specialize (Hall r eq_refl).
      destruct (filter (fun f => f ∉ fs) r) as [|f rest] eqn:Hfilter; [done|].
      assert (f ∈ filter (fun f => f ∉ fs) r) as Hin by (rewrite Hfilter; left).
      apply list_elem_of_filter in Hin as [Hout Hin]. by destruct Hout; apply Hall.
Qed.

Lemma validateWithRules_valid (result valid license : Value)
    (rules : LicenseValidationRules) :
  get_field result "valid" = Return valid -> truthy valid = true ->
  get_field result "license" = Return license ->
  validateWithRules (Fulfilled result) (Some rules)
  = (error ← first_error
               [usage_rule ToNumber rules license;
                allowed_features_rule ToString not_a_function rules license;
                required_features_rule not_a_function rules license;
                metadata_rule ToString (allowedDomains rules) "domain"
                  "Domain not allowed: " license;
                metadata_rule ToString (allowedIPs rules) "ipAddress"
                  "IP address not allowed: " license];
     match error with
     | Some e => Return (refused result e)
     | None => Return result
     end).
Proof.
  intros Hvalid Htruthy Hlicense. unfold Validator.validateWithRules, validateLicense.
  rewrite Hvalid. cbn [mbind Outcome_bind]. rewrite Htruthy. cbn [negb].
  by rewrite Hlicense.
Qed.

(** With only [maxUsage] given: the result is refused with Usage limit
    exceeded exactly when [maxUsage] is not zero, the license has a truthy
    [usageCount] and that count is greater than [maxUsage]; in particular a
    [maxUsage] of zero refuses nothing. A refused result keeps its other
    properties. *)
Theorem validateWithRules_usage (result valid license usageCount : Value)
    (limit : option Z) (concurrent : option Z) :
  get_field result "valid" = Return valid -> truthy valid = true ->
  get_field result "license" = Return license ->
  optional license "usageCount" = Return usageCount ->
  validateWithRules (Fulfilled result) (Some (mkRules limit None None concurrent None None))
  = Return (if truthy_rule limit && truthy usageCount
               && greater_than ToNumber usageCount (default 0%Z limit)
            then refused result "Usage limit exceeded"
            else result) /\
  (limit = Some 0%Z ->
   validateWithRules (Fulfilled result) (Some (mkRules limit None None concurrent None None))
   = Return result) /\
  (forall name, name <> "valid" -> name <> "error" ->
     own_properties (refused result "Usage limit exceeded") !! name
     = own_properties result !! name).
Proof.
  intros Hvalid Htruthy Hlicense Husage.
  assert (validateWithRules (Fulfilled result)
            (Some (mkRules limit None None concurrent None None))
          = Return (if truthy_rule limit && truthy usageCount
                       && greater_than ToNumber usageCount (default 0%Z limit)
                    then refused result "Usage limit exceeded"
                    else result)) as Hmain.
  { rewrite (validateWithRules_valid result valid license) by done.
    cbn [first_error]. unfold usage_rule, allowed_features_rule, required_features_rule,
      metadata_rule.
    cbn [maxUsage allowedFeatures requiredFeatures allowedDomains allowedIPs].
    destruct (truthy_rule limit); cbn [andb mbind Outcome_bind]; [|reflexivity].
    rewrite Husage. cbn [mbind Outcome_bind].
    by destruct (truthy usageCount && greater_than ToNumber usageCount (default 0%Z limit)). }
  split; [exact Hmain|]. split.
  - intros ->. by rewrite Hmain.
  - intros name Hvalid' Herror. unfold refused. cbn [own_properties].
    by rewrite !lookup_insert_ne.
Qed.

(** The usage rule comes first: when it refuses, the answer is Usage limit
    exceeded whatever the other rules and the rest of the license are, a
    [features] property that is no array included. *)
Theorem validateWithRules_usage_first (result valid license usageCount : Value)
    (rules : LicenseValidationRules) (limit : Z) :
  get_field result "valid" = Return valid -> truthy valid = true ->
  get_field result "license" = Return license ->
  optional license "usageCount" = Return usageCount ->
  maxUsage rules = Some limit -> limit <> 0%Z ->
  truthy usageCount = true -> greater_than ToNumber usageCount limit = true ->
  validateWithRules (Fulfilled result) (Some rules)
  = Return (refused result "Usage limit exceeded").
Proof.
  intros Hvalid Htruthy Hlicense Husage Hmax Hlimit Hcount Hgreater.
  rewrite (validateWithRules_valid result valid license) by done.
  cbn [first_error]. unfold usage_rule. rewrite Hmax.
  change (default 0%Z (Some limit)) with limit. cbn [truthy_rule].
  apply Z.eqb_neq in Hlimit. rewrite Hlimit. cbn [negb].
  rewrite Husage. cbn [mbind Outcome_bind]. by rewrite Hcount, Hgreater.
Qed.

(** A license that has none of the checked properties passes every rule:
    with [usageCount], [features], [metadata.domain] and
    [metadata.ipAddress] missing or falsy, the valid result comes back
    unchanged for all rules, a list of required features included. *)
Theorem validateWithRules_nothing_to_check (result valid license : Value)
    (usageCount features metadata domain ipAddress : Value)
    (rules : LicenseValidationRules) :
  get_field result "valid" = Return valid -> truthy valid = true ->
  get_field result "license" = Return license ->
  optional license "usageCount" = Return usageCount -> truthy usageCount = false ->
  optional license "features" = Return features -> truthy features = false ->
  optional license "metadata" = Return metadata ->
  optional metadata "domain" = Return domain -> truthy domain = false ->
  optional metadata "ipAddress" = Return ipAddress -> truthy ipAddress = false ->
  validateWithRules (Fulfilled result) (Some rules) = Return result.
Proof.
  intros Hvalid Htruthy Hlicense Hu Htu Hf Htf Hm Hd Htd Hi Hti.
  rewrite (validateWithRules_valid result valid license) by done.
  cbn [first_error].
  unfold usage_rule, allowed_features_rule, required_features_rule, metadata_rule.
  rewrite Hu, Hf, Hm. cbn [mbind Outcome_bind]. rewrite Htu, Htf, Hd, Hi.
  cbn [mbind Outcome_bind]. rewrite Htd, Hti. rewrite andb_false_l.
  destruct (truthy_rule (maxUsage rules)), (allowedFeatures rules),
    (requiredFeatures rules), (allowedDomains rules), (allowedIPs rules); reflexivity.
Qed.

(** An invalid result is returned as it is, and so is every result when no
    rules are passed; a rejected call gives the failure object of
    [validateLicense]. *)
Theorem validateWithRules_untouched (settled : ClientOutcome) (valid : Value)
    (rules : option LicenseValidationRules) (error : Exceptions.Caught) :
  (get_field (validateLicense settled) "valid" = Return valid ->
   truthy valid = false \/ rules = None ->
   validateWithRules settled rules = Return (validateLicense settled)) /\
  validateWithRules (Rejected error) rules
  = Return (JObject (<["valid" := JBool false]> (
                     <["error" := JString (caught_message error)]> ∅))).
Proof.
  split.
  - intros Hvalid Hor. unfold Validator.validateWithRules. rewrite Hvalid.
    cbn [mbind Outcome_bind]. destruct rules as [rules|]; [|done].
    destruct Hor as [->|]; done.
  - by destruct rules.
Qed.

(** [validateWithRules] has no [catch]: where the other methods answer
    with a default it rejects with a TypeError, on a response body that is
    [null], and on a license whose [features] is truthy and no array when
    allowed features are given and the usage rule does not refuse. *)
Theorem validateWithRules_rejects (result valid license features : Value)
    (rules : LicenseValidationRules) (allowed : list string) :
  (validateWithRules (Fulfilled JNull) (Some rules)
   = Throw (TypeError (TypeError_message JNull "valid")) /\
   validateLicense (Fulfilled JNull) = JNull /\ isValid (Fulfilled JNull) = JBool false) /\
  (get_field result "valid" = Return valid -> truthy valid = true ->
   get_field result "license" = Return license ->
   maxUsage rules = None -> allowedFeatures rules = Some allowed ->
   optional license "features" = Return features -> truthy features = true ->
   (forall items, features <> JArray items) ->
   validateWithRules (Fulfilled result) (Some rules)
   = Throw (TypeError (not_a_function features "filter"))).
Proof.
  split; [done|].
  intros Hvalid Htruthy Hlicense Hmax Hallowed Hfeatures Htf Harray.
  rewrite (validateWithRules_valid result valid license) by done.
  cbn [first_error]. unfold usage_rule, allowed_features_rule.
  rewrite Hmax, Hallowed. cbn [truthy_rule mbind Outcome_bind].
  rewrite Hfeatures. cbn [mbind Outcome_bind]. rewrite Htf.
  destruct features; try done. by destruct (Harray items).
Qed.

(** [hasFeature] and the required-features rule agree: for a valid
    result whose license lists its features as an array of strings,
    [hasFeature] is membership in that list, and [validateWithRules] with
    only required features given returns the result unchanged exactly when
    [hasFeature] holds for each of them. *)
Theorem hasFeature_agrees_with_rules (result valid license : Value) (fs required : list string)
    (concurrent : option Z) :
  get_field result "valid" = Return valid -> truthy valid = true ->
  get_field result "license" = Return license ->
  optional license "features" = Return (JArray (JString <$> fs)) ->
  (forall feature,
      hasFeature not_a_function (Fulfilled result) feature = bool_decide (feature ∈ fs)) /\
  (validateWithRules (Fulfilled result)
     (Some (mkRules None None (Some required) concurrent None None)) = Return result
   <-> forall feature, feature ∈ required ->
         hasFeature not_a_function (Fulfilled result) feature = true).
Proof.
  intros Hvalid Htruthy Hlicense Hfeatures.
  assert (forall feature,
             hasFeature not_a_function (Fulfilled result) feature
             = bool_decide (feature ∈ fs)) as Hhas.
  { intros feature. unfold hasFeature, validateLicense.
    cbn [mbind Outcome_bind]. rewrite Hvalid. cbn [mbind Outcome_bind].
    rewrite Htruthy. cbn [negb]. rewrite Hlicense. cbn [mbind Outcome_bind].
    rewrite Hfeatures. cbn [mbind Outcome_bind nullish].
    by rewrite features_include_strings. }
  split; [exact Hhas|].
  rewrite (validateWithRules_valid result valid license) by done.
  cbn [first_error]. unfold usage_rule, allowed_features_rule, metadata_rule.
  cbn [maxUsage allowedFeatures allowedDomains allowedIPs truthy_rule mbind Outcome_bind].
  rewrite (required_features_rule_strings _ license fs Hfeatures).
  cbn [requiredFeatures mbind Outcome_bind].
  case_bool_decide as Hnil; cbn [mbind Outcome_bind].
  - split; [|done]. intros _ feature Hin. rewrite Hhas. apply bool_decide_eq_true_2.
    destruct (decide (feature ∈ fs)) as [|Hout]; [done|].
    assert (feature ∈ filter (fun f => f ∉ fs) required) as H
        by (by apply list_elem_of_filter).
    rewrite Hnil in H. by apply elem_of_nil in H.
  - split.
    + intros [= Hsame]. exfalso.
      assert (get_field (refused result ("Missing required features: "
                 ++ join (filter (fun f => f ∉ fs) required))) "valid"
              = Return (JBool false)) as Hrefused.
      { unfold refused. cbn [get_field].
        by rewrite lookup_insert_ne, lookup_insert_eq. }
      rewrite Hsame, Hvalid in Hrefused. injection Hrefused as ->. discriminate.
    + intros Hall. exfalso.
      destruct (filter (fun f => f ∉ fs) required) as [|f rest] eqn:Hfilter; [done|].
      assert (f ∈ filter (fun f => f ∉ fs) required) as Hin by (rewrite Hfilter; left).
      apply list_elem_of_filter in Hin as [Hout Hin].
      specialize (Hall f Hin). rewrite Hhas in Hall.
      by apply bool_decide_eq_true_1 in Hall.
Qed.

End RulesFacts.

(** ** The client and the validator on concrete values *)

Example call_recovers :
  Client.call (rt := Fixture.runtime) Samples.to_string Samples.the_client Samples.recovering
  = Some (Client.Fulfilled (JObject (<["valid" := JBool true]> ∅)),
          [Some 1000%Z; Some 2000%Z]).
Proof. reflexivity. Qed.

Example call_gives_up :
  exists e,
    Client.call (rt := Fixture.runtime) Samples.to_string Samples.the_client
      (fun _ => Client.Failed (Client.HttpFailure 503 JNull "Request failed with status code 503"))
    = Some (Client.Rejected e, [Some 1000%Z; Some 2000%Z; Some 4000%Z]) /\
    Exceptions.class e = Exceptions.ServerError /\
    Exceptions.message e = "Request failed with status code 503".
Proof. eexists. split; [reflexivity|]. split; reflexivity. Qed.

Lemma updateConfig_in_step_witness :
  Client.in_step Samples.the_client /\
  Client.in_step
    (Client.updateConfig Samples.the_client
       (Client.mkConfig (Client.Given "other") Client.Absent (Client.Given 5000%Z)
          Client.Absent Client.Absent)).
Proof.
  apply (updateConfig_in_step (rt := Fixture.runtime) Samples.to_string
           (Client.mkConfig (Client.Given "key") Client.Absent Client.Absent Client.Absent
              Client.Absent)).
  - reflexivity.
  - right. reflexivity.
  - left. reflexivity.
  - right. reflexivity.
Defined.

Lemma call_fails_at_once_witness :
  Client.call (rt := Fixture.runtime) Samples.to_string Samples.the_client Samples.offline
  = Some (Client.Rejected
            (Client.failure_error (rt := Fixture.runtime) Samples.to_string
               (Client.NoResponse "timeout of 30000ms exceeded" (JString "ECONNABORTED"))), []).
Proof.
  apply (call_fails_at_once (rt := Fixture.runtime) Samples.to_string Samples.the_client
           Samples.offline
           (Client.NoResponse "timeout of 30000ms exceeded" (JString "ECONNABORTED"))
           eq_refl I).
Defined.

Lemma expiry_consistent_witness :
  Validator.isExpired (rt := Fixture.runtime) (Samples.settled Samples.the_result) = true /\
  Validator.getDaysUntilExpiration (rt := Fixture.runtime) (Samples.settled Samples.the_result)
  = Validator.DaysNumber 0.
Proof.
  assert (Validator.licensed (rt := Fixture.runtime) (Samples.settled Samples.the_result)
            (JString "2023-11-14T22:11:40.000Z")) as Hlicensed.
  { exists Samples.the_result, (JBool true), Samples.the_license. repeat split. }
  destruct (expiry_consistent (rt := Fixture.runtime) (Samples.settled Samples.the_result)
              (JString "2023-11-14T22:11:40.000Z") (Fixture.now - 100000)%Z
              Hlicensed eq_refl eq_refl)
    as (Hexpired & days & Hdays & _ & _ & _ & Hzero).
  split; [reflexivity|]. rewrite Hdays. f_equal. apply Hzero. reflexivity.
Defined.

Lemma validateWithRules_features_witness :
  Validator.validateWithRules (rt := Fixture.runtime)
    Samples.to_string Samples.to_number Samples.no_method
    (Samples.settled Samples.the_result)
    (Some (Validator.mkRules None (Some ["basic"]) (Some ["sso"]) None None None))
  = Return (Validator.refused (rt := Fixture.runtime) Samples.the_result "Invalid features: export").
Proof.
  destruct (validateWithRules_features (rt := Fixture.runtime)
              Samples.to_string Samples.to_number Samples.no_method
              Samples.the_result Samples.the_license ["basic"; "export"]
              (Some ["basic"]) (Some ["sso"]) None
              (ex_intro _ (JBool true) (conj eq_refl eq_refl)) eq_refl eq_refl)
    as (invalid & missing & -> & -> & Hresult & _).
  exact Hresult.
Defined.

Lemma validateWithRules_usage_witness :
  Validator.validateWithRules (rt := Fixture.runtime)
    Samples.to_string Samples.to_number Samples.no_method
    (Samples.settled Samples.the_result)
    (Some (Validator.mkRules (Some 3%Z) None None None None None))
  = Return (Validator.refused (rt := Fixture.runtime) Samples.the_result "Usage limit exceeded").
Proof.
  destruct (validateWithRules_usage (rt := Fixture.runtime)
              Samples.to_string Samples.to_number Samples.no_method
              Samples.the_result (JBool true) Samples.the_license (JNumber 5%Z)
              (Some 3%Z) None eq_refl eq_refl eq_refl eq_refl) as [Hresult _].
  exact Hresult.
Defined.

Lemma validateWithRules_usage_first_witness :
  Validator.validateWithRules (rt := Fixture.runtime)
    Samples.to_string Samples.to_number Samples.no_method
    (Samples.settled Samples.the_result)
    (Some (Validator.mkRules (Some 3%Z) (Some []) (Some ["sso"]) None None None))
  = Return (Validator.refused (rt := Fixture.runtime) Samples.the_result "Usage limit exceeded").
Proof.
  apply (validateWithRules_usage_first (rt := Fixture.runtime)
           Samples.to_string Samples.to_number Samples.no_method
           Samples.the_result (JBool true) Samples.the_license (JNumber 5%Z)
           (Validator.mkRules (Some 3%Z) (Some []) (Some ["sso"]) None None None) 3%Z
           eq_refl eq_refl eq_refl eq_refl eq_refl).
  - discriminate.
  - reflexivity.
  - reflexivity.
Defined.

Lemma validateWithRules_nothing_to_check_witness :
  Validator.validateWithRules (rt := Fixture.runtime)
    Samples.to_string Samples.to_number Samples.no_method
    (Samples.settled Samples.bare_result)
    (Some (Validator.mkRules (Some 1%Z) (Some []) (Some ["sso"]) None (Some []) (Some [])))
  = Return Samples.bare_result.
Proof.
  apply (validateWithRules_nothing_to_check (rt := Fixture.runtime)
           Samples.to_string Samples.to_number Samples.no_method
           Samples.bare_result (JBool true) (JObject ∅)
           JUndefined JUndefined JUndefined JUndefined JUndefined); reflexivity.
Defined.

Lemma hasFeature_agrees_with_rules_witness :
  Validator.hasFeature (rt := Fixture.runtime) Samples.no_method
    (Samples.settled Samples.the_result) "export" = true /\
  Validator.hasFeature (rt := Fixture.runtime) Samples.no_method
    (Samples.settled Samples.the_result) "sso" = false.
Proof.
  destruct (hasFeature_agrees_with_rules (rt := Fixture.runtime)
              Samples.to_string Samples.to_number Samples.no_method
              Samples.the_result (JBool true) Samples.the_license ["basic"; "export"] ["sso"]
              None eq_refl eq_refl eq_refl eq_refl) as [Hhas _].
  split; rewrite Hhas; reflexivity.
Defined.
